(** * Initial-sync slot search and gossip broadcast of the beacon node

    A shallow embedding of
    - [beacon-chain/sync/initial-sync/blocks_fetcher_utils.go]
      (package [initialsync]: the non-skipped-slot search and the head/target
      epoch calculation),
    - the pubsub helpers of package [p2p] ([JoinTopic], [LeaveTopic],
      [PublishToTopic], [msgIDFunction]), and
    - [beacon-chain/p2p/broadcaster.go] ([Broadcast], [BroadcastAttestation]).

    Go's [uint64] is a [Z] reduced modulo [2^64] after every operation, a Go
    function returning [(v, error)] is an [outcome], and code that talks to
    peers, to the pubsub transport or to the clock runs in a small state
    monad over the history of such calls: a collaborator answers as a function
    of everything that happened before, so that an answer may change from one
    call to the next. *)

From Stdlib Require Import ZArith Lia List String.
From stdpp Require Import base option list strings gmap.

Open Scope Z_scope.

(** ** Machine integers *)

Module U64.
Definition modulus : Z := 2 ^ 64.
Definition wrap (x : Z) : Z := x mod modulus.
Definition add (x y : Z) : Z := wrap (x + y).
Definition sub (x y : Z) : Z := wrap (x - y).
Definition mul (x y : Z) : Z := wrap (x * y).
(** Go's [/] on unsigned operands.  Go panics on a zero divisor; the only
    divisors in the code are the constant 2 and [SlotsPerEpoch], which is
    positive in every network configuration. *)
Definition div (x y : Z) : Z := x / y.
Definition in_range (x : Z) : Prop := 0 <= x < modulus.
(** [int(x)] and [int64(x)] of a [uint64] on a 64-bit platform. *)
Definition to_int (x : Z) : Z :=
  if x <? 2 ^ 63 then x else x - modulus.
(** Wrap-around of a signed 64-bit result. *)
Definition wrap_int (x : Z) : Z := to_int (wrap x).
End U64.

(** ** Errors and outcomes *)

(** Go error values.  The sentinels are compared by identity in Go, so each
    is a constructor of its own; [external] stands for whatever a
    collaborator (peer, transport, encoder) reports. *)
Inductive error : Type :=
| errSlotIsTooHigh
| errNoPeersAvailable
| ErrMessageNotMapped
| context_Canceled
| context_DeadlineExceeded
| errors_New (msg : string)
| errors_Wrap (cause : error) (msg : string)
| errors_Errorf (msg : string)
| external (code : nat).

(** What a call does: it returns a value with a nil error, returns an error,
    panics, or (in the model only) is cut short by the loop budget. *)
Inductive outcome (A : Type) : Type :=
| Return (a : A)
| Fail (e : error)
| Panic
| OutOfFuel.
Arguments Return {A} a.
Arguments Fail {A} e.
Arguments Panic {A}.
Arguments OutOfFuel {A}.

(** State monad with early exit on everything that is not [Return]. *)
Definition Eff (S A : Type) : Type := S -> outcome A * S.

Definition eff_ret {S A} (a : A) : Eff S A := fun s => (Return a, s).

Definition eff_bind {S A B} (k : A -> Eff S B) (m : Eff S A) : Eff S B :=
  fun s =>
    match m s with
    | (Return a, s') => k a s'
    | (Fail e, s') => (Fail e, s')
    | (Panic, s') => (Panic, s')
    | (OutOfFuel, s') => (OutOfFuel, s')
    end.

#[global] Instance Eff_ret {S} : MRet (Eff S) := @eff_ret S.
#[global] Instance Eff_bind {S} : MBind (Eff S) := @eff_bind S.

Definition fail {S A} (e : error) : Eff S A := fun s => (Fail e, s).
Definition panic {S A} : Eff S A := fun s => (Panic, s).
Definition out_of_fuel {S A} : Eff S A := fun s => (OutOfFuel, s).
Definition gets {S A} (g : S -> A) : Eff S A := fun s => (Return (g s), s).
Definition modify {S} (g : S -> S) : Eff S unit := fun s => (Return tt, g s).
(** Lift a Go [(v, error)] answer. *)
Definition lift {S A} (r : A + error) : Eff S A :=
  match r with inl a => mret a | inr e => fail e end.
(** [if err != nil { return errors.Wrap(err, msg) }]. *)
Definition wrapping {S A} (msg : string) (m : Eff S A) : Eff S A :=
  fun s =>
    match m s with
    | (Fail e, s') => (Fail (errors_Wrap e msg), s')
    | r => r
    end.
(** [if err := m(); err != nil { log it }]: the error is kept from the
    caller of the enclosing function. *)
Definition logged {S A} (m : Eff S A) : Eff S (option error) :=
  fun s =>
    match m s with
    | (Return _, s') => (Return None, s')
    | (Fail e, s') => (Return (Some e), s')
    | (Panic, s') => (Panic, s')
    | (OutOfFuel, s') => (OutOfFuel, s')
    end.

(** How a loop body ends: the enclosing function returns, or control falls
    through to the statement after the loop. *)
Inductive flow (R S : Type) : Type :=
| Returned (r : R)
| Onward (s : S).
Arguments Returned {R S} r.
Arguments Onward {R S} s.

(** ** core/helpers *)

Module helpers.
Section WithConfig.
Variable SlotsPerEpoch : Z.

(** Modelled from the spec: [helpers.SlotToEpoch] is not among the
    sources; section 3 of the specification gives
    [Epoch = Slot / SlotsPerEpoch]. *)
Definition SlotToEpoch (slot : Z) : Z := U64.div slot SlotsPerEpoch.

(** Modelled from the spec: [helpers.StartSlot] is not among the
    sources; the first slot of an epoch is [epoch * SlotsPerEpoch], and
    the callers show that it returns an error, which is the overflow of
    that product. *)
Definition StartSlot (epoch : Z) : Z + error :=
  if epoch * SlotsPerEpoch <? U64.modulus
  then inl (epoch * SlotsPerEpoch)
  else inr (errors_Errorf "start slot calculation overflows").

(** Modelled from the spec: [endOfEpoch] of section 8, the last slot of
    an epoch, one before the first slot of the next epoch. *)
Definition endOfEpoch (epoch : Z) : Z := (epoch + 1) * SlotsPerEpoch - 1.
End WithConfig.
End helpers.

(** ** Package initialsync: blocks_fetcher_utils.go *)

Module initialsync.

Definition peer_ID : Type := string.

(** [p2ppb.BeaconBlocksByRangeRequest]. *)
Record BeaconBlocksByRangeRequest : Type := {
  StartSlot : Z;
  Count : Z;
  Step : Z
}.

(** A signed block as far as the search reads it: [block.Block.Slot]. *)
Record SignedBeaconBlock : Type := { Block_Slot : Z }.

Inductive syncMode : Type :=
| modeStopOnFinalizedEpoch
| modeNonConstrained.

(** Calls that leave the fetcher. *)
Inductive Event : Type :=
| EvRequestBlocks (pid : peer_ID) (req : BeaconBlocksByRangeRequest)
| EvRandIntn (n : Z).

(** [params.BeaconConfig()], [flags.Get()] and the constants of the
    package that the file reads but does not declare.  [SlotsPerEpoch] is a
    positive [uint64] (32 on mainnet, 8 in the minimal configuration),
    [MinimumSyncPeers] and [MaxPeersToSync] are [int]s. *)
Record Config : Type := {
  SlotsPerEpoch : Z;
  MaxPeersToSync : Z;
  MinimumSyncPeers : Z;
  nonSkippedSlotsFullSearchEpochs : Z
}.

(** The [blocksFetcher] with its collaborators: the chain, the peer
    registry [f.p2p.Peers()], the peer filter, the block-range request and
    the random source.  [requestBlocks] and [rand_Intn] answer from the
    history of calls; the percentage [peersPercentagePerRequest] handed to
    [filterPeers] is a constant of the package and part of that oracle. *)
Record blocksFetcher : Type := {
  mode : syncMode;
  chain_HeadSlot : Z;
  chain_FinalizedCheckpt_Epoch : Z;
  Peers_BestFinalized : Z -> Z -> Z * list peer_ID;
  Peers_BestNonFinalized : Z -> Z -> Z * list peer_ID;
  filterPeers : list peer_ID -> list peer_ID + error;
  requestBlocks :
    list Event -> BeaconBlocksByRangeRequest -> peer_ID ->
    list SignedBeaconBlock + error;
  rand_source : list Event -> Z
}.

Definition syncMode_eqb (a b : syncMode) : bool :=
  match a, b with
  | modeStopOnFinalizedEpoch, modeStopOnFinalizedEpoch => true
  | modeNonConstrained, modeNonConstrained => true
  | _, _ => false
  end.

(** The history of calls so far, oldest first, is the state. *)
Definition past : Eff (list Event) (list Event) := gets id.
Definition emit (e : Event) : Eff (list Event) unit := modify (fun h => h ++ [e]).

Section Fetcher.
Variable cfg : Config.
Variable f : blocksFetcher.

Let slotsPerEpoch : Z := SlotsPerEpoch cfg.

(** [bestFinalizedSlot]. *)
Definition bestFinalizedSlot : Z :=
  let '(finalizedEpoch, _) :=
    Peers_BestFinalized f (MaxPeersToSync cfg) (chain_FinalizedCheckpt_Epoch f) in
  U64.mul finalizedEpoch (SlotsPerEpoch cfg).

(** [bestNonFinalizedSlot]: the registry is asked with
    [flags.Get().MinimumSyncPeers*2], an [int] product. *)
Definition bestNonFinalizedSlot : Z :=
  let headEpoch := helpers.SlotToEpoch (SlotsPerEpoch cfg) (chain_HeadSlot f) in
  let '(targetEpoch, _) :=
    Peers_BestNonFinalized f (U64.wrap_int (MinimumSyncPeers cfg * 2)) headEpoch in
  U64.mul targetEpoch (SlotsPerEpoch cfg).

(** [calculateHeadAndTargetEpochs]. *)
Definition calculateHeadAndTargetEpochs : Z * Z * list peer_ID :=
  if syncMode_eqb (mode f) modeStopOnFinalizedEpoch then
    let headEpoch := chain_FinalizedCheckpt_Epoch f in
    let '(targetEpoch, peers) :=
      Peers_BestFinalized f (MaxPeersToSync cfg) headEpoch in
    (headEpoch, targetEpoch, peers)
  else
    let headEpoch := helpers.SlotToEpoch (SlotsPerEpoch cfg) (chain_HeadSlot f) in
    let '(targetEpoch, peers) :=
      Peers_BestNonFinalized f (MinimumSyncPeers cfg) headEpoch in
    (headEpoch, targetEpoch, peers).

(** The first block of the answer whose slot is above [slot], or 0. *)
Fixpoint firstSlotAbove (slot : Z) (blocks : list SignedBeaconBlock) : Z :=
  match blocks with
  | [] => 0
  | block :: rest =>
      if slot <? Block_Slot block then Block_Slot block
      else firstSlotAbove slot rest
  end.

(** The closure [fetch].  It captures the variable [slot] of the
    enclosing function, not its value: the caller passes the value that
    variable holds at the time of the call. *)
Definition fetch (slot : Z) (pid : peer_ID) (start count step : Z) : Eff (list Event) Z :=
  let req := {| StartSlot := start; Count := count; Step := step |} in
  h ← past;
  _ ← emit (EvRequestBlocks pid req);
  blocks ← lift (requestBlocks f h req pid);
  mret (firstSlotAbove slot blocks).

(** [peers[pidInd%len(peers)]]; the callers have checked [len(peers) != 0]. *)
Definition peerAt (peers : list peer_ID) (pidInd : nat) : Eff (list Event) peer_ID :=
  match peers !! (pidInd mod length peers)%nat with
  | Some pid => mret pid
  | None => panic
  end.

(** [f.rand.Intn(n)]: panics unless [n > 0], else a draw in [[0, n)]. *)
Definition rand_Intn (n : Z) : Eff (list Event) Z :=
  if n <=? 0 then panic
  else
    h ← past;
    _ ← emit (EvRandIntn n);
    mret (rand_source f h mod n).

(** The dense stage: [for ind := start; ind < end; ind += slotsPerEpoch]. *)
Fixpoint denseStage (fuel : nat) (peers : list peer_ID) (slot end_ ind : Z)
    (pidInd : nat) : Eff (list Event) (flow Z nat) :=
  if ind <? end_ then
    match fuel with
    | O => out_of_fuel
    | S fuel' =>
        pid ← peerAt peers pidInd;
        nextSlot ← fetch slot pid ind slotsPerEpoch 1;
        if slot <? nextSlot then mret (Returned nextSlot)
        else denseStage fuel' peers slot end_ (U64.add ind slotsPerEpoch) (S pidInd)
    end
  else mret (Onward pidInd).

(** The sparse stage:
    [for ind := slot + 1; ind < upperBoundSlot; ind += (slotsPerEpoch * slotsPerEpoch) / 2].
    It ends with the upper bound and the peer index for the exact stage. *)
Fixpoint sparseStage (fuel : nat) (peers : list peer_ID) (slot upperBoundSlot ind : Z)
    (pidInd : nat) : Eff (list Event) (Z * nat) :=
  if ind <? upperBoundSlot then
    match fuel with
    | O => out_of_fuel
    | S fuel' =>
        r ← rand_Intn (U64.to_int slotsPerEpoch);
        let start := U64.add ind r in
        pid ← peerAt peers pidInd;
        nextSlot ← fetch slot pid start (U64.div slotsPerEpoch 2) slotsPerEpoch;
        let pidInd := S pidInd in
        if (slot <? nextSlot) && (nextSlot <=? upperBoundSlot)
        then mret (nextSlot, pidInd)
        else sparseStage fuel' peers slot upperBoundSlot
               (U64.add ind (U64.div (U64.mul slotsPerEpoch slotsPerEpoch) 2)) pidInd
    end
  else mret (upperBoundSlot, pidInd).

(** The guarded back-off of the exact stage:
    [if upperBoundSlot > slotsPerEpoch { upperBoundSlot -= slotsPerEpoch }]. *)
Definition backOff (upperBoundSlot : Z) : Z :=
  if slotsPerEpoch <? upperBoundSlot
  then U64.sub upperBoundSlot slotsPerEpoch
  else upperBoundSlot.

(** The exact stage, from the back-off to the final range check. *)
Definition exactStage (peers : list peer_ID) (targetEpoch slot upperBoundSlot : Z)
    (pidInd : nat) : Eff (list Event) Z :=
  let upperBoundSlot := backOff upperBoundSlot in
  upperBoundSlot ←
    lift (helpers.StartSlot slotsPerEpoch
            (helpers.SlotToEpoch slotsPerEpoch upperBoundSlot));
  pid ← peerAt peers pidInd;
  nextSlot ← fetch slot pid upperBoundSlot (U64.mul slotsPerEpoch 2) 1;
  s ← lift (helpers.StartSlot slotsPerEpoch (U64.add targetEpoch 1));
  if (nextSlot <? slot) || (s <? nextSlot)
  then fail (errors_New "invalid range for non-skipped slot")
  else mret nextSlot.

(** [nonSkippedSlotAfter].  [fuel] bounds the iterations of each loop. *)
Definition nonSkippedSlotAfter (fuel : nat) (slot : Z) : Eff (list Event) Z :=
  let '(headEpoch, targetEpoch, peers) := calculateHeadAndTargetEpochs in
  if targetEpoch <=? headEpoch then fail errSlotIsTooHigh
  else
    peers ← lift (filterPeers f peers);
    if (length peers =? 0)%nat then fail errNoPeersAvailable
    else
      let start := U64.add slot 1 in
      let end_ :=
        U64.add start (U64.mul (nonSkippedSlotsFullSearchEpochs cfg) slotsPerEpoch) in
      dense ← denseStage fuel peers slot end_ start 0%nat;
      match dense with
      | Returned nextSlot => mret nextSlot
      | Onward pidInd =>
          let slot :=
            U64.add slot (U64.mul (nonSkippedSlotsFullSearchEpochs cfg) slotsPerEpoch) in
          upperBoundSlot ←
            lift (helpers.StartSlot slotsPerEpoch (U64.add targetEpoch 1));
          '(upperBoundSlot, pidInd) ←
            sparseStage fuel peers slot upperBoundSlot (U64.add slot 1) pidInd;
          exactStage peers targetEpoch slot upperBoundSlot pidInd
      end.
End Fetcher.
End initialsync.

(** ** Package p2p: pubsub helpers and broadcaster.go *)

Module p2p.

Definition peer_ID : Type := string.
Definition bytes : Type := list Byte.byte.

(** A [*pubsub.Topic] is known by its identity; [nil_Topic] is the nil
    pointer, which a Go map lookup yields for a missing key. *)
Definition Topic : Type := nat.
Definition nil_Topic : Topic := 0%nat.

(** [eth.Attestation] as far as the broadcaster reads it. *)
Record Attestation : Type := { Data_Slot : Z; att_ssz : bytes }.

(** A [proto.Message] with its runtime type [reflect.TypeOf(msg)]. *)
Record Message : Type := { TypeOf : string; msg_ssz : bytes }.

(** The [interface{}] handed to [broadcastObject]. *)
Inductive object : Type :=
| obj_message (msg : Message)
| obj_attestation (att : Attestation).

(** Calls that leave the service. *)
Inductive Event : Type :=
| EvHasPeerWithSubnet (subnet : Z)
| EvFindPeersWithSubnet (subnet : Z)
| EvEncodeGossip (obj : object)
| EvJoin (topic : string)
| EvClose (t : Topic)
| EvListPeers (t : Topic)
| EvPublish (t : Topic) (data : bytes)
| EvSleep (ms : Z).

(** A [context.Context]: whether it is done depends on when it is asked;
    [ctx_Err h] is [ctx.Err()] after the calls [h], and [ctx.Done()] is
    ready exactly when that is not nil. *)
Record Context : Type := {
  ctx_Err : list Event -> option error;
  ctx_Value : string -> option string
}.

Definition context_Background : Context :=
  {| ctx_Err := fun _ => None; ctx_Value := fun _ => None |}.

Definition context_WithValue (parent : Context) (key : string) (val : option string)
    : Context :=
  {| ctx_Err := ctx_Err parent;
     ctx_Value := fun k => if String.eqb k key then val else ctx_Value parent k |}.

(** [params.BeaconConfig()] as read by the broadcaster. *)
Record Config : Type := {
  SlotsPerEpoch : Z;
  SecondsPerSlot : Z
}.

(** The collaborators of the [Service]: fork digest, topic table, encoder,
    pubsub transport, subnet peer search, topic formatting and the clock
    (nanoseconds).  Those that can change over time answer from the
    history of calls. *)
Record Collaborators : Type := {
  forkDigest : list Event -> bytes + error;
  GossipTypeMapping : gmap string string;
  Encoding_EncodeGossip : object -> bytes + error;
  Encoding_ProtocolSuffix : string;
  pubsub_Join : list Event -> string -> Topic + error;
  Topic_Close : list Event -> Topic -> option error;
  Topic_ListPeers : list Event -> Topic -> list peer_ID;
  Topic_Publish : list Event -> Topic -> bytes -> option error;
  hasPeerWithSubnet : list Event -> Z -> bool;
  FindPeersWithSubnet : list Event -> Z -> bool + error;
  (** [fmt.Sprintf(topic, forkDigest)] *)
  Sprintf_topic : string -> bytes -> string;
  (** [fmt.Sprintf(AttestationSubnetTopicFormat, forkDigest, subnet)] *)
  Sprintf_AttestationSubnetTopicFormat : bytes -> Z -> string;
  time_Now : list Event -> Z
}.

(** The arguments of a [go s.broadcastAttestation(...)] statement. *)
Record goroutine : Type := {
  go_ctx : Context;
  go_subnet : Z;
  go_att : Attestation;
  go_forkDigest : bytes
}.

(** The mutable part of the [Service], the history of its calls and the
    goroutines it has started, oldest first. *)
Record State : Type := {
  history : list Event;
  joinedTopics : gmap string Topic;
  started : list goroutine
}.

Definition past : Eff State (list Event) := gets history.

Definition emit (e : Event) : Eff State unit :=
  modify (fun st =>
    {| history := history st ++ [e];
       joinedTopics := joinedTopics st;
       started := started st |}).

Definition go (g : goroutine) : Eff State unit :=
  modify (fun st =>
    {| history := history st;
       joinedTopics := joinedTopics st;
       started := started st ++ [g] |}).

Definition set_joinedTopics (m : gmap string Topic) : Eff State unit :=
  modify (fun st =>
    {| history := history st; joinedTopics := m; started := started st |}).

(** Max number of attempts to search the network for a specific subnet. *)
Definition maxSubnetDiscoveryAttempts : nat := 3.

Definition time_Second : Z := 1000000000.

Section Service.
Variable cfg : Config.
Variable s : Collaborators.

(** [context.WithTimeout(parent, d)], created after the calls [h0]. *)
Definition context_WithTimeout (parent : Context) (d : Z) (h0 : list Event)
    : Context :=
  {| ctx_Err := fun h =>
       match ctx_Err parent h with
       | Some e => Some e
       | None =>
           if time_Now s h0 + d <=? time_Now s h
           then Some context_DeadlineExceeded else None
       end;
     ctx_Value := ctx_Value parent |}.

(** [JoinTopic] (the options are handed to [pubsub.Join] unread). *)
Definition JoinTopic (topic : string) : Eff State Topic :=
  topics ← gets joinedTopics;
  _ ← match topics !! topic with
      | Some _ => mret tt
      | None =>
          h ← past;
          _ ← emit (EvJoin topic);
          topicHandle ← lift (pubsub_Join s h topic);
          set_joinedTopics (<[topic := topicHandle]> topics)
      end;
  topics ← gets joinedTopics;
  mret (default nil_Topic (topics !! topic)).

(** [LeaveTopic]. *)
Definition LeaveTopic (topic : string) : Eff State unit :=
  topics ← gets joinedTopics;
  match topics !! topic with
  | Some t =>
      h ← past;
      _ ← emit (EvClose t);
      match Topic_Close s h t with
      | Some err => fail err
      | None => set_joinedTopics (delete topic topics)
      end
  | None => mret tt
  end.

(** The loop of [PublishToTopic]; [fuel] bounds the number of polls. *)
Fixpoint awaitPeerAndPublish (fuel : nat) (ctx : Context) (topicHandle : Topic)
    (data : bytes) : Eff State unit :=
  match fuel with
  | O => out_of_fuel
  | S fuel' =>
      h ← past;
      _ ← emit (EvListPeers topicHandle);
      if (0 <? length (Topic_ListPeers s h topicHandle))%nat then
        h ← past;
        _ ← emit (EvPublish topicHandle data);
        match Topic_Publish s h topicHandle data with
        | Some err => fail err
        | None => mret tt
        end
      else
        h ← past;
        match ctx_Err ctx h with
        | Some err => fail err
        | None =>
            _ ← emit (EvSleep 100);
            awaitPeerAndPublish fuel' ctx topicHandle data
        end
  end.

(** [PublishToTopic]. *)
Definition PublishToTopic (fuel : nat) (ctx : Context) (topic : string)
    (data : bytes) : Eff State unit :=
  topicHandle ← JoinTopic topic;
  awaitPeerAndPublish fuel ctx topicHandle data.

(** [broadcastObject] (the send event of the trace span is left out). *)
Definition broadcastObject (fuel : nat) (ctx : Context) (obj : object)
    (topic : string) : Eff State unit :=
  _ ← emit (EvEncodeGossip obj);
  buf ← wrapping "could not encode message" (lift (Encoding_EncodeGossip s obj));
  wrapping "could not publish message"
    (PublishToTopic fuel ctx (topic ++ Encoding_ProtocolSuffix s) buf).

Definition attestationToTopic (subnet : Z) (digest : bytes) : string :=
  Sprintf_AttestationSubnetTopicFormat s digest subnet.

(** [Broadcast]. *)
Definition Broadcast (fuel : nat) (ctx : Context) (msg : Message) : Eff State unit :=
  let twoSlots :=
    U64.wrap_int (U64.to_int (U64.mul 2 (SecondsPerSlot cfg)) * time_Second) in
  h ← past;
  let ctx := context_WithTimeout ctx twoSlots h in
  digest ← wrapping "could not retrieve fork digest" (lift (forkDigest s h));
  match GossipTypeMapping s !! TypeOf msg with
  | None => fail ErrMessageNotMapped
  | Some topic =>
      broadcastObject fuel ctx (obj_message msg) (Sprintf_topic s topic digest)
  end.

(** [BroadcastAttestation]: the goroutine is started, not run. *)
Definition BroadcastAttestation (ctx : Context) (subnet : Z) (att : Attestation)
    : Eff State unit :=
  h ← past;
  digest ← wrapping "could not retrieve fork digest" (lift (forkDigest s h));
  _ ← go {| go_ctx := ctx; go_subnet := subnet; go_att := att;
            go_forkDigest := digest |};
  mret tt.

(** The closure of [broadcastAttestation] that searches for a subnet
    peer: [for i := 0; i < maxSubnetDiscoveryAttempts; i++], with
    [remaining = maxSubnetDiscoveryAttempts - i]. *)
Fixpoint discoverSubnetPeer (remaining : nat) (ctx : Context) (subnet : Z)
    : Eff State unit :=
  match remaining with
  | O => fail (errors_New "failed to find peers for subnet")
  | S remaining' =>
      h ← past;
      match ctx_Err ctx h with
      | Some err => fail err
      | None =>
          _ ← emit (EvFindPeersWithSubnet subnet);
          ok ← lift (FindPeersWithSubnet s h subnet);
          if ok : bool then mret tt
          else discoverSubnetPeer remaining' ctx subnet
      end
  end.

(** [broadcastAttestation], the body of the goroutine. *)
Definition broadcastAttestation (fuel : nat) (ctx : Context) (subnet : Z)
    (att : Attestation) (digest : bytes) : Eff State unit :=
  let requestKey := ctx_Value ctx "x-request-key" in
  let oneEpoch :=
    U64.wrap_int
      (U64.to_int (U64.mul (U64.mul 1 (SlotsPerEpoch cfg)) (SecondsPerSlot cfg))
       * time_Second) in
  h ← past;
  let ctx := context_WithTimeout context_Background oneEpoch h in
  _ ← emit (EvHasPeerWithSubnet subnet);
  let hasPeer := hasPeerWithSubnet s h subnet in
  _ ← (if negb hasPeer
       then logged (discoverSubnetPeer maxSubnetDiscoveryAttempts ctx subnet)
       else mret None);
  _ ← logged
        (broadcastObject fuel
           (context_WithValue ctx "x-request-key" requestKey)
           (obj_attestation att) (attestationToTopic subnet digest));
  mret tt.

(** Run a started goroutine. *)
Definition run_goroutine (fuel : nat) (g : goroutine) : Eff State unit :=
  broadcastAttestation fuel (go_ctx g) (go_subnet g) (go_att g) (go_forkDigest g).
End Service.

(** *** Histories of the publish loop *)

(** One unsuccessful round of the loop of [PublishToTopic]: the peers of
    the topic are listed, then the loop sleeps 100 milliseconds. *)
Definition poll (t : Topic) : list Event := [EvListPeers t; EvSleep 100].

Fixpoint polls (t : Topic) (n : nat) : list Event :=
  match n with
  | O => []
  | S n' => poll t ++ polls t n'
  end.

Definition with_history (st : State) (h : list Event) : State :=
  {| history := h; joinedTopics := joinedTopics st; started := started st |}.

(** After the calls [h] the topic has no peer and the context is not done:
    the loop goes round once more. *)
Definition idle (s : Collaborators) (ctx : Context) (t : Topic) (h : list Event)
    : Prop :=
  Topic_ListPeers s h t = [] /\ ctx_Err ctx (h ++ [EvListPeers t]) = None.

(** How the loop of [PublishToTopic], entered in state [st], ends after
    the calls [h]: the loop budget of the model is used up; no peer is
    listed and the context is done; or a peer is listed and the message is
    handed to [Publish], whose answer is the result. *)
Inductive loop_end (s : Collaborators) (ctx : Context) (t : Topic) (data : bytes)
    (st : State) (h : list Event) : outcome unit -> State -> Prop :=
| end_budget :
    loop_end s ctx t data st h OutOfFuel (with_history st h)
| end_cancelled (e : error) :
    Topic_ListPeers s h t = [] ->
    ctx_Err ctx (h ++ [EvListPeers t]) = Some e ->
    loop_end s ctx t data st h (Fail e) (with_history st (h ++ [EvListPeers t]))
| end_published :
    Topic_ListPeers s h t <> [] ->
    loop_end s ctx t data st h
      (match Topic_Publish s (h ++ [EvListPeers t]) t data with
       | Some err => Fail err
       | None => Return tt
       end)
      (with_history st (h ++ [EvListPeers t; EvPublish t data])).

Definition is_FindPeersWithSubnet (e : Event) : bool :=
  match e with EvFindPeersWithSubnet _ => true | _ => false end.
Definition is_EncodeGossip (e : Event) : bool :=
  match e with EvEncodeGossip _ => true | _ => false end.
Definition is_Publish (e : Event) : bool :=
  match e with EvPublish _ _ => true | _ => false end.
Definition is_Join (e : Event) : bool :=
  match e with EvJoin _ => true | _ => false end.

(** How often a kind of call occurs in a history. *)
Definition count (kind : Event -> bool) (h : list Event) : nat :=
  length (List.filter kind h).

(** *** Message identifiers *)

(** A Go slice: the backing array from the slice's first element to its
    capacity, and the length. *)
Record slice : Type := { backing : bytes; slice_len : nat }.

(** [a[:]] of an array [a]: length and capacity are both [len(a)]. *)
Definition full_slice (a : bytes) : slice :=
  {| backing := a; slice_len := length a |}.

Definition elems (sl : slice) : bytes := take (slice_len sl) (backing sl).

(** [append(sl, xs...)]: in place when the capacity suffices, in a fresh
    array otherwise.  The second component is the backing array of [sl]
    afterwards. *)
Definition go_append (sl : slice) (xs : bytes) : slice * bytes :=
  let n := (slice_len sl + length xs)%nat in
  if (n <=? length (backing sl))%nat then
    let b := elems sl ++ xs ++ drop n (backing sl) in
    ({| backing := b; slice_len := n |}, b)
  else
    ({| backing := elems sl ++ xs; slice_len := n |}, backing sl).

(** [params.BeaconNetworkConfig()]: the two 4-byte domains. *)
Record NetworkConfig : Type := {
  MessageDomainInvalidSnappy : bytes;
  MessageDomainValidSnappy : bytes
}.

Section MessageID.
(** [snappy.Decode(nil, src)] and [hashutil.Hash]. *)
Variable snappy_Decode : bytes -> bytes + error.
Variable hashutil_Hash : bytes -> bytes.

(** [msgIDFunction] on [pmsg.Data], run against the shared network
    configuration: the identifier and the configuration afterwards. *)
Definition msgIDFunction (net : NetworkConfig) (data : bytes)
    : bytes * NetworkConfig :=
  match snappy_Decode data with
  | inr _ =>
      let '(combinedData, arr) :=
        go_append (full_slice (MessageDomainInvalidSnappy net)) data in
      let h := hashutil_Hash (elems combinedData) in
      (take 20 h,
       {| MessageDomainInvalidSnappy := arr;
          MessageDomainValidSnappy := MessageDomainValidSnappy net |})
  | inl decodedData =>
      let '(combinedData, arr) :=
        go_append (full_slice (MessageDomainValidSnappy net)) decodedData in
      let h := hashutil_Hash (elems combinedData) in
      (take 20 h,
       {| MessageDomainInvalidSnappy := MessageDomainInvalidSnappy net;
          MessageDomainValidSnappy := arr |})
  end.

(** The identifier in the words of the specification. *)
Definition message_id_spec (net : NetworkConfig) (rawBytes : bytes) : bytes :=
  match snappy_Decode rawBytes with
  | inl decompressed =>
      take 20 (hashutil_Hash (MessageDomainValidSnappy net ++ decompressed))
  | inr _ =>
      take 20 (hashutil_Hash (MessageDomainInvalidSnappy net ++ rawBytes))
  end.
End MessageID.
End p2p.

(** ** Sample configurations and collaborators *)

Module samples.
Import initialsync.

(** The mainnet values: 32 slots per epoch, ten densely searched epochs. *)
Definition mainnet : Config :=
  {| SlotsPerEpoch := 32;
     MaxPeersToSync := 15;
     MinimumSyncPeers := 3;
     nonSkippedSlotsFullSearchEpochs := 10 |}.

(** Whether a range request asks for a slot. *)
Definition requested (req : BeaconBlocksByRangeRequest) (slot : Z) : bool :=
  (StartSlot req <=? slot) && (slot <? StartSlot req + Count req * Step req)
  && ((slot - StartSlot req) mod Step req =? 0).

(** A peer that answers every range request truthfully from a chain with
    blocks at the slots [chain] (ascending). *)
Definition honest (chain : list Z)
    : list Event -> BeaconBlocksByRangeRequest -> peer_ID ->
      list SignedBeaconBlock + error :=
  fun _ req _ => inl (map Build_SignedBeaconBlock (List.filter (requested req) chain)).

(** A registry in which [peers] all report [epoch]: the vote counts when
    there are at least [minPeers] of them and the epoch is ahead of ours. *)
Definition agreeing (peers : list peer_ID) (epoch : Z) (minPeers ours : Z)
    : Z * list peer_ID :=
  if (minPeers <=? Z.of_nat (length peers)) && (ours <? epoch)
  then (epoch, peers) else (ours, []).

(** The same registry asked for the best finalized epoch of at most
    [maxPeers] peers. *)
Definition finalized_by (peers : list peer_ID) (epoch : Z) (maxPeers ours : Z)
    : Z * list peer_ID :=
  if ours <? epoch then (epoch, take (Z.to_nat maxPeers) peers) else (ours, []).

Definition three_peers : list peer_ID := ["p1"; "p2"; "p3"]%string.

(** A fetcher among three honest peers that all report [target]; the peer
    filter keeps every peer and every random draw is [draw]. *)
Definition fetcher (m : syncMode) (head finalized target : Z) (chain : list Z)
    (draw : Z) : blocksFetcher :=
  {| mode := m;
     chain_HeadSlot := head;
     chain_FinalizedCheckpt_Epoch := finalized;
     Peers_BestFinalized := finalized_by three_peers target;
     Peers_BestNonFinalized := agreeing three_peers target;
     filterPeers := inl;
     requestBlocks := honest chain;
     rand_source := fun _ => draw |}.

(** Finalized epoch 2, target epoch 3 (slots 96 to 127), and the only
    block after slot 100 at slot 130. *)
Definition beyond_target : blocksFetcher :=
  fetcher modeStopOnFinalizedEpoch 70 2 3 [130] 0.

(** Target epoch 12 (slots 384 to 415) and the only block at slot 416. *)
Definition after_target : blocksFetcher :=
  fetcher modeStopOnFinalizedEpoch 0 0 12 [416] 0.

(** Target epoch 12 and peers that have no block at all. *)
Definition silent : blocksFetcher :=
  fetcher modeStopOnFinalizedEpoch 0 0 12 [] 0.

(** The scenario of the specification: head slot 100, target epoch 10,
    blocks at the slots 200 and 310 only. *)
Definition scenario : blocksFetcher :=
  fetcher modeNonConstrained 100 2 10 [200; 310] 0.

(** A node whose head (slot 400, epoch 12) is ahead of what its peers
    report (epoch 10). *)
Definition ahead : blocksFetcher :=
  fetcher modeNonConstrained 400 2 10 [] 0.
End samples.

Module p2p_samples.
Import p2p.

Definition mainnet : Config := {| SlotsPerEpoch := 32; SecondsPerSlot := 12 |}.

Definition digest : bytes := [Byte.x01; Byte.x02; Byte.x03; Byte.x04].

Definition att : Attestation := {| Data_Slot := 7; att_ssz := [Byte.x2a] |}.

Definition block_msg : Message :=
  {| TypeOf := "*eth.SignedBeaconBlock"; msg_ssz := [Byte.x0b] |}.

Definition stray_msg : Message :=
  {| TypeOf := "*eth.Unknown"; msg_ssz := [] |}.

Definition payload (obj : object) : bytes :=
  match obj with
  | obj_message m => msg_ssz m
  | obj_attestation a => att_ssz a
  end.

(** A network in which a search for subnet peers succeeds at attempt
    number [found_at] (counted from 0), a topic gets its first mesh peer
    after [peer_at] sleeps of the publish loop, joining a topic yields the
    handle 7, and the clock advances by the 100 milliseconds of each
    sleep. *)
Definition network (found_at peer_at : nat) : Collaborators :=
  {| forkDigest := fun _ => inl digest;
     GossipTypeMapping := {[ "*eth.SignedBeaconBlock"%string := "/eth2/%x/beacon_block"%string ]};
     Encoding_EncodeGossip := fun obj => inl (payload obj);
     Encoding_ProtocolSuffix := "/ssz_snappy";
     pubsub_Join := fun _ _ => inl 7%nat;
     Topic_Close := fun _ _ => None;
     Topic_ListPeers := fun h _ =>
       if (peer_at <=? count (fun e => match e with EvSleep _ => true | _ => false end) h)%nat
       then ["p1"%string] else [];
     Topic_Publish := fun _ _ _ => None;
     hasPeerWithSubnet := fun _ _ => false;
     FindPeersWithSubnet := fun h _ =>
       inl (found_at <=? count is_FindPeersWithSubnet h)%nat;
     Sprintf_topic := fun format _ => format;
     Sprintf_AttestationSubnetTopicFormat := fun _ _ => "/eth2/01020304/beacon_attestation_3";
     time_Now := fun h =>
       100000000 * Z.of_nat (count (fun e => match e with EvSleep _ => true | _ => false end) h) |}.

(** The same network before the genesis data are known: no fork digest. *)
Definition no_digest : Collaborators :=
  {| forkDigest := fun _ => inr (external 1);
     GossipTypeMapping := GossipTypeMapping (network 0 0);
     Encoding_EncodeGossip := Encoding_EncodeGossip (network 0 0);
     Encoding_ProtocolSuffix := Encoding_ProtocolSuffix (network 0 0);
     pubsub_Join := pubsub_Join (network 0 0);
     Topic_Close := Topic_Close (network 0 0);
     Topic_ListPeers := Topic_ListPeers (network 0 0);
     Topic_Publish := Topic_Publish (network 0 0);
     hasPeerWithSubnet := hasPeerWithSubnet (network 0 0);
     FindPeersWithSubnet := FindPeersWithSubnet (network 0 0);
     Sprintf_topic := Sprintf_topic (network 0 0);
     Sprintf_AttestationSubnetTopicFormat :=
       Sprintf_AttestationSubnetTopicFormat (network 0 0);
     time_Now := time_Now (network 0 0) |}.

Definition fresh : State := {| history := []; joinedTopics := ∅; started := [] |}.

(** A caller's context that is cancelled once the publish loop has slept
    [n] times. *)
Definition cancelled_after (n : nat) : Context :=
  {| ctx_Err := fun h =>
       if (n <=? count (fun e => match e with EvSleep _ => true | _ => false end) h)%nat
       then Some context_Canceled else None;
     ctx_Value := fun _ => None |}.

(** A toy decompression (a leading byte 1 marks a valid frame) and a toy
    32-byte hash (the input padded or cut to 32 bytes). *)
Definition toy_Decode (data : bytes) : bytes + error :=
  match data with
  | Byte.x01 :: rest => inl rest
  | _ => inr (errors_New "snappy: corrupt input")
  end.

Definition toy_Hash (data : bytes) : bytes :=
  take 32 (data ++ repeat Byte.x00 32).

Definition toy_net : NetworkConfig :=
  {| MessageDomainInvalidSnappy := [Byte.x00; Byte.x00; Byte.x00; Byte.x00];
     MessageDomainValidSnappy := [Byte.x01; Byte.x00; Byte.x00; Byte.x00] |}.
End p2p_samples.

(** ** Further definitions for the properties beyond the specification *)

Module initialsync_more.
Import initialsync.

(** The [i]-th request of the dense stage after [slot] (counted from 0):
    one whole epoch, slot by slot, from the peer whose turn it is. *)
Definition dense_request (cfg : Config) (peers : list peer_ID) (slot : Z) (i : nat)
    : Event :=
  EvRequestBlocks (nth (i mod length peers) peers EmptyString)
    {| StartSlot := slot + 1 + Z.of_nat i * SlotsPerEpoch cfg;
       Count := SlotsPerEpoch cfg;
       Step := 1 |}.

(** A run from the history [h] to the history [h'] with the result [r] only
    adds calls, and a block-range request that the peer answered with an
    error is the last call of the run and its error the result. *)
Definition fails_fast {A : Type} (f : blocksFetcher) (h : list Event)
    (r : outcome A) (h' : list Event) : Prop :=
  (exists evs, h' = h ++ evs) /\
  forall h1 pid req rest e,
    h' = h1 ++ EvRequestBlocks pid req :: rest ->
    (length h <= length h1)%nat ->
    requestBlocks f h1 req pid = inr e ->
    rest = [] /\ r = Fail e.


(** The history [h'] ends with a request whose answer has a block at the
    slot [n]. *)
Definition reported_by_last_request (f : blocksFetcher) (h' : list Event) (n : Z)
    : Prop :=
  exists h1 pid req blocks block,
    h' = h1 ++ [EvRequestBlocks pid req] /\
    requestBlocks f h1 req pid = inl blocks /\
    In block blocks /\ Block_Slot block = n.

(** The fetcher [g] with another peer filter. *)
Definition with_filter (g : blocksFetcher)
    (filter : list peer_ID -> list peer_ID + error) : blocksFetcher :=
  {| mode := mode g;
     chain_HeadSlot := chain_HeadSlot g;
     chain_FinalizedCheckpt_Epoch := chain_FinalizedCheckpt_Epoch g;
     Peers_BestFinalized := Peers_BestFinalized g;
     Peers_BestNonFinalized := Peers_BestNonFinalized g;
     filterPeers := filter;
     requestBlocks := requestBlocks g;
     rand_source := rand_source g |}.

(** The fetcher [g] among peers whose request number [n] (counted from 0
    over the whole history) fails with a stream error. *)
Definition failing_at (g : blocksFetcher) (n : nat) : blocksFetcher :=
  {| mode := mode g;
     chain_HeadSlot := chain_HeadSlot g;
     chain_FinalizedCheckpt_Epoch := chain_FinalizedCheckpt_Epoch g;
     Peers_BestFinalized := Peers_BestFinalized g;
     Peers_BestNonFinalized := Peers_BestNonFinalized g;
     filterPeers := filterPeers g;
     requestBlocks := fun h req pid =>
       if (length (List.filter
                     (fun e => match e with EvRequestBlocks _ _ => true | _ => false end) h)
           =? n)%nat
       then inr (external 7) else requestBlocks g h req pid;
     rand_source := rand_source g |}.
End initialsync_more.

Module p2p_more.
Import p2p.

(** [*pubsub.Subscription], known by its identity. *)
Definition Subscription : Type := nat.

Section Subscribe.
Variable s : Collaborators.
(** [s.awaitStateInitialized()] and [topicHandle.Subscribe(opts...)] are not
    among the sources: whatever they do to the service is left open. *)
Variable awaitStateInitialized : Eff State unit.
Variable Topic_Subscribe : Topic -> Eff State Subscription.

(** [SubscribeToTopic]. *)
Definition SubscribeToTopic (topic : string) : Eff State Subscription :=
  _ ← awaitStateInitialized;
  topicHandle ← JoinTopic s topic;
  Topic_Subscribe topicHandle.
End Subscribe.

(** The clock never runs backwards, and a sleep of 100 milliseconds takes
    at least that long (in nanoseconds). *)
Definition clock_advances (s : Collaborators) : Prop :=
  (forall h e, time_Now s h <= time_Now s (h ++ [e])) /\
  (forall h, time_Now s h + 100 * 1000000 <= time_Now s (h ++ [EvSleep 100])).

(** The context is done whenever the clock has reached [deadline]. *)
Definition expires_by (s : Collaborators) (ctx : Context) (deadline : Z) : Prop :=
  forall h, deadline <= time_Now s h -> ctx_Err ctx h <> None.

(** [time.Duration(2*SecondsPerSlot) * time.Second] of [Broadcast] and
    [time.Duration(1*SlotsPerEpoch*SecondsPerSlot) * time.Second] of
    [broadcastAttestation], in nanoseconds. *)
Definition twoSlots (cfg : Config) : Z :=
  U64.wrap_int (U64.to_int (U64.mul 2 (SecondsPerSlot cfg)) * time_Second).
Definition oneEpoch (cfg : Config) : Z :=
  U64.wrap_int
    (U64.to_int (U64.mul (U64.mul 1 (SlotsPerEpoch cfg)) (SecondsPerSlot cfg))
     * time_Second).

(** The history after [n] searches for peers of a subnet. *)
Definition searches (subnet : Z) (n : nat) : list Event :=
  repeat (EvFindPeersWithSubnet subnet) n.

(** The messages with which [Broadcast] wraps the errors it passes on. *)
Definition Broadcast_wrappers : list string :=
  ["could not retrieve fork digest"; "could not encode message";
   "could not publish message"]%string.

(** The collaborators [s] with another [pubsub.Join], [Close], encoder or
    known-peer answer. *)
Definition with_Join (s : Collaborators)
    (join : list Event -> string -> Topic + error) : Collaborators :=
  {| forkDigest := forkDigest s;
     GossipTypeMapping := GossipTypeMapping s;
     Encoding_EncodeGossip := Encoding_EncodeGossip s;
     Encoding_ProtocolSuffix := Encoding_ProtocolSuffix s;
     pubsub_Join := join;
     Topic_Close := Topic_Close s;
     Topic_ListPeers := Topic_ListPeers s;
     Topic_Publish := Topic_Publish s;
     hasPeerWithSubnet := hasPeerWithSubnet s;
     FindPeersWithSubnet := FindPeersWithSubnet s;
     Sprintf_topic := Sprintf_topic s;
     Sprintf_AttestationSubnetTopicFormat := Sprintf_AttestationSubnetTopicFormat s;
     time_Now := time_Now s |}.

Definition with_Close (s : Collaborators)
    (close : list Event -> Topic -> option error) : Collaborators :=
  {| forkDigest := forkDigest s;
     GossipTypeMapping := GossipTypeMapping s;
     Encoding_EncodeGossip := Encoding_EncodeGossip s;
     Encoding_ProtocolSuffix := Encoding_ProtocolSuffix s;
     pubsub_Join := pubsub_Join s;
     Topic_Close := close;
     Topic_ListPeers := Topic_ListPeers s;
     Topic_Publish := Topic_Publish s;
     hasPeerWithSubnet := hasPeerWithSubnet s;
     FindPeersWithSubnet := FindPeersWithSubnet s;
     Sprintf_topic := Sprintf_topic s;
     Sprintf_AttestationSubnetTopicFormat := Sprintf_AttestationSubnetTopicFormat s;
     time_Now := time_Now s |}.

Definition with_encoder (s : Collaborators)
    (encode : object -> bytes + error) : Collaborators :=
  {| forkDigest := forkDigest s;
     GossipTypeMapping := GossipTypeMapping s;
     Encoding_EncodeGossip := encode;
     Encoding_ProtocolSuffix := Encoding_ProtocolSuffix s;
     pubsub_Join := pubsub_Join s;
     Topic_Close := Topic_Close s;
     Topic_ListPeers := Topic_ListPeers s;
     Topic_Publish := Topic_Publish s;
     hasPeerWithSubnet := hasPeerWithSubnet s;
     FindPeersWithSubnet := FindPeersWithSubnet s;
     Sprintf_topic := Sprintf_topic s;
     Sprintf_AttestationSubnetTopicFormat := Sprintf_AttestationSubnetTopicFormat s;
     time_Now := time_Now s |}.

Definition with_hasPeer (s : Collaborators)
    (known : list Event -> Z -> bool) : Collaborators :=
  {| forkDigest := forkDigest s;
     GossipTypeMapping := GossipTypeMapping s;
     Encoding_EncodeGossip := Encoding_EncodeGossip s;
     Encoding_ProtocolSuffix := Encoding_ProtocolSuffix s;
     pubsub_Join := pubsub_Join s;
     Topic_Close := Topic_Close s;
     Topic_ListPeers := Topic_ListPeers s;
     Topic_Publish := Topic_Publish s;
     hasPeerWithSubnet := known;
     FindPeersWithSubnet := FindPeersWithSubnet s;
     Sprintf_topic := Sprintf_topic s;
     Sprintf_AttestationSubnetTopicFormat := Sprintf_AttestationSubnetTopicFormat s;
     time_Now := time_Now s |}.

(** A toy decompression with two framings: a leading byte 1 or 2 marks a
    valid frame of the bytes that follow. *)
Definition two_framings (data : bytes) : bytes + error :=
  match data with
  | Byte.x01 :: rest => inl rest
  | Byte.x02 :: rest => inl rest
  | _ => inr (errors_New "snappy: corrupt input")
  end.

(** A configuration with short slots: four slots of one second per epoch. *)
Definition quick : Config := {| SlotsPerEpoch := 4; SecondsPerSlot := 1 |}.

(** A state in which the topic ["a"] is joined with the handle 5. *)
Definition joined_a : State :=
  {| history := []; joinedTopics := {[ "a"%string := 5%nat ]}; started := [] |}.
End p2p_more.

(** * Properties *)

(** ** The effect monad *)

Section EffFacts.
Context {S A B : Type}.

Lemma bind_eq (m : Eff S A) (k : A -> Eff S B) (s : S) :
  (m ≫= k) s =
  match m s with
  | (Return a, s') => k a s'
  | (Fail e, s') => (Fail e, s')
  | (Panic, s') => (Panic, s')
  | (OutOfFuel, s') => (OutOfFuel, s')
  end.
Proof. reflexivity. Qed.

(** A sequence that returns went through a first step that returned. *)
Lemma bind_Return (m : Eff S A) (k : A -> Eff S B) (s s' : S) (b : B) :
  (m ≫= k) s = (Return b, s') ->
  exists a s1, m s = (Return a, s1) /\ k a s1 = (Return b, s').
Proof.
  rewrite bind_eq. destruct (m s) as [[a | e | |] s1]; try discriminate.
  intros H. exists a, s1. split; [reflexivity | exact H].
Qed.

(** Whatever a sequence does, its first step returned and the rest did it,
    or the first step did it on its own. *)
Lemma bind_cases (m : Eff S A) (k : A -> Eff S B) (s s' : S) (r : outcome B) :
  (m ≫= k) s = (r, s') ->
  (exists a s1, m s = (Return a, s1) /\ k a s1 = (r, s')) \/
  (forall a, m s <> (Return a, s')) /\
  ((exists e, m s = (Fail e, s') /\ r = Fail e) \/
   (m s = (Panic, s') /\ r = Panic) \/
   (m s = (OutOfFuel, s') /\ r = OutOfFuel)).
Proof.
  rewrite bind_eq. destruct (m s) as [[a | e | |] s1]; intros H.
  - left. eauto.
  - right. inversion H; subst. split; [discriminate | left; eauto].
  - right. inversion H; subst. split; [discriminate | right; left; eauto].
  - right. inversion H; subst. split; [discriminate | right; right; eauto].
Qed.
End EffFacts.

Lemma lift_Return {S A} (r : A + error) (s s' : S) (a : A) :
  lift r s = (Return a, s') -> r = inl a /\ s' = s.
Proof.
  destruct r as [a0 | e]; cbn; intros H; inversion H; subst; auto.
Qed.

Lemma lift_state {S A} (r : A + error) (s s' : S) (o : outcome A) :
  lift r s = (o, s') -> s' = s.
Proof. destruct r; cbn; intros H; inversion H; reflexivity. Qed.

(** ** Machine integers *)

Lemma wrap_small (x : Z) : U64.in_range x -> U64.wrap x = x.
Proof. unfold U64.in_range, U64.wrap. intros H. apply Z.mod_small. exact H. Qed.

Lemma wrap_in_range (x : Z) : U64.in_range (U64.wrap x).
Proof.
  unfold U64.in_range, U64.wrap. apply Z.mod_pos_bound. reflexivity.
Qed.

(** ** core/helpers *)

Lemma StartSlot_inl (spe epoch s : Z) :
  helpers.StartSlot spe epoch = inl s ->
  s = epoch * spe /\ s < U64.modulus.
Proof.
  unfold helpers.StartSlot.
  destruct (Z.ltb_spec (epoch * spe) U64.modulus) as [Hlt | Hge].
  - intros H. inversion H. subst. auto.
  - discriminate.
Qed.

(** The first slot of the epoch of a slot never overflows, lies at or below
    the slot and is a multiple of the epoch length. *)
Lemma StartSlot_SlotToEpoch (spe x : Z) :
  0 < spe -> U64.in_range x ->
  helpers.StartSlot spe (helpers.SlotToEpoch spe x) = inl (x / spe * spe) /\
  0 <= x / spe * spe <= x /\
  (x / spe * spe) mod spe = 0.
Proof.
  intros Hspe [Hx0 Hx1].
  assert (Hle : 0 <= x / spe * spe <= x).
  { pose proof (Z.mul_div_le x spe Hspe) as H1.
    pose proof (Z.div_pos x spe Hx0 Hspe) as H2. nia. }
  split; [| split; [exact Hle | apply Z.mod_mul; lia]].
  unfold helpers.StartSlot, helpers.SlotToEpoch, U64.div.
  destruct (Z.ltb_spec (x / spe * spe) U64.modulus) as [Hlt | Hge];
    [reflexivity | lia].
Qed.

(** ** Package initialsync *)

Module initialsync_facts.
Import initialsync.

Lemma firstSlotAbove_spec (slot : Z) (blocks : list SignedBeaconBlock) :
  firstSlotAbove slot blocks = 0 \/ slot < firstSlotAbove slot blocks.
Proof.
  induction blocks as [| b rest IH]; cbn; [left; reflexivity |].
  destruct (Z.ltb_spec slot (Block_Slot b)) as [Hlt | Hge]; [right; exact Hlt | exact IH].
Qed.

Section Fetcher.
Variable cfg : Config.
Variable f : blocksFetcher.

Abbreviation spe := (SlotsPerEpoch cfg).
Abbreviation K := (nonSkippedSlotsFullSearchEpochs cfg).

(** What one range request does: exactly one call is recorded, and a
    returned slot is 0 or above the reference slot. *)
Lemma fetch_cases (slot : Z) (pid : peer_ID) (start count step : Z)
    (h h' : list Event) (r : outcome Z) :
  fetch f slot pid start count step h = (r, h') ->
  h' = h ++ [EvRequestBlocks pid {| StartSlot := start; Count := count; Step := step |}] /\
  (forall n, r = Return n -> n = 0 \/ slot < n).
Proof.
  unfold fetch. rewrite !bind_eq. cbn.
  destruct (requestBlocks f h _ pid) as [blocks | e]; cbn; intros H;
    inversion H; subst; split; try reflexivity; intros n Hn; inversion Hn.
  apply firstSlotAbove_spec.
Qed.

Lemma peerAt_state (peers : list peer_ID) (pidInd : nat) (h h' : list Event)
    (r : outcome peer_ID) :
  peerAt peers pidInd h = (r, h') -> h' = h.
Proof.
  unfold peerAt. destruct (peers !! _); cbn; intros H; inversion H; reflexivity.
Qed.

(** A slot handed back by the dense stage is above the reference slot. *)
Lemma denseStage_Returned (fuel : nat) (peers : list peer_ID) (slot end_ : Z) :
  forall (ind : Z) (pidInd : nat) (h h' : list Event) (next : Z),
    denseStage cfg f fuel peers slot end_ ind pidInd h = (Return (Returned next), h') ->
    slot < next.
Proof.
  induction fuel as [| fuel IH]; intros ind pidInd h h' next; cbn;
    destruct (ind <? end_); try discriminate.
  rewrite bind_eq.
  destruct (peerAt peers pidInd h) as [[pid | | |] h1]; try discriminate.
  rewrite bind_eq.
  destruct (fetch f slot pid ind spe 1 h1) as [[n | | |] h2]; try discriminate.
  destruct (Z.ltb_spec slot n) as [Hlt | Hge].
  - cbn. intros H. inversion H. subst. exact Hlt.
  - apply IH.
Qed.

(** The sparse stage only lowers the upper bound, and only to a slot
    above the reference slot. *)
Lemma sparseStage_bound (fuel : nat) (peers : list peer_ID) (slot upperBoundSlot : Z) :
  forall (ind : Z) (pidInd : nat) (h h' : list Event) (ub : Z) (pidInd' : nat),
    sparseStage cfg f fuel peers slot upperBoundSlot ind pidInd h
      = (Return (ub, pidInd'), h') ->
    ub = upperBoundSlot \/ (slot < ub /\ ub <= upperBoundSlot).
Proof.
  induction fuel as [| fuel IH]; intros ind pidInd h h' ub pidInd'; cbn;
    destruct (ind <? upperBoundSlot); try discriminate.
  - cbn. intros H. inversion H. left. reflexivity.
  - rewrite bind_eq.
    destruct (rand_Intn f _ h) as [[r | | |] h1]; try discriminate.
    rewrite bind_eq.
    destruct (peerAt peers pidInd h1) as [[pid | | |] h2]; try discriminate.
    rewrite bind_eq.
    destruct (fetch f slot pid _ _ _ h2) as [[n | | |] h3]; try discriminate.
    destruct (Z.ltb_spec slot n) as [Hlt | Hge];
      destruct (Z.leb_spec n upperBoundSlot) as [Hle | Hgt]; cbn;
      try apply IH.
    intros H. inversion H. subst. right. split; assumption.
  - cbn. intros H. inversion H. left. reflexivity.
Qed.

(** A slot handed back by the exact stage is 0 or above the reference
    slot of that stage, is not below it, and is at most the first slot
    after the target epoch. *)
Lemma exactStage_Return (peers : list peer_ID) (targetEpoch slot upperBoundSlot : Z)
    (pidInd : nat) (h h' : list Event) (next : Z) :
  exactStage cfg f peers targetEpoch slot upperBoundSlot pidInd h = (Return next, h') ->
  exists s,
    helpers.StartSlot spe (U64.add targetEpoch 1) = inl s /\
    slot <= next <= s /\ (next = 0 \/ slot < next).
Proof.
  unfold exactStage. intros H.
  apply bind_Return in H as (ub & h1 & _ & H).
  apply bind_Return in H as (pid & h2 & _ & H).
  apply bind_Return in H as (n & h3 & Hfetch & H).
  apply bind_Return in H as (s & h4 & Hs & H).
  apply lift_Return in Hs as [Hs _].
  apply fetch_cases in Hfetch as [_ Hn].
  destruct (Z.ltb_spec n slot) as [Hlt | Hge]; [discriminate |].
  destruct (Z.ltb_spec s n) as [Hlt' | Hge']; [discriminate |].
  cbn in H. inversion H. subst. exists s. split; [exact Hs |].
  split; [lia | apply Hn; reflexivity].
Qed.

(** The upper bound that enters the exact stage is a [uint64]. *)
Lemma sparseStage_in_range (fuel : nat) (peers : list peer_ID)
    (slot upperBoundSlot ind : Z) (pidInd : nat) (h h' : list Event)
    (ub : Z) (pidInd' : nat) :
  0 <= slot -> U64.in_range upperBoundSlot ->
  sparseStage cfg f fuel peers slot upperBoundSlot ind pidInd h
    = (Return (ub, pidInd'), h') ->
  U64.in_range ub.
Proof.
  intros Hslot Hub H. apply sparseStage_bound in H as [-> | [H1 H2]];
    [exact Hub |].
  unfold U64.in_range in *. lia.
Qed.

(** The single calls are never cut short: only loops draw on the budget. *)
Lemma peerAt_ends (peers : list peer_ID) (pidInd : nat) (h : list Event) :
  fst (peerAt peers pidInd h) <> OutOfFuel.
Proof. unfold peerAt. destruct (peers !! _); discriminate. Qed.

Lemma fetch_ends (slot : Z) (pid : peer_ID) (start count step : Z) (h : list Event) :
  fst (fetch f slot pid start count step h) <> OutOfFuel.
Proof.
  unfold fetch. rewrite !bind_eq. cbn.
  destruct (requestBlocks f h _ pid); discriminate.
Qed.

Lemma rand_Intn_ends (n : Z) (h : list Event) :
  fst (rand_Intn f n h) <> OutOfFuel.
Proof. unfold rand_Intn. destruct (n <=? 0); discriminate. Qed.

(** The dense loop ends within its budget when the budget covers the
    window and the loop variable cannot wrap. *)
Lemma denseStage_ends (peers : list peer_ID) (slot end_ : Z) :
  0 < spe -> end_ + spe <= U64.modulus ->
  forall (fuel : nat) (ind : Z) (pidInd : nat) (h : list Event),
    0 <= ind -> end_ - ind <= Z.of_nat fuel * spe ->
    fst (denseStage cfg f fuel peers slot end_ ind pidInd h) <> OutOfFuel.
Proof.
  intros Hspe Hend. induction fuel as [| fuel IH]; intros ind pidInd h Hind Hfuel;
    cbn [denseStage]; destruct (Z.ltb_spec ind end_) as [Hlt | Hge];
    try (cbn; discriminate).
  { exfalso. lia. }
  rewrite bind_eq. pose proof (peerAt_ends peers pidInd h) as Hp.
  destruct (peerAt peers pidInd h) as [[pid | | |] h1];
    [| discriminate | discriminate | exfalso; apply Hp; reflexivity].
  rewrite bind_eq. pose proof (fetch_ends slot pid ind spe 1 h1) as Hf.
  destruct (fetch f slot pid ind spe 1 h1) as [[n | | |] h2];
    [| discriminate | discriminate | exfalso; apply Hf; reflexivity].
  destruct (slot <? n); [discriminate |].
  assert (Hadd : U64.add ind spe = ind + spe).
  { apply wrap_small. unfold U64.in_range. lia. }
  rewrite Hadd. apply IH; lia.
Qed.

(** So does the sparse loop, whose stride is positive from two slots per
    epoch on. *)
Lemma sparseStage_ends (peers : list peer_ID) (slot upperBoundSlot : Z) :
  2 <= spe -> spe * spe < U64.modulus ->
  upperBoundSlot + spe * spe <= U64.modulus ->
  forall (fuel : nat) (ind : Z) (pidInd : nat) (h : list Event),
    0 <= ind -> upperBoundSlot - ind <= Z.of_nat fuel ->
    fst (sparseStage cfg f fuel peers slot upperBoundSlot ind pidInd h) <> OutOfFuel.
Proof.
  intros Hspe Hsq Hub.
  assert (Hstride : U64.div (U64.mul spe spe) 2 = spe * spe / 2).
  { unfold U64.div, U64.mul. rewrite wrap_small; [reflexivity |].
    unfold U64.in_range. nia. }
  assert (Hpos : 1 <= spe * spe / 2 <= spe * spe).
  { split.
    - apply Z.div_le_lower_bound; nia.
    - apply Z.div_le_upper_bound; nia. }
  induction fuel as [| fuel IH]; intros ind pidInd h Hind Hfuel;
    cbn [sparseStage]; destruct (Z.ltb_spec ind upperBoundSlot) as [Hlt | Hge];
    try (cbn; discriminate).
  { exfalso. lia. }
  rewrite bind_eq. pose proof (rand_Intn_ends (U64.to_int spe) h) as Hr.
  destruct (rand_Intn f _ h) as [[r | | |] h1];
    [| discriminate | discriminate | exfalso; apply Hr; reflexivity].
  rewrite bind_eq. pose proof (peerAt_ends peers pidInd h1) as Hp.
  destruct (peerAt peers pidInd h1) as [[pid | | |] h2];
    [| discriminate | discriminate | exfalso; apply Hp; reflexivity].
  rewrite bind_eq.
  pose proof (fetch_ends slot pid (U64.add ind r) (U64.div spe 2) spe h2) as Hf.
  destruct (fetch f slot pid _ _ _ h2) as [[n | | |] h3];
    [| discriminate | discriminate | exfalso; apply Hf; reflexivity].
  destruct (_ && _); [discriminate |].
  rewrite Hstride.
  assert (Hadd : U64.add ind (spe * spe / 2) = ind + spe * spe / 2).
  { apply wrap_small. unfold U64.in_range. lia. }
  rewrite Hadd. apply IH; lia.
Qed.

(** With at least two slots per epoch and slots far from the end of the
    [uint64] range, a loop budget of the size of the search range is enough:
    [nonSkippedSlotAfter] returns a slot or an error, or panics on an
    ill-formed configuration, but is never cut short. *)
Lemma nonSkippedSlotAfter_ends (fuel : nat) (slot : Z) (h : list Event)
    (headEpoch targetEpoch : Z) (peers0 : list peer_ID) :
  2 <= spe -> 0 <= K -> 0 <= slot -> 0 <= targetEpoch ->
  slot + 1 + K * spe + spe * spe <= U64.modulus ->
  (targetEpoch + 1) * spe + spe * spe <= U64.modulus ->
  calculateHeadAndTargetEpochs cfg f = (headEpoch, targetEpoch, peers0) ->
  K <= Z.of_nat fuel -> (targetEpoch + 1) * spe <= Z.of_nat fuel ->
  fst (nonSkippedSlotAfter cfg f fuel slot h) <> OutOfFuel.
Proof.
  intros Hspe HK Hslot Hte Hwin Hsearch Hcalc HfuelK Hfuel.
  unfold nonSkippedSlotAfter. rewrite Hcalc.
  destruct (targetEpoch <=? headEpoch); [discriminate |].
  rewrite bind_eq. destruct (filterPeers f peers0) as [peers | e]; [| discriminate].
  cbn [lift mret Eff_ret eff_ret].
  destruct (length peers =? 0)%nat; [discriminate |].
  assert (HKs : U64.mul K spe = K * spe).
  { apply wrap_small. unfold U64.in_range. nia. }
  assert (Hstart : U64.add slot 1 = slot + 1).
  { apply wrap_small. unfold U64.in_range. nia. }
  assert (Hend : U64.add (slot + 1) (K * spe) = slot + 1 + K * spe).
  { apply wrap_small. unfold U64.in_range. nia. }
  assert (Hslot' : U64.add slot (K * spe) = slot + K * spe).
  { apply wrap_small. unfold U64.in_range. nia. }
  rewrite HKs, Hstart, Hend, Hslot'. rewrite bind_eq.
  pose proof (denseStage_ends peers slot (slot + 1 + K * spe) ltac:(lia) ltac:(nia)
                fuel (slot + 1) 0%nat h ltac:(lia) ltac:(nia)) as Hdense.
  destruct (denseStage cfg f fuel peers slot _ _ _ h) as [[[n | pidInd] | | |] h1];
    [discriminate | | discriminate | discriminate | exfalso; apply Hdense; reflexivity].
  rewrite bind_eq.
  assert (Hte1 : U64.add targetEpoch 1 = targetEpoch + 1).
  { apply wrap_small. unfold U64.in_range. nia. }
  rewrite Hte1.
  destruct (helpers.StartSlot spe (targetEpoch + 1)) as [ub0 | e] eqn:Hub0;
    [| discriminate].
  pose proof Hub0 as Hub0'. apply StartSlot_inl in Hub0' as [-> _].
  cbn [lift mret Eff_ret eff_ret]. rewrite bind_eq.
  assert (Hs1 : U64.add (slot + K * spe) 1 = slot + K * spe + 1).
  { apply wrap_small. unfold U64.in_range. nia. }
  rewrite Hs1.
  pose proof (sparseStage_ends peers (slot + K * spe) ((targetEpoch + 1) * spe)
                Hspe ltac:(nia) ltac:(lia) fuel (slot + K * spe + 1) pidInd h1
                ltac:(nia) ltac:(nia)) as Hsparse.
  destruct (sparseStage cfg f fuel peers _ _ _ pidInd h1) as [[[ub pidInd'] | | |] h2];
    [| discriminate | discriminate | exfalso; apply Hsparse; reflexivity].
  unfold exactStage. rewrite bind_eq.
  destruct (helpers.StartSlot spe (helpers.SlotToEpoch spe (backOff cfg ub)))
    as [ub' | e]; [| discriminate].
  cbn [lift mret Eff_ret eff_ret]. rewrite bind_eq.
  pose proof (peerAt_ends peers pidInd' h2) as Hp.
  destruct (peerAt peers pidInd' h2) as [[pid | | |] h4];
    [| discriminate | discriminate | exfalso; apply Hp; reflexivity].
  rewrite bind_eq.
  pose proof (fetch_ends (slot + K * spe) pid ub' (U64.mul spe 2) 1 h4) as Hf.
  destruct (fetch f _ pid _ _ _ h4) as [[n | | |] h5];
    [| discriminate | discriminate | exfalso; apply Hf; reflexivity].
  rewrite bind_eq, Hte1, Hub0. cbn [lift mret Eff_ret eff_ret].
  destruct (_ || _); discriminate.
Qed.

(** C3: when the computed target epoch is not ahead of the computed head
    epoch, [nonSkippedSlotAfter] fails with [errSlotIsTooHigh] for every
    slot, and the history of calls is unchanged: no block-range request
    (and no other call) was issued. *)
Theorem nonSkippedSlotAfter_slot_too_high (fuel : nat) (slot : Z) (h : list Event)
    (headEpoch targetEpoch : Z) (peers : list peer_ID) :
  calculateHeadAndTargetEpochs cfg f = (headEpoch, targetEpoch, peers) ->
  targetEpoch <= headEpoch ->
  nonSkippedSlotAfter cfg f fuel slot h = (Fail errSlotIsTooHigh, h).
Proof.
  intros Hcalc Hle. unfold nonSkippedSlotAfter. rewrite Hcalc.
  destruct (Z.leb_spec targetEpoch headEpoch) as [_ | Hgt]; [reflexivity | lia].
Qed.

(** C1, as the code has it: a slot that [nonSkippedSlotAfter] returns is
    above the reference slot, provided the dense window
    [slot + K * SlotsPerEpoch] does not overflow; it was either handed
    back by the dense stage, which checks no upper bound, or it passed
    the range check of the exact stage and is then at most the first
    slot after the target epoch, [StartSlot(targetEpoch + 1)]. *)
Theorem nonSkippedSlotAfter_bounds (fuel : nat) (slot : Z) (h h' : list Event)
    (next headEpoch targetEpoch : Z) (peers0 : list peer_ID) :
  0 <= slot -> 0 < K * spe -> slot + K * spe < U64.modulus ->
  calculateHeadAndTargetEpochs cfg f = (headEpoch, targetEpoch, peers0) ->
  nonSkippedSlotAfter cfg f fuel slot h = (Return next, h') ->
  slot < next /\
  ((exists peers,
      filterPeers f peers0 = inl peers /\
      denseStage cfg f fuel peers slot
        (U64.add (U64.add slot 1) (U64.mul K spe)) (U64.add slot 1) 0 h
        = (Return (Returned next), h')) \/
   (exists s,
      helpers.StartSlot spe (U64.add targetEpoch 1) = inl s /\
      slot + K * spe <= next <= s)).
Proof.
  intros Hslot HK Hsum Hcalc. unfold nonSkippedSlotAfter. rewrite Hcalc.
  destruct (targetEpoch <=? headEpoch); [discriminate |].
  intros H. apply bind_Return in H as (peers & h1 & Hfilter & H).
  apply lift_Return in Hfilter as [Hfilter ->].
  destruct (length peers =? 0)%nat; [discriminate |].
  apply bind_Return in H as ([n | pidInd] & h2 & Hdense & H).
  - cbn in H. inversion H. subst. split.
    + eapply denseStage_Returned. exact Hdense.
    + left. exists peers. split; [exact Hfilter | exact Hdense].
  - apply bind_Return in H as (ub0 & h3 & _ & H).
    apply bind_Return in H as ([ub pidInd'] & h4 & _ & H).
    apply exactStage_Return in H as (s & Hs & Hrange & _).
    assert (Hslot' : U64.add slot (U64.mul K spe) = slot + K * spe).
    { unfold U64.add, U64.mul. rewrite (wrap_small (K * spe)).
      - apply wrap_small. unfold U64.in_range. lia.
      - unfold U64.in_range. lia. }
    rewrite Hslot' in Hrange. split; [lia |].
    right. exists s. split; [exact Hs | exact Hrange].
Qed.

(** C2, as the code has it: outside the finalized mode
    [calculateHeadAndTargetEpochs] returns the epoch of the local head
    slot as head epoch and asks the registry for the best non-finalized
    epoch with a minimum of [MinimumSyncPeers] peers; the doubled
    minimum is what [bestNonFinalizedSlot] asks with. *)
Theorem calculateHeadAndTargetEpochs_stopOnHead :
  mode f = modeNonConstrained ->
  let headEpoch := helpers.SlotToEpoch spe (chain_HeadSlot f) in
  calculateHeadAndTargetEpochs cfg f =
    (headEpoch,
     fst (Peers_BestNonFinalized f (MinimumSyncPeers cfg) headEpoch),
     snd (Peers_BestNonFinalized f (MinimumSyncPeers cfg) headEpoch)) /\
  bestNonFinalizedSlot cfg f =
    U64.mul
      (fst (Peers_BestNonFinalized f (U64.wrap_int (MinimumSyncPeers cfg * 2)) headEpoch))
      spe.
Proof.
  intros Hmode headEpoch. unfold calculateHeadAndTargetEpochs, bestNonFinalizedSlot.
  rewrite Hmode. cbn. fold headEpoch.
  split.
  - destruct (Peers_BestNonFinalized f (MinimumSyncPeers cfg) headEpoch); reflexivity.
  - destruct (Peers_BestNonFinalized f _ headEpoch); reflexivity.
Qed.

(** C10: in the exact stage the epoch length is subtracted from the upper
    bound only when the bound is above it, so the difference is the
    integer difference and never wraps; the stage issues at most one
    request, for two epochs slot by slot, and its start slot is the
    backed-off bound rounded down to a multiple of the epoch length. *)
Theorem exactStage_backOff_aligned (peers : list peer_ID)
    (targetEpoch slot upperBoundSlot : Z) (pidInd : nat) (h h' : list Event)
    (r : outcome Z) :
  0 < spe -> U64.in_range upperBoundSlot ->
  exactStage cfg f peers targetEpoch slot upperBoundSlot pidInd h = (r, h') ->
  backOff cfg upperBoundSlot
    = (if spe <? upperBoundSlot then upperBoundSlot - spe else upperBoundSlot) /\
  0 <= backOff cfg upperBoundSlot <= upperBoundSlot /\
  (h' = h \/
   exists pid start,
     h' = h ++ [EvRequestBlocks pid
                  {| StartSlot := start; Count := U64.mul spe 2; Step := 1 |}] /\
     start = backOff cfg upperBoundSlot / spe * spe /\
     start mod spe = 0 /\
     0 <= start <= backOff cfg upperBoundSlot).
Proof.
  intros Hspe Hub Hrun.
  assert (Hback : backOff cfg upperBoundSlot
            = (if spe <? upperBoundSlot then upperBoundSlot - spe else upperBoundSlot)).
  { unfold backOff. destruct (Z.ltb_spec spe upperBoundSlot) as [Hlt | Hge];
      [| reflexivity].
    unfold U64.sub. apply wrap_small. unfold U64.in_range in *. lia. }
  assert (Hrange : 0 <= backOff cfg upperBoundSlot <= upperBoundSlot).
  { rewrite Hback. unfold U64.in_range in Hub.
    destruct (Z.ltb_spec spe upperBoundSlot); lia. }
  split; [exact Hback | split; [exact Hrange |]].
  assert (Hin : U64.in_range (backOff cfg upperBoundSlot)).
  { unfold U64.in_range in *. lia. }
  destruct (StartSlot_SlotToEpoch spe _ Hspe Hin) as (Hstart & Hle & Hmod).
  unfold exactStage in Hrun. rewrite Hstart in Hrun.
  rewrite bind_eq in Hrun. cbn [lift mret Eff_ret eff_ret] in Hrun.
  apply bind_cases in Hrun as [(pid & h1 & Hpeer & Hrun) | [_ Hstop]].
  - apply peerAt_state in Hpeer as ->.
    right. exists pid, (backOff cfg upperBoundSlot / spe * spe).
    split; [| split; [reflexivity | split; [exact Hmod | exact Hle]]].
    apply bind_cases in Hrun as [(n & h2 & Hfetch & Hrun) | [_ Hstop]].
    + apply fetch_cases in Hfetch as [-> _].
      apply bind_cases in Hrun as [(s & h3 & Hs & Hrun) | [_ Hstop]].
      * apply lift_state in Hs as ->.
        destruct (_ || _); cbn in Hrun; inversion Hrun; reflexivity.
      * destruct Hstop as [(e & Hs & _) | [[Hs _] | [Hs _]]];
          apply lift_state in Hs; exact Hs.
    + destruct Hstop as [(e & Hf & _) | [[Hf _] | [Hf _]]];
        apply fetch_cases in Hf as [-> _]; reflexivity.
  - left. destruct Hstop as [(e & Hp & _) | [[Hp _] | [Hp _]]];
      apply peerAt_state in Hp; exact Hp.
Qed.

(** How a run reaches the exact stage: past the dense and the sparse stage,
    [nonSkippedSlotAfter] is the exact stage, entered with an upper bound
    that is a [uint64]. *)
Lemma nonSkippedSlotAfter_exactStage (fuel : nat) (slot : Z) (h h1 h2 : list Event)
    (headEpoch targetEpoch ub0 ub : Z) (peers0 peers : list peer_ID)
    (pidInd pidInd' : nat) :
  0 < spe ->
  calculateHeadAndTargetEpochs cfg f = (headEpoch, targetEpoch, peers0) ->
  headEpoch < targetEpoch ->
  filterPeers f peers0 = inl peers -> peers <> [] ->
  denseStage cfg f fuel peers slot
    (U64.add (U64.add slot 1) (U64.mul K spe)) (U64.add slot 1) 0 h
    = (Return (Onward pidInd), h1) ->
  helpers.StartSlot spe (U64.add targetEpoch 1) = inl ub0 ->
  sparseStage cfg f fuel peers (U64.add slot (U64.mul K spe)) ub0
    (U64.add (U64.add slot (U64.mul K spe)) 1) pidInd h1
    = (Return (ub, pidInd'), h2) ->
  nonSkippedSlotAfter cfg f fuel slot h
    = exactStage cfg f peers targetEpoch (U64.add slot (U64.mul K spe)) ub pidInd' h2 /\
  U64.in_range ub.
Proof.
  intros Hspe Hcalc Hlt Hfilter Hpeers Hdense Hub0 Hsparse. split.
  - unfold nonSkippedSlotAfter. rewrite Hcalc.
    destruct (Z.leb_spec targetEpoch headEpoch) as [Hle | _]; [lia |].
    rewrite bind_eq, Hfilter. cbn [lift mret Eff_ret eff_ret].
    destruct peers as [| p ps]; [contradiction |]. cbn [length Nat.eqb].
    rewrite bind_eq, Hdense, bind_eq, Hub0. cbn [lift mret Eff_ret eff_ret].
    rewrite bind_eq, Hsparse. reflexivity.
  - eapply sparseStage_in_range; [| | exact Hsparse].
    + apply wrap_in_range.
    + apply StartSlot_inl in Hub0 as [-> Hlt0].
      pose proof (wrap_in_range (targetEpoch + 1)) as [H0 _].
      unfold U64.add. unfold U64.in_range. split; [nia | exact Hlt0].
Qed.
End Fetcher.

Import samples.

(** The scenario of the specification: from slot 100 the dense stage finds
    the block at slot 200 with its fourth request. *)
Example scenario_finds_200 :
  nonSkippedSlotAfter mainnet scenario 10 100 [] =
  (Return 200,
   [EvRequestBlocks "p1" {| StartSlot := 101; Count := 32; Step := 1 |};
    EvRequestBlocks "p2" {| StartSlot := 133; Count := 32; Step := 1 |};
    EvRequestBlocks "p3" {| StartSlot := 165; Count := 32; Step := 1 |};
    EvRequestBlocks "p1" {| StartSlot := 197; Count := 32; Step := 1 |}]).
Proof. vm_compute. reflexivity. Qed.

(** With peers that have no block, the loop budget is not what ends the
    search: the exact stage rejects the empty answer. *)
Example silent_peers_invalid_range :
  fst (nonSkippedSlotAfter mainnet silent 10 0 []) =
  Fail (errors_New "invalid range for non-skipped slot").
Proof. vm_compute. reflexivity. Qed.

Lemma nonSkippedSlotAfter_slot_too_high_witness :
  calculateHeadAndTargetEpochs mainnet ahead = (12, 12, []) /\ 12 <= 12 /\
  nonSkippedSlotAfter mainnet ahead 10 500 [] = (Fail errSlotIsTooHigh, []).
Proof.
  split; [reflexivity | split; [lia |]].
  apply (nonSkippedSlotAfter_slot_too_high mainnet ahead 10 500 [] 12 12 []);
    [reflexivity | lia].
Defined.

(** C1 as stated fails in three ways.  An honest dense answer lies beyond
    the target epoch (130 after epoch 3, whose last slot is 127); the exact
    stage accepts the first slot after the target epoch (416 after epoch
    12, whose last slot is 415); and when [slot + K * SlotsPerEpoch] wraps
    to 0, empty answers make the search return slot 0. *)
Lemma nonSkippedSlotAfter_bounds_counterexample :
  (calculateHeadAndTargetEpochs mainnet beyond_target = (2, 3, three_peers) /\
   fst (nonSkippedSlotAfter mainnet beyond_target 10 100 []) = Return 130 /\
   ~ 130 <= helpers.endOfEpoch (SlotsPerEpoch mainnet) 3) /\
  (calculateHeadAndTargetEpochs mainnet after_target = (0, 12, three_peers) /\
   fst (nonSkippedSlotAfter mainnet after_target 10 0 []) = Return 416 /\
   ~ 416 <= helpers.endOfEpoch (SlotsPerEpoch mainnet) 12) /\
  (fst (nonSkippedSlotAfter mainnet silent 10 (2 ^ 64 - 320) []) = Return 0 /\
   ~ 2 ^ 64 - 320 < 0).
Proof.
  repeat split; try (vm_compute; reflexivity);
    unfold helpers.endOfEpoch; cbn; lia.
Qed.

Lemma nonSkippedSlotAfter_bounds_witness :
  (0 <= 0 /\ 0 < 10 * 32 /\ 0 + 10 * 32 < U64.modulus) /\
  0 < 416 /\
  ((exists peers,
      filterPeers after_target three_peers = inl peers /\
      denseStage mainnet after_target 10 peers 0
        (U64.add (U64.add 0 1) (U64.mul 10 32)) (U64.add 0 1) 0 []
        = (Return (Returned 416),
           snd (nonSkippedSlotAfter mainnet after_target 10 0 []))) \/
   (exists s,
      helpers.StartSlot 32 (U64.add 12 1) = inl s /\ 0 + 10 * 32 <= 416 <= s)).
Proof.
  split; [vm_compute; repeat split; congruence |].
  apply (nonSkippedSlotAfter_bounds mainnet after_target 10 0 []
           (snd (nonSkippedSlotAfter mainnet after_target 10 0 []))
           416 0 12 three_peers);
    [lia | reflexivity | reflexivity | reflexivity | vm_compute; reflexivity].
Defined.

(** C2 as stated fails: with [MinimumSyncPeers = 3] and three peers that
    report epoch 10, the registry asked with 3 names epoch 10 and the three
    peers, asked with 6 it names no target beyond the head epoch 3. *)
Lemma calculateHeadAndTargetEpochs_counterexample :
  mode scenario = modeNonConstrained /\
  calculateHeadAndTargetEpochs mainnet scenario = (3, 10, three_peers) /\
  Peers_BestNonFinalized scenario (2 * MinimumSyncPeers mainnet)
    (helpers.SlotToEpoch (SlotsPerEpoch mainnet) (chain_HeadSlot scenario)) = (3, []) /\
  calculateHeadAndTargetEpochs mainnet scenario <>
    (helpers.SlotToEpoch (SlotsPerEpoch mainnet) (chain_HeadSlot scenario),
     fst (Peers_BestNonFinalized scenario (2 * MinimumSyncPeers mainnet)
            (helpers.SlotToEpoch (SlotsPerEpoch mainnet) (chain_HeadSlot scenario))),
     snd (Peers_BestNonFinalized scenario (2 * MinimumSyncPeers mainnet)
            (helpers.SlotToEpoch (SlotsPerEpoch mainnet) (chain_HeadSlot scenario)))).
Proof.
  repeat split; try reflexivity. vm_compute. intros H. discriminate H.
Qed.

Lemma calculateHeadAndTargetEpochs_stopOnHead_witness :
  mode scenario = modeNonConstrained /\
  calculateHeadAndTargetEpochs mainnet scenario = (3, 10, three_peers) /\
  bestNonFinalizedSlot mainnet scenario = 96.
Proof.
  split; [reflexivity |].
  exact (calculateHeadAndTargetEpochs_stopOnHead mainnet scenario eq_refl).
Defined.

(** At or below one epoch the bound is left as it is, and the two-epoch
    request then starts at slot 0. *)
Example backOff_at_most_one_epoch :
  backOff mainnet 32 = 32 /\ backOff mainnet 20 = 20 /\ backOff mainnet 33 = 1 /\
  snd (exactStage mainnet silent three_peers 12 0 20 0 [])
    = [EvRequestBlocks "p1" {| StartSlot := 0; Count := 64; Step := 1 |}].
Proof. vm_compute. repeat split; reflexivity. Qed.

Lemma exactStage_backOff_aligned_witness :
  (0 < 32 /\ U64.in_range 416) /\
  backOff mainnet 416 = 384 /\
  0 <= backOff mainnet 416 <= 416 /\
  ([EvRequestBlocks "p3" {| StartSlot := 384; Count := 64; Step := 1 |}] = [] \/
   exists pid start,
     [EvRequestBlocks "p3" {| StartSlot := 384; Count := 64; Step := 1 |}]
       = [] ++ [EvRequestBlocks pid
                  {| StartSlot := start; Count := U64.mul 32 2; Step := 1 |}] /\
     start = backOff mainnet 416 / 32 * 32 /\
     start mod 32 = 0 /\
     0 <= start <= backOff mainnet 416).
Proof.
  split; [split; [lia | unfold U64.in_range; vm_compute; split; congruence] |].
  apply (exactStage_backOff_aligned mainnet after_target three_peers 12 320 416 2 []
           [EvRequestBlocks "p3" {| StartSlot := 384; Count := 64; Step := 1 |}]
           (Return 416));
    [reflexivity | unfold U64.in_range; vm_compute; split; congruence
    | vm_compute; reflexivity].
Defined.
End initialsync_facts.

(** ** Package p2p *)

Module p2p_facts.
Import p2p.

(** Unfold the monad of the service down to state passing. *)
Ltac eff_unfold :=
  unfold mbind, mret, Eff_bind, Eff_ret, eff_bind, eff_ret, past, emit, go,
    set_joinedTopics, gets, modify, lift, fail, wrapping; cbn.

Lemma with_history_id (st : State) : with_history st (history st) = st.
Proof. destruct st. reflexivity. Qed.

Lemma count_app (kind : Event -> bool) (h1 h2 : list Event) :
  count kind (h1 ++ h2) = (count kind h1 + count kind h2)%nat.
Proof. unfold count. rewrite List.filter_app. apply length_app. Qed.

(** The rounds of the publish loop call neither the encoder, nor the
    subnet search, nor [Publish]. *)
Lemma count_polls (kind : Event -> bool) (t : Topic) (n : nat) :
  kind (EvListPeers t) = false -> kind (EvSleep 100) = false ->
  count kind (polls t n) = 0%nat.
Proof.
  intros H1 H2. induction n as [| n IH]; [reflexivity |].
  unfold count in *. cbn. rewrite H1, H2. exact IH.
Qed.

Section Service.
Variable cfg : Config.
Variable s : Collaborators.

(** One round of the loop, taken when no peer is listed and the context
    is not done. *)
Lemma awaitPeerAndPublish_round (fuel : nat) (ctx : Context) (t : Topic)
    (data : bytes) (st : State) :
  idle s ctx t (history st) ->
  awaitPeerAndPublish s (S fuel) ctx t data st =
  awaitPeerAndPublish s fuel ctx t data (with_history st (history st ++ poll t)).
Proof.
  intros [Hnone Hctx]. cbn [awaitPeerAndPublish]. eff_unfold.
  rewrite Hnone. cbn. rewrite Hctx. cbn. unfold with_history, poll.
  rewrite <- app_assoc. reflexivity.
Qed.

(** [n] such rounds in a row. *)
Lemma awaitPeerAndPublish_rounds (ctx : Context) (t : Topic) (data : bytes) :
  forall (n fuel : nat) (st : State),
    (forall k, (k < n)%nat -> idle s ctx t (history st ++ polls t k)) ->
    awaitPeerAndPublish s (n + fuel) ctx t data st =
    awaitPeerAndPublish s fuel ctx t data
      (with_history st (history st ++ polls t n)).
Proof.
  induction n as [| n IH]; intros fuel st Hidle.
  - cbn. rewrite app_nil_r, with_history_id. reflexivity.
  - change (S n + fuel)%nat with (S (n + fuel)).
    rewrite awaitPeerAndPublish_round.
    + rewrite IH.
      * cbn [with_history history joinedTopics started polls].
        rewrite <- app_assoc. reflexivity.
      * intros k Hk. cbn [with_history history]. rewrite <- app_assoc.
        apply (Hidle (S k)). lia.
    + specialize (Hidle 0%nat ltac:(lia)). cbn in Hidle.
      rewrite app_nil_r in Hidle. exact Hidle.
Qed.

(** The round that ends the loop: a peer is listed and the message is
    published, or none is listed and the context is done. *)
Lemma awaitPeerAndPublish_last (fuel : nat) (ctx : Context) (t : Topic)
    (data : bytes) (st : State) :
  awaitPeerAndPublish s (S fuel) ctx t data st =
  match Topic_ListPeers s (history st) t with
  | _ :: _ =>
      (match Topic_Publish s (history st ++ [EvListPeers t]) t data with
       | Some err => Fail err
       | None => Return tt
       end,
       with_history st (history st ++ [EvListPeers t; EvPublish t data]))
  | [] =>
      match ctx_Err ctx (history st ++ [EvListPeers t]) with
      | Some err => (Fail err, with_history st (history st ++ [EvListPeers t]))
      | None =>
          awaitPeerAndPublish s fuel ctx t data
            (with_history st (history st ++ poll t))
      end
  end.
Proof.
  cbn [awaitPeerAndPublish]. eff_unfold.
  destruct (Topic_ListPeers s (history st) t) as [| p ps]; cbn.
  - destruct (ctx_Err ctx (history st ++ [EvListPeers t])); cbn;
      unfold with_history, poll; rewrite <- ?app_assoc; reflexivity.
  - unfold with_history. rewrite <- app_assoc.
    destruct (Topic_Publish s _ t data); reflexivity.
Qed.

(** Every run of the loop is a number of idle rounds followed by one of
    the three endings; the budget ends it only when it is used up. *)
Lemma awaitPeerAndPublish_shape (ctx : Context) (t : Topic) (data : bytes) :
  forall (fuel : nat) (st st' : State) (r : outcome unit),
    awaitPeerAndPublish s fuel ctx t data st = (r, st') ->
    exists n,
      (n <= fuel)%nat /\
      (forall k, (k < n)%nat -> idle s ctx t (history st ++ polls t k)) /\
      loop_end s ctx t data st (history st ++ polls t n) r st' /\
      (r = OutOfFuel -> n = fuel).
Proof.
  induction fuel as [| fuel IH]; intros st st' r.
  - cbn. intros H. injection H as <- <-. exists 0%nat.
    split; [lia | split; [intros k Hk; lia | split; [| reflexivity]]].
    cbn. rewrite app_nil_r.
    pose proof (end_budget s ctx t data st (history st)) as Hend.
    rewrite with_history_id in Hend. exact Hend.
  - rewrite awaitPeerAndPublish_last.
    destruct (Topic_ListPeers s (history st) t) as [| p ps] eqn:Hpeers.
    + destruct (ctx_Err ctx (history st ++ [EvListPeers t])) as [e |] eqn:Hctx.
      * intros H. injection H as <- <-. exists 0%nat.
        split; [lia | split; [intros k Hk; lia | split; [| discriminate]]].
        cbn. rewrite app_nil_r. constructor; assumption.
      * intros H. apply IH in H as (n & Hn & Hidle & Hend & Hfuel).
        cbn [with_history history] in Hidle, Hend.
        exists (S n). split; [lia | split; [| split]].
        -- intros [| k] Hk.
           ++ cbn. rewrite app_nil_r. split; assumption.
           ++ cbn [polls]. rewrite app_assoc. apply Hidle. lia.
        -- cbn [polls]. rewrite app_assoc.
           destruct Hend as [| e He1 He2 | Hp].
           ++ exact (end_budget s ctx t data st _).
           ++ exact (end_cancelled s ctx t data st _ e He1 He2).
           ++ exact (end_published s ctx t data st _ Hp).
        -- intros Hr. f_equal. apply Hfuel. exact Hr.
    + intros H. injection H as <- <-. exists 0%nat.
      split; [lia | split; [intros k Hk; lia | split]].
      * cbn. rewrite app_nil_r. constructor. rewrite Hpeers. discriminate.
      * destruct (Topic_Publish s _ t data); discriminate.
Qed.

(** The three ways a call of [JoinTopic] goes: the topic is in the map
    and nothing else happens; it is not and [pubsub.Join] yields a handle,
    which is stored; it is not and [pubsub.Join] fails, which leaves the
    map as it was. *)
Lemma JoinTopic_cases (topic : string) (st st' : State) (r : outcome Topic) :
  JoinTopic s topic st = (r, st') ->
  (exists t, joinedTopics st !! topic = Some t /\ r = Return t /\ st' = st) \/
  (joinedTopics st !! topic = None /\
   ((exists t,
       pubsub_Join s (history st) topic = inl t /\ r = Return t /\
       st' = {| history := history st ++ [EvJoin topic];
                joinedTopics := <[topic := t]> (joinedTopics st);
                started := started st |}) \/
    (exists e,
       pubsub_Join s (history st) topic = inr e /\ r = Fail e /\
       st' = with_history st (history st ++ [EvJoin topic])))).
Proof.
  unfold JoinTopic. eff_unfold.
  destruct (joinedTopics st !! topic) as [t |] eqn:Hlook; cbn.
  - rewrite Hlook. cbn. intros H. inversion H. left. eauto.
  - destruct (pubsub_Join s (history st) topic) as [t | e]; cbn.
    + rewrite lookup_insert_eq. cbn. intros H. inversion H.
      right. split; [reflexivity |]. left. eauto.
    + intros H. inversion H. right. split; [reflexivity |]. right. eauto.
Qed.

(** C7: when a call of [JoinTopic] has returned a handle, the next call
    for the same topic returns that handle and changes nothing: the map
    and the history are as before, so [pubsub.Join] was not called
    again. *)
Theorem JoinTopic_idempotent (topic : string) (st st1 : State) (t : Topic) :
  JoinTopic s topic st = (Return t, st1) ->
  JoinTopic s topic st1 = (Return t, st1) /\
  count is_Join (history (snd (JoinTopic s topic st1))) = count is_Join (history st1).
Proof.
  intros H.
  assert (Hlook : joinedTopics st1 !! topic = Some t).
  { apply JoinTopic_cases in H
      as [(t' & Hlook & Hr & ->) | [Hnone [(t' & _ & Hr & ->) | (e & _ & Hr & _)]]].
    - inversion Hr. subst. exact Hlook.
    - inversion Hr. subst. cbn. apply lookup_insert_eq.
    - discriminate Hr. }
  assert (Hrun : JoinTopic s topic st1 = (Return t, st1)).
  { unfold JoinTopic. eff_unfold. rewrite Hlook. cbn. rewrite Hlook.
    reflexivity. }
  split; [exact Hrun |]. rewrite Hrun. reflexivity.
Qed.

(** C8: with a fork digest at hand, [Broadcast] of a message whose type
    is not in [GossipTypeMapping] returns [ErrMessageNotMapped] and
    leaves the state as it was: nothing was encoded, joined or
    published. *)
Theorem Broadcast_not_mapped (fuel : nat) (ctx : Context) (msg : Message)
    (st : State) (digest : bytes) :
  forkDigest s (history st) = inl digest ->
  GossipTypeMapping s !! TypeOf msg = None ->
  Broadcast cfg s fuel ctx msg st = (Fail ErrMessageNotMapped, st).
Proof.
  intros Hdigest Hmap. unfold Broadcast. rewrite bind_eq. cbn.
  rewrite bind_eq. unfold wrapping. rewrite Hdigest. cbn. rewrite Hmap.
  reflexivity.
Qed.

(** The body of the goroutine never ends in an error: what the subnet
    search and the publish report is logged and dropped. *)
Lemma broadcastAttestation_no_error (fuel : nat) (ctx : Context) (subnet : Z)
    (att : Attestation) (digest : bytes) (st : State) :
  forall e, fst (broadcastAttestation cfg s fuel ctx subnet att digest st) <> Fail e.
Proof.
  intros e. unfold broadcastAttestation.
  rewrite bind_eq. cbn [past gets]. rewrite bind_eq. cbn [emit modify].
  rewrite bind_eq.
  match goal with |- context [match ?m ?st0 with _ => _ end] =>
    assert (Hm : forall e', fst (m st0) <> Fail e'); [| destruct (m st0) as [[o | e' | |] st1] ]
  end.
  - intros e'. destruct (negb _); [| discriminate].
    unfold logged. destruct (discoverSubnetPeer _ _ _ _ _) as [[| | |] ?]; discriminate.
  - rewrite bind_eq. unfold logged at 1.
    destruct (broadcastObject _ _ _ _ _ _) as [[| | |] ?]; discriminate.
  - exfalso. apply (Hm e'). reflexivity.
  - discriminate.
  - discriminate.
Qed.

(** C9: [BroadcastAttestation] fails at once, with the wrapped error and
    an unchanged state (no goroutine, no call), when the fork digest
    cannot be had; otherwise it returns nil having only started the
    goroutine.  Its result is fixed before the goroutine runs, and the
    goroutine itself never ends in an error. *)
Theorem BroadcastAttestation_result (ctx : Context) (subnet : Z) (att : Attestation)
    (st : State) :
  BroadcastAttestation s ctx subnet att st =
    match forkDigest s (history st) with
    | inr e => (Fail (errors_Wrap e "could not retrieve fork digest"), st)
    | inl digest =>
        (Return tt,
         {| history := history st;
            joinedTopics := joinedTopics st;
            started := started st ++
              [{| go_ctx := ctx; go_subnet := subnet; go_att := att;
                  go_forkDigest := digest |}] |})
    end /\
  forall (fuel : nat) (g : goroutine) (st' : State) (e : error),
    fst (run_goroutine cfg s fuel g st') <> Fail e.
Proof.
  split.
  - unfold BroadcastAttestation. rewrite bind_eq. cbn. rewrite bind_eq.
    unfold wrapping. destruct (forkDigest s (history st)); reflexivity.
  - intros fuel g st' e. apply broadcastAttestation_no_error.
Qed.

(** [JoinTopic] calls nothing but [pubsub.Join]. *)
Lemma JoinTopic_count (kind : Event -> bool) (topic : string) (st st' : State)
    (r : outcome Topic) :
  kind (EvJoin topic) = false ->
  JoinTopic s topic st = (r, st') ->
  count kind (history st') = count kind (history st).
Proof.
  intros Hkind H.
  apply JoinTopic_cases in H
    as [(t & _ & _ & ->) | [_ [(t & _ & _ & ->) | (e & _ & _ & ->)]]];
    [reflexivity | |]; cbn [history with_history]; rewrite count_app;
    unfold count at 2; cbn; rewrite Hkind; cbn; lia.
Qed.

Lemma PublishToTopic_joined (fuel : nat) (ctx : Context) (topic : string)
    (data : bytes) (st st1 : State) (t : Topic) :
  JoinTopic s topic st = (Return t, st1) ->
  PublishToTopic s fuel ctx topic data st = awaitPeerAndPublish s fuel ctx t data st1.
Proof. intros H. unfold PublishToTopic. rewrite bind_eq, H. reflexivity. Qed.

(** The calls of one kind that a finished loop has added. *)
Lemma loop_end_count (kind : Event -> bool) (ctx : Context) (t : Topic)
    (data : bytes) (st st' : State) (n : nat) (r : outcome unit) :
  kind (EvListPeers t) = false -> kind (EvSleep 100) = false ->
  loop_end s ctx t data st (history st ++ polls t n) r st' ->
  count kind (history st') =
  (count kind (history st) +
   if kind (EvPublish t data)
      && (0 <? length (Topic_ListPeers s (history st ++ polls t n) t))%nat
   then match r with OutOfFuel => 0 | _ => 1 end else 0)%nat.
Proof.
  intros H1 H2 Hend.
  inversion Hend as [Hr Hst | e Hpeers Hctx Hr Hst | Hpeers Hr Hst]; subst st';
    cbn [with_history history];
    rewrite ?count_app, (count_polls kind t n H1 H2).
  - destruct (_ && _); lia.
  - rewrite Hpeers. cbn [length Nat.ltb Nat.leb]. rewrite andb_false_r.
    unfold count at 2. cbn. rewrite H1. cbn. lia.
  - unfold count at 2. cbn [List.filter]. rewrite H1.
    destruct (Topic_ListPeers s (history st ++ polls t n) t) as [| p ps];
      [contradiction |].
    cbn [length Nat.ltb Nat.leb]. rewrite andb_true_r.
    destruct (kind (EvPublish t data)),
             (Topic_Publish s ((history st ++ polls t n) ++ [EvListPeers t]) t data);
      cbn; lia.
Qed.

(** When the topic cannot be joined, [PublishToTopic] returns the error of
    [pubsub.Join] and has called nothing else. *)
Lemma PublishToTopic_join_fails (fuel : nat) (ctx : Context) (topic : string)
    (data : bytes) (st : State) (e : error) :
  joinedTopics st !! topic = None ->
  pubsub_Join s (history st) topic = inr e ->
  PublishToTopic s fuel ctx topic data st =
    (Fail e, with_history st (history st ++ [EvJoin topic])).
Proof.
  intros Hlook Hjoin. unfold PublishToTopic, JoinTopic. eff_unfold.
  rewrite Hlook. cbn. rewrite Hjoin. reflexivity.
Qed.

(** When the first peer is listed in round [n], every budget above [n]
    makes the loop hand the message to [Publish] and return its answer. *)
Lemma awaitPeerAndPublish_publishes (ctx : Context) (t : Topic) (data : bytes)
    (st : State) (n fuel : nat) :
  (forall k, (k < n)%nat -> idle s ctx t (history st ++ polls t k)) ->
  Topic_ListPeers s (history st ++ polls t n) t <> [] ->
  (n < fuel)%nat ->
  awaitPeerAndPublish s fuel ctx t data st =
    (match Topic_Publish s ((history st ++ polls t n) ++ [EvListPeers t]) t data with
     | Some err => Fail err
     | None => Return tt
     end,
     with_history st ((history st ++ polls t n) ++ [EvListPeers t; EvPublish t data])).
Proof.
  intros Hidle Hpeers Hfuel.
  replace fuel with (n + S (fuel - S n))%nat by lia.
  rewrite (awaitPeerAndPublish_rounds ctx t data n _ st Hidle).
  rewrite awaitPeerAndPublish_last. cbn [with_history history].
  destruct (Topic_ListPeers s (history st ++ polls t n) t); [contradiction | reflexivity].
Qed.

(** C5: once the topic is joined, every run of [PublishToTopic] is a
    number of rounds in which no peer is listed, the context is not done
    and the loop sleeps 100 milliseconds, followed by its last round; the
    message is handed to [Publish] in the last round only, and only when
    that round lists a peer.  When no peer is listed up to a round in
    which the context is done, every budget above that number of rounds
    makes the call return the error of the context, and the history has
    no [Publish] that was not there before. *)
Theorem PublishToTopic_waits_for_peer (ctx : Context) (topic : string)
    (data : bytes) (st st1 : State) (t : Topic) :
  JoinTopic s topic st = (Return t, st1) ->
  (forall (fuel : nat) (r : outcome unit) (st' : State),
     PublishToTopic s fuel ctx topic data st = (r, st') ->
     exists n,
       (n <= fuel)%nat /\
       (forall k, (k < n)%nat -> idle s ctx t (history st1 ++ polls t k)) /\
       loop_end s ctx t data st1 (history st1 ++ polls t n) r st' /\
       (r = OutOfFuel -> n = fuel) /\
       (count is_Publish (history st') = count is_Publish (history st) \/
        count is_Publish (history st') = S (count is_Publish (history st)) /\
        Topic_ListPeers s (history st1 ++ polls t n) t <> [])) /\
  (forall (n : nat) (e : error),
     (forall k, (k < n)%nat -> idle s ctx t (history st1 ++ polls t k)) ->
     Topic_ListPeers s (history st1 ++ polls t n) t = [] ->
     ctx_Err ctx ((history st1 ++ polls t n) ++ [EvListPeers t]) = Some e ->
     forall fuel, (n < fuel)%nat ->
       PublishToTopic s fuel ctx topic data st =
         (Fail e,
          with_history st1 ((history st1 ++ polls t n) ++ [EvListPeers t])) /\
       count is_Publish ((history st1 ++ polls t n) ++ [EvListPeers t])
         = count is_Publish (history st)).
Proof.
  intros Hjoin.
  pose proof (JoinTopic_count is_Publish topic st st1 _ eq_refl Hjoin) as Hcount.
  split.
  - intros fuel r st' Hrun.
    rewrite (PublishToTopic_joined _ _ _ _ _ _ _ Hjoin) in Hrun.
    apply awaitPeerAndPublish_shape in Hrun as (n & Hn & Hidle & Hend & Hfuel).
    exists n. repeat (split; [assumption |]).
    pose proof (loop_end_count is_Publish ctx t data st1 st' n r eq_refl eq_refl Hend)
      as Hc.
    cbn [is_Publish andb] in Hc. rewrite Hcount in Hc.
    destruct (Topic_ListPeers s (history st1 ++ polls t n) t) as [| p ps].
    + left. cbn in Hc. lia.
    + cbn in Hc. destruct r; [right | right | right | left]; (split || idtac);
        try discriminate; lia.
  - intros n e Hidle Hpeers Hctx fuel Hfuel.
    rewrite (PublishToTopic_joined _ _ _ _ _ _ _ Hjoin).
    replace fuel with (n + S (fuel - S n))%nat by lia.
    rewrite (awaitPeerAndPublish_rounds ctx t data n _ st1 Hidle).
    rewrite awaitPeerAndPublish_last. cbn [with_history history].
    rewrite Hpeers, Hctx. split; [reflexivity |].
    rewrite !count_app, (count_polls is_Publish t n eq_refl eq_refl), Hcount.
    unfold count at 2. cbn. lia.
Qed.

Lemma wrapping_state {A : Type} (msg : string) (m : Eff State A) (st st' : State)
    (r : outcome A) :
  wrapping msg m st = (r, st') -> exists r0, m st = (r0, st').
Proof.
  unfold wrapping. destruct (m st) as [[a | e | |] st0]; intros H;
    injection H as <- <-; eauto.
Qed.

Lemma logged_state {A : Type} (m : Eff State A) (st st' : State)
    (r : outcome (option error)) :
  logged m st = (r, st') -> exists r0, m st = (r0, st').
Proof.
  unfold logged. destruct (m st) as [[a | e | |] st0]; intros H;
    injection H as <- <-; eauto.
Qed.

(** The subnet search calls [FindPeersWithSubnet] at most [remaining]
    times and nothing else, and it always ends. *)
Lemma discoverSubnetPeer_trace (ctx : Context) (subnet : Z) :
  forall (remaining : nat) (st st' : State) (r : outcome unit),
    discoverSubnetPeer s remaining ctx subnet st = (r, st') ->
    exists n,
      (n <= remaining)%nat /\
      st' = with_history st
              (history st ++ repeat (EvFindPeersWithSubnet subnet) n) /\
      (r = Return tt \/ exists e, r = Fail e).
Proof.
  induction remaining as [| remaining IH]; intros st st' r; cbn [discoverSubnetPeer].
  - eff_unfold. intros H. injection H as <- <-. exists 0%nat.
    cbn. rewrite app_nil_r, with_history_id. eauto.
  - rewrite bind_eq. cbn [past gets].
    destruct (ctx_Err ctx (history st)) as [e |].
    + eff_unfold. intros H. injection H as <- <-. exists 0%nat.
      cbn. rewrite app_nil_r, with_history_id. split; [lia | eauto].
    + rewrite bind_eq. cbn [emit modify]. rewrite bind_eq.
      destruct (FindPeersWithSubnet s (history st) subnet) as [[|] | e]; cbn [lift].
      * eff_unfold. intros H. injection H as <- <-. exists 1%nat.
        split; [lia | split; [reflexivity | eauto]].
      * change (mret false (A := bool)) with (eff_ret (S := State) false).
        unfold eff_ret. intros H. apply IH in H as (n & Hn & -> & Hr).
        exists (S n). split; [lia | split; [| exact Hr]].
        cbn. rewrite <- app_assoc. reflexivity.
      * eff_unfold. intros H. injection H as <- <-. exists 1%nat.
        split; [lia | split; [reflexivity | eauto]].
Qed.

Lemma count_repeat_FindPeers (subnet : Z) (n : nat) :
  count is_FindPeersWithSubnet (repeat (EvFindPeersWithSubnet subnet) n) = n /\
  count is_EncodeGossip (repeat (EvFindPeersWithSubnet subnet) n) = 0%nat /\
  count is_Publish (repeat (EvFindPeersWithSubnet subnet) n) = 0%nat.
Proof.
  unfold count. induction n as [| n (IH1 & IH2 & IH3)]; cbn; [auto |].
  rewrite IH1. auto.
Qed.

(** What [PublishToTopic] adds to the history: no call of the encoder or
    of the subnet search, and at most one [Publish]. *)
Lemma PublishToTopic_counts (fuel : nat) (ctx : Context) (topic : string)
    (data : bytes) (st st' : State) (r : outcome unit) :
  PublishToTopic s fuel ctx topic data st = (r, st') ->
  count is_EncodeGossip (history st') = count is_EncodeGossip (history st) /\
  count is_FindPeersWithSubnet (history st')
    = count is_FindPeersWithSubnet (history st) /\
  (count is_Publish (history st') <= S (count is_Publish (history st)))%nat /\
  (r = Return tt -> count is_Publish (history st') = S (count is_Publish (history st))).
Proof.
  intros Hrun.
  destruct (JoinTopic s topic st) as [rj st1] eqn:Hjoin.
  pose proof (JoinTopic_count is_EncodeGossip _ _ _ _ eq_refl Hjoin) as HjE.
  pose proof (JoinTopic_count is_FindPeersWithSubnet _ _ _ _ eq_refl Hjoin) as HjF.
  pose proof (JoinTopic_count is_Publish _ _ _ _ eq_refl Hjoin) as HjP.
  destruct rj as [t | e | |].
  - rewrite (PublishToTopic_joined _ _ _ _ _ _ _ Hjoin) in Hrun.
    apply awaitPeerAndPublish_shape in Hrun as (n & _ & _ & Hend & _).
    pose proof (loop_end_count is_EncodeGossip ctx t data st1 st' n r
                  eq_refl eq_refl Hend) as HE.
    pose proof (loop_end_count is_FindPeersWithSubnet ctx t data st1 st' n r
                  eq_refl eq_refl Hend) as HF.
    pose proof (loop_end_count is_Publish ctx t data st1 st' n r
                  eq_refl eq_refl Hend) as HP.
    cbn [is_EncodeGossip is_FindPeersWithSubnet is_Publish andb] in HE, HF, HP.
    assert (Hret : r = Return tt ->
              (0 <? length (Topic_ListPeers s (history st1 ++ polls t n) t))%nat = true).
    { intros ->. inversion Hend as [| | Hpeers Hr Hst].
      destruct (Topic_ListPeers s (history st1 ++ polls t n) t);
        [contradiction | reflexivity]. }
    repeat split; try (destruct (0 <? length _)%nat, r; lia).
    intros Hr. rewrite (Hret Hr) in HP. subst r. lia.
  - unfold PublishToTopic in Hrun. rewrite bind_eq, Hjoin in Hrun.
    injection Hrun as <- <-. repeat split; try lia. discriminate.
  - unfold PublishToTopic in Hrun. rewrite bind_eq, Hjoin in Hrun.
    injection Hrun as <- <-. repeat split; try lia. discriminate.
  - unfold PublishToTopic in Hrun. rewrite bind_eq, Hjoin in Hrun.
    injection Hrun as <- <-. repeat split; try lia. discriminate.
Qed.

(** One call of [broadcastObject] calls the encoder exactly once, first,
    and [Publish] at most once. *)
Lemma broadcastObject_counts (fuel : nat) (ctx : Context) (obj : object)
    (topic : string) (st st' : State) (r : outcome unit) :
  broadcastObject s fuel ctx obj topic st = (r, st') ->
  (exists evs, history st' = history st ++ EvEncodeGossip obj :: evs) /\
  count is_EncodeGossip (history st') = S (count is_EncodeGossip (history st)) /\
  count is_FindPeersWithSubnet (history st')
    = count is_FindPeersWithSubnet (history st) /\
  (count is_Publish (history st') <= S (count is_Publish (history st)))%nat /\
  (r = Return tt -> count is_Publish (history st') = S (count is_Publish (history st))).
Proof.
  unfold broadcastObject. rewrite bind_eq. cbn [emit modify]. rewrite bind_eq.
  set (st0 := {| history := history st ++ [EvEncodeGossip obj];
                 joinedTopics := joinedTopics st; started := started st |}).
  assert (HE : count is_EncodeGossip (history st0)
               = S (count is_EncodeGossip (history st))).
  { cbn [st0 history]. rewrite count_app. unfold count at 2. cbn. lia. }
  assert (HF : count is_FindPeersWithSubnet (history st0)
               = count is_FindPeersWithSubnet (history st)).
  { cbn [st0 history]. rewrite count_app. unfold count at 2. cbn. lia. }
  assert (HP : count is_Publish (history st0) = count is_Publish (history st)).
  { cbn [st0 history]. rewrite count_app. unfold count at 2. cbn. lia. }
  destruct (Encoding_EncodeGossip s obj) as [buf | e].
  - cbn [lift wrapping mret Eff_ret eff_ret]. intros Hw.
    apply wrapping_state in Hw as Hrun. destruct Hrun as (r0 & Hrun).
    pose proof Hrun as Hshape.
    assert (Hr0 : r = Return tt -> r0 = Return tt).
    { intros ->. unfold wrapping in Hw. rewrite Hrun in Hw.
      destruct r0 as [[] | | |]; try discriminate Hw. reflexivity. }
    apply PublishToTopic_counts in Hrun as (H1 & H2 & H3 & H4).
    split; [| repeat split; try lia; intros Hr; specialize (H4 (Hr0 Hr)); lia].
    unfold PublishToTopic in Hshape. rewrite bind_eq in Hshape.
    destruct (JoinTopic s _ st0) as [rj st1] eqn:Hjoin.
    assert (Hpre : exists evs, history st1 = history st0 ++ evs).
    { apply JoinTopic_cases in Hjoin
        as [(t & _ & _ & ->) | [_ [(t & _ & _ & ->) | (e & _ & _ & ->)]]].
      - exists []. rewrite app_nil_r. reflexivity.
      - eexists. reflexivity.
      - eexists. reflexivity. }
    destruct Hpre as (evs1 & Hpre).
    assert (Hpost : exists evs, history st' = history st1 ++ evs).
    { destruct rj as [t | e | |];
        try (injection Hshape as _ <-; exists []; rewrite app_nil_r; reflexivity).
      apply awaitPeerAndPublish_shape in Hshape as (n & _ & _ & Hend & _).
      inversion Hend; subst; cbn [with_history history];
        rewrite <- ?app_assoc; eexists; reflexivity. }
    destruct Hpost as (evs2 & Hpost).
    exists (evs1 ++ evs2). rewrite Hpost, Hpre. cbn [st0 history].
    rewrite <- !app_assoc. reflexivity.
  - cbn [lift wrapping fail]. intros H. injection H as <- <-.
    split; [exists []; reflexivity | repeat split; try lia; discriminate].
Qed.

(** C4: when no peer is known on the subnet, the goroutine calls
    [FindPeersWithSubnet] at most [maxSubnetDiscoveryAttempts] = 3 times
    and nothing else while it searches; whatever the search gave, it then
    calls [broadcastObject] exactly once: the encoder is called once,
    after the search, and [Publish] at most once, exactly once when
    [broadcastObject] returns nil. *)
Theorem broadcastAttestation_discovery_bounded (fuel : nat) (ctx : Context)
    (subnet : Z) (att : Attestation) (digest : bytes) (st st' : State)
    (r : outcome unit) :
  hasPeerWithSubnet s (history st) subnet = false ->
  broadcastAttestation cfg s fuel ctx subnet att digest st = (r, st') ->
  exists (n : nat) (ctx' : Context) (r1 : outcome unit),
    (n <= maxSubnetDiscoveryAttempts)%nat /\
    maxSubnetDiscoveryAttempts = 3%nat /\
    broadcastObject s fuel ctx' (obj_attestation att)
      (attestationToTopic s subnet digest)
      (with_history st
         (history st ++ EvHasPeerWithSubnet subnet
            :: repeat (EvFindPeersWithSubnet subnet) n))
      = (r1, st') /\
    count is_FindPeersWithSubnet (history st')
      = (count is_FindPeersWithSubnet (history st) + n)%nat /\
    count is_EncodeGossip (history st') = S (count is_EncodeGossip (history st)) /\
    (count is_Publish (history st') <= S (count is_Publish (history st)))%nat /\
    (r1 = Return tt ->
     count is_Publish (history st') = S (count is_Publish (history st))).
Proof.
  intros HnoPeer. unfold broadcastAttestation.
  rewrite bind_eq. cbn [past gets]. rewrite bind_eq. cbn [emit modify].
  rewrite HnoPeer. cbn [negb]. rewrite bind_eq.
  set (st0 := {| history := history st ++ [EvHasPeerWithSubnet subnet];
                 joinedTopics := joinedTopics st; started := started st |}).
  destruct (logged (discoverSubnetPeer s maxSubnetDiscoveryAttempts _ subnet) st0)
    as [rd st1] eqn:Hdisc.
  apply logged_state in Hdisc as Hd. destruct Hd as (rd0 & Hd).
  apply discoverSubnetPeer_trace in Hd as (n & Hn & Hst1 & Hrd0).
  assert (Hrd : exists o, rd = Return o).
  { unfold logged in Hdisc.
    destruct (discoverSubnetPeer s _ _ subnet st0) as [[[] | e | |] st2] eqn:Hrun;
      injection Hdisc as <- _; eauto;
      apply discoverSubnetPeer_trace in Hrun as (_ & _ & _ & [Hr | [e Hr]]);
      discriminate Hr. }
  destruct Hrd as (o & ->). rewrite bind_eq.
  destruct (logged (broadcastObject s fuel _ _ _) st1) as [rb st2] eqn:Hpub.
  intros Hrun.
  assert (Hst2 : st2 = st').
  { destruct rb; cbn in Hrun; injection Hrun as _ <-; reflexivity. }
  subst st2. clear Hrun.
  apply logged_state in Hpub as (r1 & Hpub).
  assert (Hst1' : st1 = with_history st
            (history st ++ EvHasPeerWithSubnet subnet
               :: repeat (EvFindPeersWithSubnet subnet) n)).
  { rewrite Hst1. unfold with_history. cbn [st0 history joinedTopics started].
    rewrite <- app_assoc. reflexivity. }
  eexists n, _, r1. split; [exact Hn |]. split; [reflexivity |].
  rewrite <- Hst1'. split; [exact Hpub |].
  apply broadcastObject_counts in Hpub as (_ & HE & HF & HP & HR).
  destruct (count_repeat_FindPeers subnet n) as (C1 & C2 & C3).
  assert (HhF : count is_FindPeersWithSubnet (history st1)
                = (count is_FindPeersWithSubnet (history st) + n)%nat).
  { rewrite Hst1'. cbn [with_history history].
    rewrite count_app. change (EvHasPeerWithSubnet subnet :: ?l)
      with ([EvHasPeerWithSubnet subnet] ++ l).
    rewrite count_app, C1. unfold count at 2. cbn. lia. }
  assert (HhE : count is_EncodeGossip (history st1)
                = count is_EncodeGossip (history st)).
  { rewrite Hst1'. cbn [with_history history].
    rewrite count_app. change (EvHasPeerWithSubnet subnet :: ?l)
      with ([EvHasPeerWithSubnet subnet] ++ l).
    rewrite count_app, C2. unfold count at 2. cbn. lia. }
  assert (HhP : count is_Publish (history st1) = count is_Publish (history st)).
  { rewrite Hst1'. cbn [with_history history].
    rewrite count_app. change (EvHasPeerWithSubnet subnet :: ?l)
      with ([EvHasPeerWithSubnet subnet] ++ l).
    rewrite count_app, C3. unfold count at 2. cbn. lia. }
  repeat split; try lia. intros Hr. specialize (HR Hr). lia.
Qed.
End Service.

Section MessageID.
Variable snappy_Decode : bytes -> bytes + error.
Variable hashutil_Hash : bytes -> bytes.

(** Appending to the full slice of an array yields the array followed by
    the new bytes and leaves the array as it was. *)
Lemma go_append_full_slice (a xs : bytes) :
  elems (fst (go_append (full_slice a) xs)) = a ++ xs /\
  snd (go_append (full_slice a) xs) = a.
Proof.
  unfold go_append, full_slice, elems. cbn.
  destruct (Nat.leb_spec (length a + length xs) (length a)) as [Hle | Hgt]; cbn.
  - assert (Hxs : xs = []) by (destruct xs; [reflexivity | cbn in Hle; lia]).
    subst xs. cbn. rewrite Nat.add_0_r, firstn_all, skipn_all. cbn.
    rewrite !app_nil_r. split; [apply firstn_all | reflexivity].
  - split; [| reflexivity].
    rewrite firstn_all. rewrite <- length_app. apply firstn_all.
Qed.

(** C6: [msgIDFunction] is total and leaves the network configuration
    untouched; its result is the identifier of the specification, the
    first 20 bytes of the hash of the valid domain followed by the
    decompressed data when decompression succeeds and of the invalid
    domain followed by the raw data when it fails.  With a 32-byte hash
    the identifier has 20 bytes, and a second call on the same bytes
    yields the same identifier. *)
Theorem msgIDFunction_spec (net : NetworkConfig) (data : bytes) :
  (forall x, length (hashutil_Hash x) = 32%nat) ->
  msgIDFunction snappy_Decode hashutil_Hash net data
    = (message_id_spec snappy_Decode hashutil_Hash net data, net) /\
  length (fst (msgIDFunction snappy_Decode hashutil_Hash net data)) = 20%nat /\
  msgIDFunction snappy_Decode hashutil_Hash
    (snd (msgIDFunction snappy_Decode hashutil_Hash net data)) data
    = msgIDFunction snappy_Decode hashutil_Hash net data.
Proof.
  intros Hlen.
  assert (Heq : msgIDFunction snappy_Decode hashutil_Hash net data
            = (message_id_spec snappy_Decode hashutil_Hash net data, net)).
  { unfold msgIDFunction, message_id_spec.
    destruct (snappy_Decode data) as [decoded | e].
    - pose proof (go_append_full_slice (MessageDomainValidSnappy net) decoded)
        as [H1 H2].
      destruct (go_append _ decoded) as [combined arr]. cbn in H1, H2.
      rewrite H1, H2. destruct net; reflexivity.
    - pose proof (go_append_full_slice (MessageDomainInvalidSnappy net) data)
        as [H1 H2].
      destruct (go_append _ data) as [combined arr]. cbn in H1, H2.
      rewrite H1, H2. destruct net; reflexivity. }
  rewrite Heq. cbn. split; [reflexivity | split; [| exact Heq]].
  unfold message_id_spec.
  destruct (snappy_Decode data); rewrite length_take, Hlen; reflexivity.
Qed.
End MessageID.

Import p2p_samples.

(** The scenario of the specification: no peer serves subnet 3, the second
    search finds one, and the attestation is published once. *)
Example attestation_scenario :
  let run := broadcastAttestation mainnet (network 1 0) 5 context_Background 3
               att digest fresh in
  fst run = Return tt /\
  history (snd run) =
    [EvHasPeerWithSubnet 3; EvFindPeersWithSubnet 3; EvFindPeersWithSubnet 3;
     EvEncodeGossip (obj_attestation att);
     EvJoin "/eth2/01020304/beacon_attestation_3/ssz_snappy";
     EvListPeers 7%nat; EvPublish 7%nat (att_ssz att)].
Proof. vm_compute. split; reflexivity. Qed.

(** When every search comes back empty the third one is the last, and the
    attestation is published all the same. *)
Example attestation_no_subnet_peer :
  history (snd (broadcastAttestation mainnet (network 9 0) 5 context_Background 3
                  att digest fresh)) =
    [EvHasPeerWithSubnet 3; EvFindPeersWithSubnet 3; EvFindPeersWithSubnet 3;
     EvFindPeersWithSubnet 3;
     EvEncodeGossip (obj_attestation att);
     EvJoin "/eth2/01020304/beacon_attestation_3/ssz_snappy";
     EvListPeers 7%nat; EvPublish 7%nat (att_ssz att)].
Proof. vm_compute. reflexivity. Qed.

Lemma broadcastAttestation_discovery_bounded_witness :
  let st' := snd (broadcastAttestation mainnet (network 1 0) 5 context_Background 3
                    att digest fresh) in
  hasPeerWithSubnet (network 1 0) (history fresh) 3 = false /\
  exists (n : nat) (ctx' : Context) (r1 : outcome unit),
    (n <= maxSubnetDiscoveryAttempts)%nat /\
    maxSubnetDiscoveryAttempts = 3%nat /\
    broadcastObject (network 1 0) 5 ctx' (obj_attestation att)
      (attestationToTopic (network 1 0) 3 digest)
      (with_history fresh
         (history fresh ++ EvHasPeerWithSubnet 3
            :: repeat (EvFindPeersWithSubnet 3) n))
      = (r1, st') /\
    count is_FindPeersWithSubnet (history st')
      = (count is_FindPeersWithSubnet (history fresh) + n)%nat /\
    count is_EncodeGossip (history st') = S (count is_EncodeGossip (history fresh)) /\
    (count is_Publish (history st') <= S (count is_Publish (history fresh)))%nat /\
    (r1 = Return tt ->
     count is_Publish (history st') = S (count is_Publish (history fresh))).
Proof.
  intros st'. split; [reflexivity |].
  apply (broadcastAttestation_discovery_bounded mainnet (network 1 0) 5
           context_Background 3 att digest fresh st' (Return tt));
    [reflexivity | vm_compute; reflexivity].
Defined.

Lemma idle_until_cancelled :
  forall k, (k < 2)%nat ->
    idle (network 0 9) (cancelled_after 2) 7%nat
      (history (snd (JoinTopic (network 0 9) "t" fresh)) ++ polls 7%nat k).
Proof.
  intros [| [| k]] Hk; [| | lia]; split; vm_compute; reflexivity.
Defined.

(** The caller cancels after the second sleep and no peer has appeared:
    a budget of five rounds is more than enough for [PublishToTopic] to
    return [context.Canceled], and nothing was published. *)
Lemma PublishToTopic_waits_for_peer_witness :
  JoinTopic (network 0 9) "t" fresh
    = (Return 7%nat, snd (JoinTopic (network 0 9) "t" fresh)) /\
  fst (PublishToTopic (network 0 9) 5 (cancelled_after 2) "t" [] fresh)
    = Fail context_Canceled /\
  count is_Publish
    (history (snd (PublishToTopic (network 0 9) 5 (cancelled_after 2) "t" [] fresh)))
    = 0%nat.
Proof.
  assert (Hjoin : JoinTopic (network 0 9) "t" fresh
                  = (Return 7%nat, snd (JoinTopic (network 0 9) "t" fresh)))
    by reflexivity.
  split; [exact Hjoin |].
  destruct (PublishToTopic_waits_for_peer (network 0 9) (cancelled_after 2) "t" []
              fresh _ 7%nat Hjoin) as [_ Hcancel].
  destruct (Hcancel 2%nat context_Canceled idle_until_cancelled
              ltac:(vm_compute; reflexivity) ltac:(vm_compute; reflexivity)
              5%nat ltac:(lia)) as [Hrun Hcount].
  rewrite Hrun. split; [reflexivity | exact Hcount].
Defined.

Lemma JoinTopic_idempotent_witness :
  let st1 := snd (JoinTopic (network 0 0) "t" fresh) in
  JoinTopic (network 0 0) "t" fresh = (Return 7%nat, st1) /\
  JoinTopic (network 0 0) "t" st1 = (Return 7%nat, st1) /\
  count is_Join (history (snd (JoinTopic (network 0 0) "t" st1)))
    = count is_Join (history st1).
Proof.
  intros st1. split; [reflexivity |].
  apply (JoinTopic_idempotent (network 0 0) "t" fresh st1 7%nat). reflexivity.
Defined.

Lemma Broadcast_not_mapped_witness :
  forkDigest (network 0 0) (history fresh) = inl digest /\
  GossipTypeMapping (network 0 0) !! TypeOf stray_msg = None /\
  Broadcast mainnet (network 0 0) 5 context_Background stray_msg fresh
    = (Fail ErrMessageNotMapped, fresh).
Proof.
  split; [reflexivity | split; [vm_compute; reflexivity |]].
  apply (Broadcast_not_mapped mainnet (network 0 0) 5 context_Background stray_msg
           fresh digest); [reflexivity | vm_compute; reflexivity].
Defined.

(** A mapped message goes all the way to [Publish]. *)
Example Broadcast_block :
  let run := Broadcast mainnet (network 0 0) 5 context_Background block_msg fresh in
  fst run = Return tt /\
  history (snd run) =
    [EvEncodeGossip (obj_message block_msg);
     EvJoin "/eth2/%x/beacon_block/ssz_snappy";
     EvListPeers 7%nat; EvPublish 7%nat (msg_ssz block_msg)].
Proof. vm_compute. split; reflexivity. Qed.

(** Without a fork digest nothing is started; with one, the goroutine is. *)
Example BroadcastAttestation_no_digest :
  BroadcastAttestation no_digest context_Background 3 att fresh
    = (Fail (errors_Wrap (external 1) "could not retrieve fork digest"), fresh).
Proof. reflexivity. Qed.

Example BroadcastAttestation_started :
  let run := BroadcastAttestation (network 9 9) context_Background 3 att fresh in
  fst run = Return tt /\ history (snd run) = [] /\ length (started (snd run)) = 1%nat.
Proof. vm_compute. repeat split; reflexivity. Qed.

Lemma toy_Hash_length (x : bytes) : length (toy_Hash x) = 32%nat.
Proof.
  unfold toy_Hash. rewrite length_take, length_app, repeat_length. lia.
Defined.

Lemma msgIDFunction_spec_witness :
  let data := [Byte.x01; Byte.x05] in
  (forall x, length (toy_Hash x) = 32%nat) /\
  msgIDFunction toy_Decode toy_Hash toy_net data
    = (message_id_spec toy_Decode toy_Hash toy_net data, toy_net) /\
  length (fst (msgIDFunction toy_Decode toy_Hash toy_net data)) = 20%nat /\
  msgIDFunction toy_Decode toy_Hash
    (snd (msgIDFunction toy_Decode toy_Hash toy_net data)) data
    = msgIDFunction toy_Decode toy_Hash toy_net data.
Proof.
  intros data. split; [exact toy_Hash_length |].
  apply (msgIDFunction_spec toy_Decode toy_Hash toy_net data toy_Hash_length).
Defined.

(** Domain separation on the toy instance: a valid frame and the invalid
    payload that equals its decompressed bytes get different identifiers. *)
Example msgID_domains_differ :
  fst (msgIDFunction toy_Decode toy_Hash toy_net [Byte.x01; Byte.x05]) <>
  fst (msgIDFunction toy_Decode toy_Hash toy_net [Byte.x05]).
Proof. vm_compute. discriminate. Qed.
End p2p_facts.

(** * Properties beyond the specification *)

(** ** Package initialsync *)

Module initialsync_extra.
Import initialsync initialsync_facts initialsync_more.

(** Where a call that was added after [h] sits in [h ++ evs]. *)
Lemma added_call_split (h evs h1 rest : list Event) (x : Event) :
  h ++ evs = h1 ++ x :: rest -> (length h <= length h1)%nat ->
  exists pre, h1 = h ++ pre /\ evs = pre ++ x :: rest.
Proof.
  revert h1. induction h as [| a h IH]; intros h1 Heq Hlen.
  - exists h1. split; [reflexivity | exact Heq].
  - destruct h1 as [| b h1]; [cbn in Hlen; lia |].
    cbn in Heq. injection Heq as -> Heq. cbn in Hlen.
    destruct (IH h1 Heq ltac:(lia)) as (pre & -> & ->).
    exists pre. split; reflexivity.
Qed.

(** A call that sits before the end of [hm] in [hm ++ evs] is a call of [hm]. *)
Lemma earlier_call_split (h1 hm evs rest : list Event) (x : Event) :
  h1 ++ x :: rest = hm ++ evs -> (length h1 < length hm)%nat ->
  exists rest', hm = h1 ++ x :: rest'.
Proof.
  revert hm. induction h1 as [| a h1 IH]; intros hm Heq Hlen.
  - destruct hm as [| b hm]; [cbn in Hlen; lia |].
    cbn in Heq. injection Heq as -> _. exists hm. reflexivity.
  - destruct hm as [| b hm]; [cbn in Hlen; lia |].
    cbn in Heq. injection Heq as -> Heq. cbn in Hlen.
    destruct (IH hm Heq ltac:(lia)) as (rest' & ->).
    exists rest'. reflexivity.
Qed.

Section Fetcher.
Variable cfg : Config.
Variable f : blocksFetcher.

Abbreviation spe := (SlotsPerEpoch cfg).
Abbreviation K := (nonSkippedSlotsFullSearchEpochs cfg).

Lemma fails_fast_silent {A : Type} (h : list Event) (r : outcome A) :
  fails_fast f h r h.
Proof.
  split; [exists []; rewrite app_nil_r; reflexivity |].
  intros h1 pid req rest e Heq Hlen _. exfalso.
  apply (f_equal (@length Event)) in Heq. rewrite length_app in Heq. cbn in Heq. lia.
Qed.

Lemma fails_fast_bind {A B : Type} (m : Eff (list Event) A)
    (k : A -> Eff (list Event) B) (h : list Event) :
  fails_fast f h (fst (m h)) (snd (m h)) ->
  (forall a hm, m h = (Return a, hm) -> fails_fast f hm (fst (k a hm)) (snd (k a hm))) ->
  fails_fast f h (fst ((m ≫= k) h)) (snd ((m ≫= k) h)).
Proof.
  intros [[e1 He1] Hm] Hk. rewrite bind_eq.
  destruct (m h) as [[a | e0 | |] hm] eqn:Hrun; cbn [fst snd] in *.
  - destruct (Hk a hm eq_refl) as [[e2 He2] Hk'].
    split; [exists (e1 ++ e2); rewrite He2, He1, app_assoc; reflexivity |].
    intros h1 pid req rest e Heq Hlen Hreq.
    destruct (Nat.le_gt_cases (length hm) (length h1)) as [Hle | Hgt].
    + apply (Hk' h1 pid req rest e Heq Hle Hreq).
    + exfalso. rewrite He2 in Heq.
      destruct (earlier_call_split h1 hm e2 rest (EvRequestBlocks pid req)
                  (eq_sym Heq) Hgt) as (rest' & Hhm).
      destruct (Hm h1 pid req rest' e Hhm Hlen Hreq) as [_ Hr]. discriminate Hr.
  - split; [exists e1; exact He1 |].
    intros h1 pid req rest e Heq Hlen Hreq.
    destruct (Hm h1 pid req rest e Heq Hlen Hreq) as [-> Hr].
    split; [reflexivity |]. injection Hr as ->. reflexivity.
  - split; [exists e1; exact He1 |].
    intros h1 pid req rest e Heq Hlen Hreq.
    destruct (Hm h1 pid req rest e Heq Hlen Hreq) as [_ Hr]. discriminate Hr.
  - split; [exists e1; exact He1 |].
    intros h1 pid req rest e Heq Hlen Hreq.
    destruct (Hm h1 pid req rest e Heq Hlen Hreq) as [_ Hr]. discriminate Hr.
Qed.

Lemma fails_fast_lift {A : Type} (r : A + error) (h : list Event) :
  fails_fast f h (fst (lift r h)) (snd (lift r h)).
Proof. destruct r; apply fails_fast_silent. Qed.

Lemma fails_fast_peerAt (peers : list peer_ID) (pidInd : nat) (h : list Event) :
  fails_fast f h (fst (peerAt peers pidInd h)) (snd (peerAt peers pidInd h)).
Proof. unfold peerAt. destruct (peers !! _); apply fails_fast_silent. Qed.

Lemma fails_fast_rand_Intn (n : Z) (h : list Event) :
  fails_fast f h (fst (rand_Intn f n h)) (snd (rand_Intn f n h)).
Proof.
  unfold rand_Intn. destruct (n <=? 0); [apply fails_fast_silent |].
  rewrite !bind_eq. cbn. split; [eexists; reflexivity |].
  intros h1 pid req rest e Heq Hlen _. exfalso.
  destruct (added_call_split h [EvRandIntn n] h1 rest _ Heq Hlen) as (pre & _ & Hpre).
  destruct pre as [| x [| y pre]]; cbn in Hpre; discriminate Hpre.
Qed.

Lemma fails_fast_fetch (slot : Z) (pid : peer_ID) (start count step : Z)
    (h : list Event) :
  fails_fast f h (fst (fetch f slot pid start count step h))
    (snd (fetch f slot pid start count step h)).
Proof.
  destruct (fetch f slot pid start count step h) as [r h'] eqn:Hrun. cbn [fst snd].
  pose proof Hrun as Hcases. apply fetch_cases in Hcases as [-> _].
  split; [eexists; reflexivity |].
  intros h1 pid' req rest e Heq Hlen Hreq.
  destruct (added_call_split h _ h1 rest _ Heq Hlen) as (pre & -> & Hpre).
  destruct pre as [| x [| y pre]]; cbn in Hpre; try discriminate Hpre.
  inversion Hpre. subst. rewrite app_nil_r in Hreq.
  split; [reflexivity |].
  unfold fetch in Hrun. rewrite !bind_eq in Hrun. cbn in Hrun.
  rewrite Hreq in Hrun. cbn in Hrun. injection Hrun as <-. reflexivity.
Qed.

Lemma fails_fast_denseStage (peers : list peer_ID) (slot end_ : Z) :
  forall (fuel : nat) (ind : Z) (pidInd : nat) (h : list Event),
    fails_fast f h (fst (denseStage cfg f fuel peers slot end_ ind pidInd h))
      (snd (denseStage cfg f fuel peers slot end_ ind pidInd h)).
Proof.
  induction fuel as [| fuel IH]; intros ind pidInd h; cbn [denseStage];
    destruct (ind <? end_); try apply fails_fast_silent.
  apply fails_fast_bind; [apply fails_fast_peerAt |]. intros pid h1 _.
  apply fails_fast_bind; [apply fails_fast_fetch |]. intros n h2 _.
  destruct (slot <? n); [apply fails_fast_silent | apply IH].
Qed.

Lemma fails_fast_sparseStage (peers : list peer_ID) (slot upperBoundSlot : Z) :
  forall (fuel : nat) (ind : Z) (pidInd : nat) (h : list Event),
    fails_fast f h
      (fst (sparseStage cfg f fuel peers slot upperBoundSlot ind pidInd h))
      (snd (sparseStage cfg f fuel peers slot upperBoundSlot ind pidInd h)).
Proof.
  induction fuel as [| fuel IH]; intros ind pidInd h; cbn [sparseStage];
    destruct (ind <? upperBoundSlot); try apply fails_fast_silent.
  apply fails_fast_bind; [apply fails_fast_rand_Intn |]. intros r h1 _.
  apply fails_fast_bind; [apply fails_fast_peerAt |]. intros pid h2 _.
  apply fails_fast_bind; [apply fails_fast_fetch |]. intros n h3 _.
  destruct (_ && _); [apply fails_fast_silent | apply IH].
Qed.

Lemma fails_fast_exactStage (peers : list peer_ID) (targetEpoch slot upperBoundSlot : Z)
    (pidInd : nat) (h : list Event) :
  fails_fast f h
    (fst (exactStage cfg f peers targetEpoch slot upperBoundSlot pidInd h))
    (snd (exactStage cfg f peers targetEpoch slot upperBoundSlot pidInd h)).
Proof.
  unfold exactStage.
  apply fails_fast_bind; [apply fails_fast_lift |]. intros ub h1 _.
  apply fails_fast_bind; [apply fails_fast_peerAt |]. intros pid h2 _.
  apply fails_fast_bind; [apply fails_fast_fetch |]. intros n h3 _.
  apply fails_fast_bind; [apply fails_fast_lift |]. intros s0 h4 _.
  destruct (_ || _); apply fails_fast_silent.
Qed.

(** X2: [nonSkippedSlotAfter] does not retry.  In every run, a block-range
    request that the peer answered with an error is the last call of the
    run, and that error, unchanged, is what the function returns. *)
Theorem nonSkippedSlotAfter_fails_fast (fuel : nat) (slot : Z) (h h' h1 rest : list Event)
    (r : outcome Z) (pid : peer_ID) (req : BeaconBlocksByRangeRequest) (e : error) :
  nonSkippedSlotAfter cfg f fuel slot h = (r, h') ->
  h' = h1 ++ EvRequestBlocks pid req :: rest ->
  (length h <= length h1)%nat ->
  requestBlocks f h1 req pid = inr e ->
  rest = [] /\ r = Fail e.
Proof.
  intros Hrun.
  assert (Hff : fails_fast f h (fst (nonSkippedSlotAfter cfg f fuel slot h))
                  (snd (nonSkippedSlotAfter cfg f fuel slot h))).
  { unfold nonSkippedSlotAfter.
    destruct (calculateHeadAndTargetEpochs cfg f) as [[headEpoch targetEpoch] peers0].
    destruct (targetEpoch <=? headEpoch); [apply fails_fast_silent |].
    apply fails_fast_bind; [apply fails_fast_lift |]. intros peers h0 _.
    destruct (length peers =? 0)%nat; [apply fails_fast_silent |].
    apply fails_fast_bind; [apply fails_fast_denseStage |]. intros [n | pidInd] h2 _;
      [apply fails_fast_silent |].
    apply fails_fast_bind; [apply fails_fast_lift |]. intros ub0 h3 _.
    apply fails_fast_bind; [apply fails_fast_sparseStage |]. intros [ub pidInd'] h4 _.
    apply fails_fast_exactStage. }
  rewrite Hrun in Hff. destruct Hff as [_ Hff]. apply Hff.
Qed.

(** X1: with a target epoch ahead of the head epoch, [nonSkippedSlotAfter]
    gives up before any request when the peer filter leaves no peer
    ([errNoPeersAvailable]) or fails (the error of the filter, unchanged). *)
Theorem nonSkippedSlotAfter_no_peers (fuel : nat) (slot : Z) (h : list Event)
    (headEpoch targetEpoch : Z) (peers0 : list peer_ID) :
  calculateHeadAndTargetEpochs cfg f = (headEpoch, targetEpoch, peers0) ->
  headEpoch < targetEpoch ->
  (filterPeers f peers0 = inl [] ->
   nonSkippedSlotAfter cfg f fuel slot h = (Fail errNoPeersAvailable, h)) /\
  (forall e, filterPeers f peers0 = inr e ->
   nonSkippedSlotAfter cfg f fuel slot h = (Fail e, h)).
Proof.
  intros Hcalc Hlt. unfold nonSkippedSlotAfter. rewrite Hcalc.
  destruct (Z.leb_spec targetEpoch headEpoch) as [Hle | _]; [lia |].
  split.
  - intros ->. reflexivity.
  - intros e ->. reflexivity.
Qed.

(** A slot that a request hands back, unless it is 0, is the slot of a block
    of the peer's answer. *)
Lemma firstSlotAbove_In (slot : Z) (blocks : list SignedBeaconBlock) :
  firstSlotAbove slot blocks <> 0 ->
  exists block, In block blocks /\ Block_Slot block = firstSlotAbove slot blocks.
Proof.
  induction blocks as [| b rest IH]; cbn; [intros H; contradiction H; reflexivity |].
  destruct (slot <? Block_Slot b).
  - intros _. exists b. split; [left; reflexivity | reflexivity].
  - intros H. destruct (IH H) as (b' & Hin & Hb'). exists b'. split; [right |]; assumption.
Qed.

Lemma fetch_reported (slot : Z) (pid : peer_ID) (start count step : Z)
    (h h' : list Event) (n : Z) :
  fetch f slot pid start count step h = (Return n, h') -> n <> 0 ->
  reported_by_last_request f h' n.
Proof.
  unfold fetch. rewrite !bind_eq. cbn.
  destruct (requestBlocks f h _ pid) as [blocks | e] eqn:Hreq; cbn; [| discriminate].
  intros H Hn. injection H as <- <-.
  destruct (firstSlotAbove_In slot blocks Hn) as (b & Hin & Hb).
  exists h, pid, {| StartSlot := start; Count := count; Step := step |}, blocks, b.
  repeat split; assumption.
Qed.

Lemma denseStage_reported (peers : list peer_ID) (slot end_ : Z) :
  0 <= slot ->
  forall (fuel : nat) (ind : Z) (pidInd : nat) (h h' : list Event) (next : Z),
    denseStage cfg f fuel peers slot end_ ind pidInd h = (Return (Returned next), h') ->
    reported_by_last_request f h' next.
Proof.
  intros Hslot. induction fuel as [| fuel IH]; intros ind pidInd h h' next;
    cbn [denseStage]; destruct (ind <? end_); try discriminate.
  rewrite bind_eq.
  destruct (peerAt peers pidInd h) as [[pid | | |] h1]; try discriminate.
  rewrite bind_eq.
  destruct (fetch f slot pid ind spe 1 h1) as [[n | | |] h2] eqn:Hfetch;
    try discriminate.
  destruct (Z.ltb_spec slot n) as [Hlt | Hge].
  - cbn. intros H. injection H as <- <-.
    eapply fetch_reported; [exact Hfetch | lia].
  - apply IH.
Qed.

(** X3: [nonSkippedSlotAfter] never makes up a slot.  When the dense window
    [slot + K * SlotsPerEpoch] does not overflow, a slot that it returns is
    the slot of a block in the answer to the last request of the run. *)
Theorem nonSkippedSlotAfter_reported (fuel : nat) (slot : Z) (h h' : list Event)
    (next : Z) :
  0 <= slot -> 0 < K * spe -> slot + K * spe < U64.modulus ->
  nonSkippedSlotAfter cfg f fuel slot h = (Return next, h') ->
  exists h1 pid req blocks block,
    h' = h1 ++ [EvRequestBlocks pid req] /\
    requestBlocks f h1 req pid = inl blocks /\
    In block blocks /\ Block_Slot block = next.
Proof.
  intros Hslot HK Hsum. unfold nonSkippedSlotAfter.
  destruct (calculateHeadAndTargetEpochs cfg f) as [[headEpoch targetEpoch] peers0].
  destruct (targetEpoch <=? headEpoch); [discriminate |].
  intros H. apply bind_Return in H as (peers & h0 & Hfilter & H).
  apply lift_Return in Hfilter as [_ ->].
  destruct (length peers =? 0)%nat; [discriminate |].
  apply bind_Return in H as ([n | pidInd] & h2 & Hdense & H).
  - cbn in H. injection H as <- <-.
    eapply denseStage_reported; [exact Hslot | exact Hdense].
  - apply bind_Return in H as (ub0 & h3 & _ & H).
    apply bind_Return in H as ([ub pidInd'] & h4 & _ & H).
    assert (Hslot' : U64.add slot (U64.mul K spe) = slot + K * spe).
    { unfold U64.add, U64.mul. rewrite (wrap_small (K * spe)).
      - apply wrap_small. unfold U64.in_range. lia.
      - unfold U64.in_range. lia. }
    rewrite Hslot' in H. unfold exactStage in H.
    apply bind_Return in H as (ub' & h5 & Hub' & H).
    apply lift_Return in Hub' as [_ ->].
    apply bind_Return in H as (pid & h6 & Hpid & H).
    apply peerAt_state in Hpid as ->.
    apply bind_Return in H as (n & h7 & Hfetch & H).
    apply bind_Return in H as (s0 & h8 & Hs0 & H).
    apply lift_Return in Hs0 as [_ ->].
    destruct (Z.ltb_spec n (slot + K * spe)) as [Hlt | Hge]; [discriminate |].
    destruct (s0 <? n); [discriminate |].
    cbn in H. injection H as <- <-.
    eapply fetch_reported; [exact Hfetch | lia].
Qed.

Lemma peerAt_round_robin (peers : list peer_ID) (i : nat) (h : list Event) :
  peers <> [] ->
  peerAt peers i h = (Return (nth (i mod length peers) peers EmptyString), h).
Proof.
  intros Hpeers. unfold peerAt.
  assert (Hlt : (i mod length peers < length peers)%nat).
  { apply Nat.mod_upper_bound. destruct peers; [contradiction | cbn; lia]. }
  rewrite (nth_lookup peers _ EmptyString).
  destruct (peers !! (i mod length peers)%nat) as [pid |] eqn:Hlook; [reflexivity |].
  apply lookup_ge_None in Hlook. lia.
Qed.

Lemma denseStage_requests_from (peers : list peer_ID) (slot : Z) :
  peers <> [] -> 0 < spe -> 0 <= slot -> 0 <= K ->
  slot + 1 + K * spe + spe <= U64.modulus ->
  forall (fuel i : nat) (h h' : list Event) (r : outcome (flow Z nat)),
    Z.of_nat i <= K ->
    denseStage cfg f fuel peers slot (slot + 1 + K * spe)
      (slot + 1 + Z.of_nat i * spe) i h = (r, h') ->
    exists j,
      Z.of_nat (i + j) <= K /\
      h' = h ++ map (dense_request cfg peers slot) (seq i j) /\
      (forall p, r = Return (Onward p) -> Z.of_nat p = K /\ p = (i + j)%nat) /\
      (forall n, r = Return (Returned n) -> (0 < j)%nat).
Proof.
  intros Hpeers Hspe Hslot HK Hwin.
  induction fuel as [| fuel IH]; intros i h h' r Hi; cbn [denseStage];
    destruct (Z.ltb_spec (slot + 1 + Z.of_nat i * spe) (slot + 1 + K * spe))
      as [Hlt | Hge].
  - intros H. injection H as <- <-. exists 0%nat. rewrite Nat.add_0_r.
    cbn. rewrite app_nil_r.
    split; [exact Hi |]. split; [reflexivity |].
    split; intros ? Hp; discriminate Hp.
  - intros H. injection H as <- <-. exists 0%nat. rewrite Nat.add_0_r.
    cbn. rewrite app_nil_r.
    split; [exact Hi |]. split; [reflexivity |].
    split; [| intros ? Hp; discriminate Hp].
    intros p Hp. injection Hp as <-. split; [nia | reflexivity].
  - assert (HiK : Z.of_nat i < K) by nia.
    rewrite bind_eq, (peerAt_round_robin peers i h Hpeers), bind_eq.
    destruct (fetch f slot _ _ spe 1 h) as [rf h1] eqn:Hfetch.
    apply fetch_cases in Hfetch as [-> _].
    assert (Hadd : U64.add (slot + 1 + Z.of_nat i * spe) spe
                   = slot + 1 + Z.of_nat (S i) * spe).
    { unfold U64.add. rewrite wrap_small; [lia |]. unfold U64.in_range. nia. }
    destruct rf as [n | e | |].
    + destruct (slot <? n).
      * intros H. injection H as <- <-. exists 1%nat.
        split; [lia |]. split; [reflexivity |].
        split; [intros p Hp; discriminate Hp | intros _ _; lia].
      * rewrite Hadd. intros H.
        apply IH in H as (j & Hj & -> & Hon & Hret); [| lia].
        exists (S j). split; [lia |]. split.
        -- cbn [seq map]. rewrite <- app_assoc. reflexivity.
        -- split; [| intros; lia].
           intros p Hp. destruct (Hon p Hp) as [H1 H2]. split; [exact H1 | lia].
    + intros H. injection H as <- <-. exists 1%nat.
      split; [lia |]. split; [reflexivity |]. split; intros ? Hp; discriminate Hp.
    + intros H. injection H as <- <-. exists 1%nat.
      split; [lia |]. split; [reflexivity |]. split; intros ? Hp; discriminate Hp.
    + intros H. injection H as <- <-. exists 1%nat.
      split; [lia |]. split; [reflexivity |]. split; intros ? Hp; discriminate Hp.
  - intros H. injection H as <- <-. exists 0%nat. rewrite Nat.add_0_r.
    cbn. rewrite app_nil_r.
    split; [exact Hi |]. split; [reflexivity |].
    split; [| intros ? Hp; discriminate Hp].
    intros p Hp. injection Hp as <-. split; [nia | reflexivity].
Qed.

(** X4: the dense stage asks for consecutive whole epochs.  Away from the
    end of the [uint64] range, its requests are, in order, the windows
    [slot + 1 + i * SlotsPerEpoch] of [SlotsPerEpoch] slots with step 1, for
    [i = 0, 1, ...], each sent to the peer number [i mod len(peers)]; there
    are at most [K] of them, exactly [K] when the stage finds nothing, and
    at least one when it hands back a slot. *)
Theorem denseStage_requests (fuel : nat) (peers : list peer_ID) (slot : Z)
    (h h' : list Event) (r : outcome (flow Z nat)) :
  peers <> [] -> 0 < spe -> 0 <= slot -> 0 <= K ->
  slot + 1 + K * spe + spe <= U64.modulus ->
  denseStage cfg f fuel peers slot
    (U64.add (U64.add slot 1) (U64.mul K spe)) (U64.add slot 1) 0 h = (r, h') ->
  exists j,
    Z.of_nat j <= K /\
    h' = h ++ map (dense_request cfg peers slot) (seq 0 j) /\
    (forall p, r = Return (Onward p) -> Z.of_nat j = K /\ p = j) /\
    (forall n, r = Return (Returned n) -> (0 < j)%nat).
Proof.
  intros Hpeers Hspe Hslot HK Hwin.
  assert (HKs : U64.mul K spe = K * spe).
  { apply wrap_small. unfold U64.in_range. nia. }
  assert (Hstart : U64.add slot 1 = slot + 1).
  { apply wrap_small. unfold U64.in_range. nia. }
  assert (Hend : U64.add (slot + 1) (K * spe) = slot + 1 + K * spe).
  { apply wrap_small. unfold U64.in_range. nia. }
  rewrite HKs, Hstart, Hend.
  replace (slot + 1) with (slot + 1 + Z.of_nat 0 * spe) at 2 by lia.
  intros H.
  apply (denseStage_requests_from peers slot Hpeers Hspe Hslot HK Hwin) in H
    as (j & Hj & Hh & Hon & Hret); [| lia].
  exists j. cbn in Hj. split; [lia |]. split; [exact Hh |]. split; [| exact Hret].
  intros p Hp. destruct (Hon p Hp) as [H1 H2]. cbn in H2. subst p. split; [exact H1 | reflexivity].
Qed.

Lemma fetch_no_panic (slot : Z) (pid : peer_ID) (start count step : Z)
    (h : list Event) :
  fst (fetch f slot pid start count step h) <> Panic.
Proof.
  unfold fetch. rewrite !bind_eq. cbn.
  destruct (requestBlocks f h _ pid); discriminate.
Qed.

Lemma denseStage_no_panic (peers : list peer_ID) (slot end_ : Z) :
  peers <> [] ->
  forall (fuel : nat) (ind : Z) (pidInd : nat) (h : list Event),
    fst (denseStage cfg f fuel peers slot end_ ind pidInd h) <> Panic.
Proof.
  intros Hpeers. induction fuel as [| fuel IH]; intros ind pidInd h;
    cbn [denseStage]; destruct (ind <? end_); try (cbn; discriminate).
  rewrite bind_eq, (peerAt_round_robin peers pidInd h Hpeers), bind_eq.
  pose proof (fetch_no_panic slot (nth (pidInd mod length peers) peers EmptyString)
                ind spe 1 h) as Hf.
  destruct (fetch f slot _ ind spe 1 h) as [[n | | |] h2];
    [| discriminate | exfalso; apply Hf; reflexivity | discriminate].
  destruct (slot <? n); [discriminate | apply IH].
Qed.

Lemma rand_Intn_draw (n : Z) (h : list Event) :
  0 < n -> rand_Intn f n h = (Return (rand_source f h mod n), h ++ [EvRandIntn n]).
Proof.
  intros Hn. unfold rand_Intn.
  destruct (Z.leb_spec n 0) as [Hle | _]; [lia | reflexivity].
Qed.

Lemma sparseStage_no_panic (peers : list peer_ID) (slot upperBoundSlot : Z) :
  peers <> [] -> (0 < spe < 2 ^ 63) ->
  forall (fuel : nat) (ind : Z) (pidInd : nat) (h : list Event),
    fst (sparseStage cfg f fuel peers slot upperBoundSlot ind pidInd h) <> Panic.
Proof.
  intros Hpeers Hspe.
  assert (Hint : 0 < U64.to_int spe).
  { unfold U64.to_int. destruct (Z.ltb_spec spe (2 ^ 63)); lia. }
  induction fuel as [| fuel IH]; intros ind pidInd h;
    cbn [sparseStage]; destruct (ind <? upperBoundSlot); try (cbn; discriminate).
  rewrite bind_eq, (rand_Intn_draw _ h Hint).
  rewrite bind_eq, (peerAt_round_robin peers pidInd _ Hpeers), bind_eq.
  match goal with |- context [fetch f slot ?pid ?a ?b ?c ?h0] =>
    pose proof (fetch_no_panic slot pid a b c h0) as Hf;
    destruct (fetch f slot pid a b c h0) as [[n | | |] h2];
      [| discriminate | exfalso; apply Hf; reflexivity | discriminate]
  end.
  destruct (_ && _); [discriminate | apply IH].
Qed.

(** X5: the search comes back.  With between 2 and [2^31] slots per epoch,
    slots far from the end of the [uint64] range and a loop budget of the
    size of the search range, [nonSkippedSlotAfter] returns a slot or an
    error: it neither panics nor runs on, whatever the peers answer. *)
Theorem nonSkippedSlotAfter_returns (fuel : nat) (slot : Z) (h : list Event)
    (headEpoch targetEpoch : Z) (peers0 : list peer_ID) :
  (2 <= spe <= 2 ^ 31) -> 0 <= K -> 0 <= slot -> 0 <= targetEpoch ->
  slot + 1 + K * spe + spe * spe <= U64.modulus ->
  (targetEpoch + 1) * spe + spe * spe <= U64.modulus ->
  calculateHeadAndTargetEpochs cfg f = (headEpoch, targetEpoch, peers0) ->
  K <= Z.of_nat fuel -> (targetEpoch + 1) * spe <= Z.of_nat fuel ->
  exists r h',
    nonSkippedSlotAfter cfg f fuel slot h = (r, h') /\
    ((exists next, r = Return next) \/ (exists e, r = Fail e)).
Proof.
  intros Hspe HK Hslot Hte Hwin Hsearch Hcalc HfuelK Hfuel.
  pose proof (nonSkippedSlotAfter_ends cfg f fuel slot h headEpoch targetEpoch peers0
                ltac:(lia) HK Hslot Hte Hwin Hsearch Hcalc HfuelK Hfuel) as Hends.
  assert (Hpanic : fst (nonSkippedSlotAfter cfg f fuel slot h) <> Panic).
  { unfold nonSkippedSlotAfter. rewrite Hcalc.
    destruct (targetEpoch <=? headEpoch); [discriminate |].
    rewrite bind_eq. destruct (filterPeers f peers0) as [peers | e]; [| discriminate].
    cbn [lift mret Eff_ret eff_ret].
    destruct peers as [| p ps] eqn:Hpeers; [discriminate |]. rewrite <- Hpeers.
    assert (Hne : peers <> []) by (rewrite Hpeers; discriminate).
    replace (length peers =? 0)%nat with false
      by (rewrite Hpeers; reflexivity).
    rewrite bind_eq.
    match goal with |- context [denseStage cfg f fuel peers slot ?a ?b ?c h] =>
      pose proof (denseStage_no_panic peers slot a Hne fuel b c h) as Hd;
      destruct (denseStage cfg f fuel peers slot a b c h) as [[[n | pidInd] | | |] h1];
        [discriminate | | discriminate | exfalso; apply Hd; reflexivity | discriminate]
    end.
    rewrite bind_eq.
    destruct (helpers.StartSlot spe (U64.add targetEpoch 1)) as [ub0 | e];
      [| discriminate].
    cbn [lift mret Eff_ret eff_ret]. rewrite bind_eq.
    match goal with |- context [sparseStage cfg f fuel peers ?a ?b ?c pidInd h1] =>
      pose proof (sparseStage_no_panic peers a b Hne ltac:(lia) fuel c pidInd h1) as Hs;
      destruct (sparseStage cfg f fuel peers a b c pidInd h1)
        as [[[ub pidInd'] | | |] h2];
        [| discriminate | exfalso; apply Hs; reflexivity | discriminate]
    end.
    unfold exactStage. rewrite bind_eq.
    destruct (helpers.StartSlot spe _) as [ub' | e]; [| discriminate].
    cbn [lift mret Eff_ret eff_ret].
    rewrite bind_eq, (peerAt_round_robin peers pidInd' h2 Hne), bind_eq.
    match goal with |- context [fetch f ?sl ?pid ?a ?b ?c h2] =>
      pose proof (fetch_no_panic sl pid a b c h2) as Hf;
      destruct (fetch f sl pid a b c h2) as [[n | | |] h3];
        [| discriminate | exfalso; apply Hf; reflexivity | discriminate]
    end.
    rewrite bind_eq.
    destruct (helpers.StartSlot spe _); cbn [lift mret Eff_ret eff_ret fail];
      [| discriminate].
    destruct (_ || _); discriminate. }
  destruct (nonSkippedSlotAfter cfg f fuel slot h) as [[next | e | |] h'].
  - eexists _, _. split; [reflexivity | left; eauto].
  - eexists _, _. split; [reflexivity | right; eauto].
  - exfalso. apply Hpanic. reflexivity.
  - exfalso. apply Hends. reflexivity.
Qed.



(** X6: in the finalized mode the head epoch is the epoch of the local
    finalized checkpoint, and [bestFinalizedSlot] is the first slot of the
    target epoch that [calculateHeadAndTargetEpochs] names: the product
    [targetEpoch * SlotsPerEpoch] modulo [2^64], which is what
    [helpers.StartSlot] returns whenever that does not fail. *)
Theorem bestFinalizedSlot_is_target_start (headEpoch targetEpoch : Z)
    (peers : list peer_ID) :
  mode f = modeStopOnFinalizedEpoch ->
  calculateHeadAndTargetEpochs cfg f = (headEpoch, targetEpoch, peers) ->
  headEpoch = chain_FinalizedCheckpt_Epoch f /\
  bestFinalizedSlot cfg f = U64.mul targetEpoch spe /\
  (forall s, 0 <= targetEpoch * spe ->
     helpers.StartSlot spe targetEpoch = inl s -> bestFinalizedSlot cfg f = s).
Proof.
  intros Hmode. unfold calculateHeadAndTargetEpochs, bestFinalizedSlot.
  rewrite Hmode. cbn.
  destruct (Peers_BestFinalized f (MaxPeersToSync cfg) (chain_FinalizedCheckpt_Epoch f))
    as [te ps].
  intros H. injection H as <- <- <-.
  split; [reflexivity | split; [reflexivity |]].
  intros s Hpos Hs. apply StartSlot_inl in Hs as [-> Hlt].
  apply wrap_small. unfold U64.in_range. lia.
Qed.
End Fetcher.

Import samples.

Lemma nonSkippedSlotAfter_no_peers_witness :
  (calculateHeadAndTargetEpochs mainnet (with_filter scenario (fun _ => inl []))
     = (3, 10, three_peers) /\ 3 < 10) /\
  nonSkippedSlotAfter mainnet (with_filter scenario (fun _ => inl [])) 10 100 []
    = (Fail errNoPeersAvailable, []) /\
  nonSkippedSlotAfter mainnet
    (with_filter scenario (fun _ => inr (external 3))) 10 100 []
    = (Fail (external 3), []).
Proof.
  split; [split; [reflexivity | lia] |]. split.
  - apply (proj1 (nonSkippedSlotAfter_no_peers mainnet
                    (with_filter scenario (fun _ => inl [])) 10 100 [] 3 10 three_peers
                    eq_refl ltac:(lia))).
    reflexivity.
  - apply (proj2 (nonSkippedSlotAfter_no_peers mainnet
                    (with_filter scenario (fun _ => inr (external 3))) 10 100 []
                    3 10 three_peers eq_refl ltac:(lia))).
    reflexivity.
Defined.

(** The third request of the scenario fails: the search stops there. *)
Lemma nonSkippedSlotAfter_fails_fast_witness :
  let h1 := [EvRequestBlocks "p1" {| StartSlot := 101; Count := 32; Step := 1 |};
             EvRequestBlocks "p2" {| StartSlot := 133; Count := 32; Step := 1 |}] in
  let req := {| StartSlot := 165; Count := 32; Step := 1 |} in
  nonSkippedSlotAfter mainnet (failing_at scenario 2) 10 100 []
    = (Fail (external 7), h1 ++ [EvRequestBlocks "p3" req]) /\
  requestBlocks (failing_at scenario 2) h1 req "p3" = inr (external 7) /\
  (@nil Event = [] /\ Fail (external 7) = @Fail Z (external 7)).
Proof.
  intros h1 req.
  assert (Hrun : nonSkippedSlotAfter mainnet (failing_at scenario 2) 10 100 []
                 = (Fail (external 7), h1 ++ [EvRequestBlocks "p3" req]))
    by (vm_compute; reflexivity).
  assert (Hreq : requestBlocks (failing_at scenario 2) h1 req "p3" = inr (external 7))
    by reflexivity.
  split; [exact Hrun | split; [exact Hreq |]].
  apply (nonSkippedSlotAfter_fails_fast mainnet (failing_at scenario 2) 10 100 []
           (h1 ++ [EvRequestBlocks "p3" req]) h1 [] (Fail (external 7)) "p3" req
           (external 7) Hrun eq_refl ltac:(cbn; lia) Hreq).
Defined.

Lemma nonSkippedSlotAfter_reported_witness :
  (0 <= 100 /\ 0 < 10 * 32 /\ 100 + 10 * 32 < U64.modulus) /\
  exists h1 pid req blocks block,
    snd (nonSkippedSlotAfter mainnet scenario 10 100 [])
      = h1 ++ [EvRequestBlocks pid req] /\
    requestBlocks scenario h1 req pid = inl blocks /\
    In block blocks /\ Block_Slot block = 200.
Proof.
  split; [vm_compute; repeat split; congruence |].
  apply (nonSkippedSlotAfter_reported mainnet scenario 10 100 []
           (snd (nonSkippedSlotAfter mainnet scenario 10 100 [])) 200);
    [lia | reflexivity | reflexivity | vm_compute; reflexivity].
Defined.

(** Peers without blocks: the dense stage asks for all ten epochs after
    slot 0, in turn. *)
Lemma denseStage_requests_witness :
  let run := denseStage mainnet silent 10 three_peers 0
               (U64.add (U64.add 0 1) (U64.mul 10 32)) (U64.add 0 1) 0 [] in
  (three_peers <> [] /\ 0 < 32 /\ 0 <= 0 /\ 0 <= 10 /\
   0 + 1 + 10 * 32 + 32 <= U64.modulus) /\
  fst run = Return (Onward 10%nat) /\
  exists j,
    Z.of_nat j <= 10 /\
    snd run = [] ++ map (dense_request mainnet three_peers 0) (seq 0 j) /\
    (forall p, fst run = Return (Onward p) -> Z.of_nat j = 10 /\ p = j) /\
    (forall n, fst run = Return (Returned n) -> (0 < j)%nat).
Proof.
  intros run.
  split; [repeat split; try lia; try discriminate; vm_compute; congruence |].
  split; [vm_compute; reflexivity |].
  apply (denseStage_requests mainnet silent 10 three_peers 0 [] (snd run) (fst run));
    [discriminate | reflexivity | lia | cbn; lia | vm_compute; congruence
    | vm_compute; reflexivity].
Defined.

Lemma nonSkippedSlotAfter_returns_witness :
  ((2 <= 32 <= 2 ^ 31) /\ 0 <= 10 /\ 0 <= 100 /\ 0 <= 10 /\
   100 + 1 + 10 * 32 + 32 * 32 <= U64.modulus /\
   (10 + 1) * 32 + 32 * 32 <= U64.modulus /\
   calculateHeadAndTargetEpochs mainnet scenario = (3, 10, three_peers) /\
   10 <= Z.of_nat 352 /\ (10 + 1) * 32 <= Z.of_nat 352) /\
  exists r h',
    nonSkippedSlotAfter mainnet scenario 352 100 [] = (r, h') /\
    ((exists next, r = Return next) \/ (exists e, r = Fail e)).
Proof.
  split; [repeat split; try lia; try reflexivity; vm_compute; congruence |].
  apply (nonSkippedSlotAfter_returns mainnet scenario 352 100 [] 3 10 three_peers);
    try reflexivity; try (cbn; lia); try (vm_compute; congruence).
Defined.


Lemma bestFinalizedSlot_is_target_start_witness :
  (mode after_target = modeStopOnFinalizedEpoch /\
   calculateHeadAndTargetEpochs mainnet after_target = (0, 12, three_peers)) /\
  0 = chain_FinalizedCheckpt_Epoch after_target /\
  bestFinalizedSlot mainnet after_target = U64.mul 12 32 /\
  (forall s, 0 <= 12 * 32 ->
     helpers.StartSlot 32 12 = inl s -> bestFinalizedSlot mainnet after_target = s).
Proof.
  split; [split; reflexivity |].
  apply (bestFinalizedSlot_is_target_start mainnet after_target 0 12 three_peers);
    reflexivity.
Defined.
End initialsync_extra.

(** ** Package p2p *)

Module p2p_extra.
Import p2p p2p_facts p2p_more.

Section Service.
Variable cfg : Config.
Variable s : Collaborators.

(** X7: a failed [JoinTopic] is not remembered.  When the topic is not
    joined and [pubsub.Join] fails, [JoinTopic] returns that error and leaves
    the map of joined topics as it was, so the next call asks [pubsub.Join]
    again. *)
Theorem JoinTopic_failure_not_stored (topic : string) (st : State) (e : error) :
  joinedTopics st !! topic = None ->
  pubsub_Join s (history st) topic = inr e ->
  let st1 := with_history st (history st ++ [EvJoin topic]) in
  JoinTopic s topic st = (Fail e, st1) /\
  joinedTopics st1 = joinedTopics st /\
  forall r st2, JoinTopic s topic st1 = (r, st2) ->
    history st2 = history st1 ++ [EvJoin topic].
Proof.
  intros Hlook Hjoin st1.
  assert (Hrun : JoinTopic s topic st = (Fail e, st1)).
  { unfold JoinTopic. eff_unfold. rewrite Hlook. cbn. rewrite Hjoin. reflexivity. }
  split; [exact Hrun | split; [reflexivity |]].
  intros r st2 H2.
  apply JoinTopic_cases in H2
    as [(t & Hl & _ & _) | [_ [(t & _ & _ & ->) | (e' & _ & _ & ->)]]].
  - cbn in Hl. rewrite Hlook in Hl. discriminate Hl.
  - reflexivity.
  - reflexivity.
Qed.

(** X8: [JoinTopic] only ever adds the topic it is asked for.  Whatever the
    outcome, a handle that is in the map stays in it unchanged, the entries
    of all other topics are untouched, and no goroutine is started. *)
Theorem JoinTopic_keeps_handles (topic : string) (st st' : State) (r : outcome Topic) :
  JoinTopic s topic st = (r, st') ->
  (forall topic' t', joinedTopics st !! topic' = Some t' ->
     joinedTopics st' !! topic' = Some t') /\
  (forall topic', topic' <> topic ->
     joinedTopics st' !! topic' = joinedTopics st !! topic') /\
  started st' = started st.
Proof.
  intros H.
  apply JoinTopic_cases in H
    as [(t & Hl & _ & ->) | [Hnone [(t & _ & _ & ->) | (e & _ & _ & ->)]]];
    cbn [joinedTopics started with_history]; repeat split; auto.
  - intros topic' t' Hl. destruct (decide (topic = topic')) as [<- | Hne].
    + rewrite Hnone in Hl. discriminate Hl.
    + rewrite lookup_insert_ne; assumption.
  - intros topic' Hne. apply lookup_insert_ne. congruence.
Qed.

(** X9: [LeaveTopic] of a joined topic whose handle closes without error
    closes that handle once, removes the topic from the map and leaves all
    other topics as they were. *)
Theorem LeaveTopic_removes (topic : string) (st : State) (t : Topic) :
  joinedTopics st !! topic = Some t ->
  Topic_Close s (history st) t = None ->
  exists st',
    LeaveTopic s topic st = (Return tt, st') /\
    history st' = history st ++ [EvClose t] /\
    joinedTopics st' !! topic = None /\
    (forall topic', topic' <> topic ->
       joinedTopics st' !! topic' = joinedTopics st !! topic').
Proof.
  intros Hlook Hclose. eexists. split.
  - unfold LeaveTopic. eff_unfold. rewrite Hlook. cbn. rewrite Hclose. reflexivity.
  - cbn. split; [reflexivity |]. split; [apply lookup_delete_eq |].
    intros topic' Hne. apply lookup_delete_ne. congruence.
Qed.

(** X10: [LeaveTopic] keeps what it cannot close.  When [Close] fails, its
    error is returned and the topic stays in the map with its handle; a
    topic that is not joined is left without any call. *)
Theorem LeaveTopic_keeps (topic : string) (st : State) :
  (forall t err,
     joinedTopics st !! topic = Some t ->
     Topic_Close s (history st) t = Some err ->
     LeaveTopic s topic st = (Fail err, with_history st (history st ++ [EvClose t])) /\
     joinedTopics (snd (LeaveTopic s topic st)) !! topic = Some t) /\
  (joinedTopics st !! topic = None -> LeaveTopic s topic st = (Return tt, st)).
Proof.
  split.
  - intros t err Hlook Hclose.
    assert (Hrun : LeaveTopic s topic st
                   = (Fail err, with_history st (history st ++ [EvClose t]))).
    { unfold LeaveTopic. eff_unfold. rewrite Hlook. cbn. rewrite Hclose. reflexivity. }
    split; [exact Hrun |]. rewrite Hrun. exact Hlook.
  - intros Hnone. unfold LeaveTopic. eff_unfold. rewrite Hnone. reflexivity.
Qed.

(** X11: joining and leaving undo each other.  From a state in which the
    topic is not joined, a successful [JoinTopic] followed by a [LeaveTopic]
    whose [Close] succeeds gives back the map of joined topics, and a later
    [JoinTopic] has to call [pubsub.Join] again. *)
Theorem JoinTopic_LeaveTopic (topic : string) (st st1 : State) (t : Topic) :
  joinedTopics st !! topic = None ->
  JoinTopic s topic st = (Return t, st1) ->
  Topic_Close s (history st1) t = None ->
  exists st2,
    LeaveTopic s topic st1 = (Return tt, st2) /\
    joinedTopics st2 = joinedTopics st /\
    history st2 = history st ++ [EvJoin topic; EvClose t] /\
    forall r st3, JoinTopic s topic st2 = (r, st3) ->
      history st3 = history st2 ++ [EvJoin topic].
Proof.
  intros Hnone Hjoin Hclose.
  apply JoinTopic_cases in Hjoin
    as [(t' & Hl & _ & _) | [_ [(t' & Hj & Hr & ->) | (e & _ & Hr & _)]]];
    [rewrite Hnone in Hl; discriminate Hl | | discriminate Hr].
  injection Hr as <-. cbn [history] in Hclose.
  eexists. split.
  - unfold LeaveTopic. eff_unfold. rewrite lookup_insert_eq. cbn.
    rewrite Hclose. reflexivity.
  - cbn [joinedTopics history]. split; [apply delete_insert_id; exact Hnone |].
    split; [rewrite <- app_assoc; reflexivity |].
    intros r st3 H3.
    apply JoinTopic_cases in H3
      as [(t'' & Hl & _ & _) | [_ [(t'' & _ & _ & ->) | (e & _ & _ & ->)]]].
    + cbn in Hl. rewrite lookup_delete_eq in Hl. discriminate Hl.
    + reflexivity.
    + reflexivity.
Qed.

(** *** Deadlines *)

Lemma clock_monotone (h evs : list Event) :
  clock_advances s -> time_Now s h <= time_Now s (h ++ evs).
Proof.
  intros [Hmono _]. revert h. induction evs as [| e evs IH]; intros h.
  - rewrite app_nil_r. lia.
  - replace (h ++ e :: evs) with ((h ++ [e]) ++ evs) by (rewrite <- app_assoc; reflexivity).
    specialize (Hmono h e). specialize (IH (h ++ [e])). lia.
Qed.

Lemma clock_after_polls (t : Topic) (n : nat) :
  clock_advances s ->
  forall h, time_Now s h + Z.of_nat n * 100000000 <= time_Now s (h ++ polls t n).
Proof.
  intros Hclock. pose proof Hclock as [Hmono Hsleep].
  induction n as [| n IH]; intros h.
  - cbn. rewrite app_nil_r. lia.
  - assert (Heq : h ++ polls t (S n)
                   = ((h ++ [EvListPeers t]) ++ [EvSleep 100]) ++ polls t n)
      by (cbn; rewrite <- !app_assoc; reflexivity).
    rewrite Heq.
    specialize (IH ((h ++ [EvListPeers t]) ++ [EvSleep 100])).
    specialize (Hmono h (EvListPeers t)). specialize (Hsleep (h ++ [EvListPeers t])).
    lia.
Qed.

Lemma context_WithTimeout_expires (parent : Context) (d : Z) (h0 : list Event) :
  expires_by s (context_WithTimeout s parent d h0) (time_Now s h0 + d).
Proof.
  intros h Hh. cbn. destruct (ctx_Err parent h); [discriminate |].
  destruct (Z.leb_spec (time_Now s h0 + d) (time_Now s h)); [discriminate | lia].
Qed.

(** Under a context with a deadline the publish loop ends: a budget of one
    round more than the deadline leaves room for 100-millisecond sleeps is
    never used up. *)
Lemma awaitPeerAndPublish_deadline (fuel : nat) (ctx : Context) (t : Topic)
    (data : bytes) (st : State) (deadline : Z) :
  clock_advances s -> expires_by s ctx deadline -> (0 < fuel)%nat ->
  deadline <= time_Now s (history st) + (Z.of_nat fuel - 1) * 100000000 ->
  exists r st',
    awaitPeerAndPublish s fuel ctx t data st = (r, st') /\
    (r = Return tt \/ exists e, r = Fail e).
Proof.
  intros Hclock Hexp Hfuel Hdl.
  destruct (awaitPeerAndPublish s fuel ctx t data st) as [r st'] eqn:Hrun.
  exists r, st'. split; [reflexivity |].
  apply awaitPeerAndPublish_shape in Hrun as (n & Hn & Hidle & Hend & Hoof).
  inversion Hend as [Hr Hst | e Hpeers Hctx Hr Hst | Hpeers Hr Hst].
  - exfalso. subst r. specialize (Hoof eq_refl). subst n.
    destruct (Hidle (fuel - 1)%nat ltac:(lia)) as [_ Hlive].
    apply (Hexp ((history st ++ polls t (fuel - 1)) ++ [EvListPeers t]));
      [| exact Hlive].
    pose proof (clock_after_polls t (fuel - 1) Hclock (history st)) as H1.
    pose proof (proj1 Hclock (history st ++ polls t (fuel - 1)) (EvListPeers t)) as H2.
    replace (Z.of_nat (fuel - 1)) with (Z.of_nat fuel - 1) in H1 by lia. lia.
  - right. eauto.
  - destruct (Topic_Publish s _ t data); [right | left]; eauto.
Qed.

Lemma PublishToTopic_deadline (fuel : nat) (ctx : Context) (topic : string)
    (data : bytes) (st : State) (deadline : Z) :
  clock_advances s -> expires_by s ctx deadline -> (0 < fuel)%nat ->
  deadline <= time_Now s (history st) + (Z.of_nat fuel - 1) * 100000000 ->
  exists r st',
    PublishToTopic s fuel ctx topic data st = (r, st') /\
    (r = Return tt \/ exists e, r = Fail e).
Proof.
  intros Hclock Hexp Hfuel Hdl. unfold PublishToTopic. rewrite bind_eq.
  destruct (JoinTopic s topic st) as [rj st1] eqn:Hjoin.
  pose proof Hjoin as Hcases.
  apply JoinTopic_cases in Hcases
    as [(t & _ & -> & ->) | [_ [(t & _ & -> & ->) | (e & _ & -> & ->)]]].
  - apply (awaitPeerAndPublish_deadline fuel ctx t data st deadline); assumption.
  - apply (awaitPeerAndPublish_deadline fuel ctx t data _ deadline); try assumption.
    cbn [history]. pose proof (proj1 Hclock (history st) (EvJoin topic)). lia.
  - eexists _, _. split; [reflexivity | right; eauto].
Qed.

Lemma broadcastObject_deadline (fuel : nat) (ctx : Context) (obj : object)
    (topic : string) (st : State) (deadline : Z) :
  clock_advances s -> expires_by s ctx deadline -> (0 < fuel)%nat ->
  deadline <= time_Now s (history st) + (Z.of_nat fuel - 1) * 100000000 ->
  exists r st',
    broadcastObject s fuel ctx obj topic st = (r, st') /\
    (r = Return tt \/ exists e, r = Fail e).
Proof.
  intros Hclock Hexp Hfuel Hdl. unfold broadcastObject.
  rewrite bind_eq. cbn [emit modify]. rewrite bind_eq.
  set (st0 := {| history := history st ++ [EvEncodeGossip obj];
                 joinedTopics := joinedTopics st; started := started st |}).
  destruct (Encoding_EncodeGossip s obj) as [buf | e]; cbn [lift wrapping fail].
  - cbn [mret Eff_ret eff_ret].
    destruct (PublishToTopic_deadline fuel ctx (topic ++ Encoding_ProtocolSuffix s)
                buf st0 deadline Hclock Hexp Hfuel) as (r & st' & Hrun & Hr).
    + cbn [st0 history]. pose proof (proj1 Hclock (history st) (EvEncodeGossip obj)). lia.
    + unfold wrapping, mret, Eff_ret, eff_ret. cbn iota beta.
      rewrite Hrun. destruct Hr as [-> | [e ->]]; eexists _, _;
        (split; [reflexivity |]); [left | right]; eauto.
  - eexists _, _. split; [reflexivity | right; eauto].
Qed.

(** X13: [Broadcast] comes back.  When the clock does not run backwards and
    every sleep of the publish loop takes its 100 milliseconds, a loop
    budget of one round more than fit into two slot durations is never used
    up: as long as the single calls to the encoder and the transport
    return, [Broadcast] returns nil or an error, whether or not a peer ever
    appears and whatever the caller's context does. *)
Theorem Broadcast_returns (fuel : nat) (ctx : Context) (msg : Message) (st : State) :
  clock_advances s -> (0 < fuel)%nat ->
  twoSlots cfg <= (Z.of_nat fuel - 1) * 100000000 ->
  exists r st',
    Broadcast cfg s fuel ctx msg st = (r, st') /\
    (r = Return tt \/ exists e, r = Fail e).
Proof.
  intros Hclock Hfuel Hdl. unfold Broadcast. rewrite bind_eq. cbn [past gets].
  rewrite bind_eq.
  destruct (forkDigest s (history st)) as [digest | e]; cbn [lift wrapping fail].
  - cbn [mret Eff_ret eff_ret].
    destruct (GossipTypeMapping s !! TypeOf msg) as [topic |].
    + apply (broadcastObject_deadline fuel _ _ _ st
               (time_Now s (history st) + twoSlots cfg)); try assumption.
      * apply context_WithTimeout_expires.
      * lia.
    + eexists _, _. split; [reflexivity | right; eauto].
  - eexists _, _. split; [reflexivity | right; eauto].
Qed.

(** X14: the goroutine of [BroadcastAttestation] ends.  Under the same
    assumption on the clock, with a budget of one round more than fit into
    one epoch, [broadcastAttestation] runs to its end whatever the caller's
    context is and whatever the subnet search, the encoder and the transport
    answer: its own deadline of one epoch ends the publish loop, and no
    error stops it short. *)
Theorem broadcastAttestation_finishes (fuel : nat) (ctx : Context) (subnet : Z)
    (att : Attestation) (digest : bytes) (st : State) :
  clock_advances s -> (0 < fuel)%nat ->
  oneEpoch cfg <= (Z.of_nat fuel - 1) * 100000000 ->
  fst (broadcastAttestation cfg s fuel ctx subnet att digest st) = Return tt.
Proof.
  intros Hclock Hfuel Hdl. unfold broadcastAttestation.
  rewrite bind_eq. cbn [past gets]. rewrite bind_eq. cbn [emit modify].
  rewrite bind_eq.
  set (st0 := {| history := history st ++ [EvHasPeerWithSubnet subnet];
                 joinedTopics := joinedTopics st; started := started st |}).
  set (ctx0 := context_WithTimeout s context_Background _ (history st)).
  assert (Hdisc : exists o st1 evs,
            (if negb (hasPeerWithSubnet s (history st) subnet)
             then logged (discoverSubnetPeer s maxSubnetDiscoveryAttempts ctx0 subnet)
             else mret None) st0 = (Return o, st1) /\
            history st1 = history st ++ evs).
  { destruct (negb _).
    - unfold logged.
      destruct (discoverSubnetPeer s _ ctx0 subnet st0) as [rd st1] eqn:Hrun.
      apply discoverSubnetPeer_trace in Hrun as (n & _ & -> & [-> | [e ->]]);
        eexists _, _, _; (split; [reflexivity |]); cbn [with_history st0 history];
        rewrite <- app_assoc; reflexivity.
    - exists None, st0, [EvHasPeerWithSubnet subnet]. split; reflexivity. }
  destruct Hdisc as (o & st1 & evs & -> & Hh1). rewrite bind_eq.
  match goal with |- context [logged (broadcastObject s fuel ?c ?ob ?tp) st1] =>
    destruct (broadcastObject_deadline fuel c ob tp st1
                (time_Now s (history st) + oneEpoch cfg) Hclock) as (r & st' & Hrun & Hr)
  end.
  - intros h Hh. apply (context_WithTimeout_expires context_Background (oneEpoch cfg)
                         (history st) h Hh).
  - exact Hfuel.
  - rewrite Hh1. pose proof (clock_monotone (history st) evs Hclock). lia.
  - unfold logged. rewrite Hrun. destruct Hr as [-> | [e ->]]; reflexivity.
Qed.

(** *** Publishing and broadcasting *)

(** X12: a peer that shows up is published to.  Once the topic is joined,
    if the first round of the loop that lists a peer is round [n], every
    budget above [n] makes [PublishToTopic] hand the data to [Publish] in
    that round, after exactly [n] sleeps, and return the answer of [Publish];
    the context is not consulted in that round. *)
Theorem PublishToTopic_publishes (ctx : Context) (topic : string) (data : bytes)
    (st st1 : State) (t : Topic) (n fuel : nat) :
  JoinTopic s topic st = (Return t, st1) ->
  (forall k, (k < n)%nat -> idle s ctx t (history st1 ++ polls t k)) ->
  Topic_ListPeers s (history st1 ++ polls t n) t <> [] ->
  (n < fuel)%nat ->
  PublishToTopic s fuel ctx topic data st =
    (match Topic_Publish s ((history st1 ++ polls t n) ++ [EvListPeers t]) t data with
     | Some err => Fail err
     | None => Return tt
     end,
     with_history st1
       ((history st1 ++ polls t n) ++ [EvListPeers t; EvPublish t data])).
Proof.
  intros Hjoin Hidle Hpeers Hfuel.
  rewrite (PublishToTopic_joined s fuel ctx topic data st st1 t Hjoin).
  apply awaitPeerAndPublish_publishes; assumption.
Qed.

Lemma wrapping_Fail {A : Type} (msg : string) (m : Eff State A) (st st' : State)
    (e0 : error) :
  wrapping msg m st = (Fail e0, st') -> exists e, e0 = errors_Wrap e msg.
Proof.
  unfold wrapping. destruct (m st) as [[a | e | |] st0]; intros H;
    try discriminate H.
  injection H as <- _. eauto.
Qed.

(** X18: the errors of [Broadcast].  An error that [Broadcast] returns is
    [ErrMessageNotMapped] or an error of the fork digest, of the encoder or
    of the publish step, wrapped with the message of that step. *)
Theorem Broadcast_errors (fuel : nat) (ctx : Context) (msg : Message)
    (st st' : State) (e0 : error) :
  Broadcast cfg s fuel ctx msg st = (Fail e0, st') ->
  e0 = ErrMessageNotMapped \/
  exists e wrapper, e0 = errors_Wrap e wrapper /\ In wrapper Broadcast_wrappers.
Proof.
  unfold Broadcast. rewrite bind_eq. cbn [past gets]. rewrite bind_eq.
  destruct (wrapping _ (lift (forkDigest s (history st))) st) as [[digest | e | |] st1]
    eqn:Hdigest.
  - destruct (GossipTypeMapping s !! TypeOf msg) as [topic |].
    + unfold broadcastObject. rewrite bind_eq. cbn [emit modify]. rewrite bind_eq.
      match goal with |- context [wrapping ?m1 ?c ?st0] =>
        destruct (wrapping m1 c st0) as [[buf | e | |] st2] eqn:Hencode
      end.
      * intros H. apply wrapping_Fail in H as (e & ->).
        right. exists e, "could not publish message"%string.
        split; [reflexivity | cbn; auto].
      * intros H. injection H as <- _.
        apply wrapping_Fail in Hencode as (e' & ->).
        right. exists e', "could not encode message"%string.
        split; [reflexivity | cbn; auto].
      * discriminate.
      * discriminate.
    + intros H. injection H as <- _. left. reflexivity.
  - intros H. injection H as <- _.
    apply wrapping_Fail in Hdigest as (e' & ->).
    right. exists e', "could not retrieve fork digest"%string.
    split; [reflexivity | cbn; auto].
  - discriminate.
  - discriminate.
Qed.

(** X19: what fails early leaves the transport alone.  Without a fork
    digest [Broadcast] returns the wrapped error and has called nothing;
    when the encoder rejects a mapped message it returns the wrapped encoder
    error, and the call of the encoder is the only one: no topic is joined
    and nothing is published. *)
Theorem Broadcast_early_errors (fuel : nat) (ctx : Context) (msg : Message)
    (st : State) :
  (forall e, forkDigest s (history st) = inr e ->
     Broadcast cfg s fuel ctx msg st
       = (Fail (errors_Wrap e "could not retrieve fork digest"), st)) /\
  (forall digest topic e,
     forkDigest s (history st) = inl digest ->
     GossipTypeMapping s !! TypeOf msg = Some topic ->
     Encoding_EncodeGossip s (obj_message msg) = inr e ->
     Broadcast cfg s fuel ctx msg st
       = (Fail (errors_Wrap e "could not encode message"),
          with_history st (history st ++ [EvEncodeGossip (obj_message msg)]))).
Proof.
  split.
  - intros e He. unfold Broadcast. rewrite bind_eq. cbn [past gets].
    rewrite bind_eq. unfold wrapping. rewrite He. reflexivity.
  - intros digest topic e Hd Hm He. unfold Broadcast. rewrite bind_eq.
    cbn [past gets]. rewrite bind_eq. unfold wrapping at 1. rewrite Hd.
    cbn [lift mret Eff_ret eff_ret]. rewrite Hm.
    unfold broadcastObject. rewrite bind_eq. cbn [emit modify]. rewrite bind_eq.
    unfold wrapping at 1. rewrite He. reflexivity.
Qed.

(** X20: what [Broadcast] publishes.  For a mapped message with a fork
    digest and an encoding, on a topic that can be joined and has a mesh
    peer at once, [Broadcast] lists the peers once and hands [Publish]
    exactly the bytes of the encoder, on the handle of the topic named by
    the format filled with the digest, followed by the protocol suffix; the
    answer of [Publish] is the result, an error being wrapped. *)
Theorem Broadcast_publishes (fuel : nat) (ctx : Context) (msg : Message)
    (st st1 : State) (digest buf : bytes) (format : string) (t : Topic) :
  forkDigest s (history st) = inl digest ->
  GossipTypeMapping s !! TypeOf msg = Some format ->
  Encoding_EncodeGossip s (obj_message msg) = inl buf ->
  JoinTopic s (Sprintf_topic s format digest ++ Encoding_ProtocolSuffix s)
    (with_history st (history st ++ [EvEncodeGossip (obj_message msg)]))
    = (Return t, st1) ->
  Topic_ListPeers s (history st1) t <> [] ->
  (0 < fuel)%nat ->
  Broadcast cfg s fuel ctx msg st =
    (match Topic_Publish s (history st1 ++ [EvListPeers t]) t buf with
     | Some err => Fail (errors_Wrap err "could not publish message")
     | None => Return tt
     end,
     with_history st1 (history st1 ++ [EvListPeers t; EvPublish t buf])).
Proof.
  intros Hd Hm He Hjoin Hpeers Hfuel.
  unfold Broadcast. rewrite bind_eq. cbn [past gets].
  rewrite bind_eq. unfold wrapping at 1. rewrite Hd.
  cbn [lift mret Eff_ret eff_ret]. rewrite Hm.
  unfold broadcastObject. rewrite bind_eq. cbn [emit modify]. rewrite bind_eq.
  unfold wrapping at 1. rewrite He. cbn [lift mret Eff_ret eff_ret].
  unfold wrapping.
  match goal with |- context [PublishToTopic s fuel ?c ?tp buf ?st0] =>
    rewrite (PublishToTopic_joined s fuel c tp buf st0 st1 t Hjoin);
    rewrite (awaitPeerAndPublish_publishes s c t buf st1 0 fuel)
  end.
  - cbn [polls]. rewrite !app_nil_r.
    destruct (Topic_Publish s (history st1 ++ [EvListPeers t]) t buf); reflexivity.
  - intros k Hk. lia.
  - cbn [polls]. rewrite app_nil_r. exact Hpeers.
  - exact Hfuel.
Qed.

(** *** The subnet search *)

Lemma searches_S (subnet : Z) (h : list Event) (k : nat) :
  (h ++ [EvFindPeersWithSubnet subnet]) ++ searches subnet k
  = h ++ searches subnet (S k).
Proof. unfold searches. cbn. rewrite <- app_assoc. reflexivity. Qed.

(** X17: where the subnet search stops.  After [j] searches that found
    nothing while the context was not done, the search gives up with its
    own error if that was the last attempt; otherwise it returns the error
    of the context if the context is done by then, and else searches once
    more and stops there if that search finds a peer or fails. *)
Theorem discoverSubnetPeer_stops (ctx : Context) (subnet : Z) :
  forall (j remaining : nat) (st : State),
    (j <= remaining)%nat ->
    (forall k, (k < j)%nat ->
       ctx_Err ctx (history st ++ searches subnet k) = None /\
       FindPeersWithSubnet s (history st ++ searches subnet k) subnet = inl false) ->
    (j = remaining ->
     discoverSubnetPeer s remaining ctx subnet st
       = (Fail (errors_New "failed to find peers for subnet"),
          with_history st (history st ++ searches subnet j))) /\
    ((j < remaining)%nat ->
     (forall e, ctx_Err ctx (history st ++ searches subnet j) = Some e ->
        discoverSubnetPeer s remaining ctx subnet st
          = (Fail e, with_history st (history st ++ searches subnet j))) /\
     (ctx_Err ctx (history st ++ searches subnet j) = None ->
      (FindPeersWithSubnet s (history st ++ searches subnet j) subnet = inl true ->
       discoverSubnetPeer s remaining ctx subnet st
         = (Return tt, with_history st (history st ++ searches subnet (S j)))) /\
      (forall e,
         FindPeersWithSubnet s (history st ++ searches subnet j) subnet = inr e ->
         discoverSubnetPeer s remaining ctx subnet st
           = (Fail e, with_history st (history st ++ searches subnet (S j)))))).
Proof.
  induction j as [| j IH]; intros remaining st Hj Hquiet.
  - unfold searches. cbn [repeat]. rewrite app_nil_r, with_history_id. split.
    + intros <-. reflexivity.
    + intros Hlt. destruct remaining as [| remaining]; [lia |].
      cbn [discoverSubnetPeer]. rewrite bind_eq. cbn [past gets]. split.
      * intros e ->. reflexivity.
      * intros ->. rewrite bind_eq. cbn [emit modify]. rewrite bind_eq. split.
        -- intros ->. reflexivity.
        -- intros e ->. reflexivity.
  - destruct remaining as [| remaining]; [lia |].
    destruct (Hquiet 0%nat ltac:(lia)) as [Hctx0 Hfind0].
    unfold searches in Hctx0, Hfind0. cbn [repeat] in Hctx0, Hfind0.
    rewrite app_nil_r in Hctx0, Hfind0.
    assert (Hstep : discoverSubnetPeer s (S remaining) ctx subnet st
              = discoverSubnetPeer s remaining ctx subnet
                  (with_history st (history st ++ [EvFindPeersWithSubnet subnet]))).
    { cbn [discoverSubnetPeer]. rewrite bind_eq. cbn [past gets]. rewrite Hctx0.
      rewrite bind_eq. cbn [emit modify]. rewrite bind_eq, Hfind0. reflexivity. }
    rewrite Hstep.
    specialize (IH remaining
                  (with_history st (history st ++ [EvFindPeersWithSubnet subnet]))
                  ltac:(lia)).
    cbn [with_history history joinedTopics started] in IH.
    rewrite !searches_S in IH.
    destruct IH as [IH1 IH2].
    + intros k Hk. rewrite searches_S. apply Hquiet. lia.
    + split.
      * intros Heq. apply IH1. lia.
      * intros Hlt. apply IH2. lia.
Qed.

(** X15: with a peer already known on the subnet nothing is searched: the
    goroutine goes straight to its one call of [broadcastObject], and
    [FindPeersWithSubnet] is not called. *)
Theorem broadcastAttestation_known_peer (fuel : nat) (ctx : Context) (subnet : Z)
    (att : Attestation) (digest : bytes) (st st' : State) (r : outcome unit) :
  hasPeerWithSubnet s (history st) subnet = true ->
  broadcastAttestation cfg s fuel ctx subnet att digest st = (r, st') ->
  exists (ctx' : Context) (r1 : outcome unit),
    broadcastObject s fuel ctx' (obj_attestation att)
      (attestationToTopic s subnet digest)
      (with_history st (history st ++ [EvHasPeerWithSubnet subnet]))
      = (r1, st') /\
    count is_FindPeersWithSubnet (history st')
      = count is_FindPeersWithSubnet (history st).
Proof.
  intros Hknown. unfold broadcastAttestation.
  rewrite bind_eq. cbn [past gets]. rewrite bind_eq. cbn [emit modify].
  rewrite Hknown. cbn [negb]. rewrite bind_eq.
  cbn [mret Eff_ret eff_ret]. rewrite bind_eq.
  match goal with |- context [logged (broadcastObject s fuel ?c ?ob ?tp) ?st0] =>
    destruct (logged (broadcastObject s fuel c ob tp) st0) as [rb st2] eqn:Hpub
  end.
  intros Hrun.
  assert (Hst2 : st2 = st').
  { destruct rb; cbn in Hrun; injection Hrun as _ <-; reflexivity. }
  subst st2. apply logged_state in Hpub as (r1 & Hpub).
  eexists _, r1. split; [exact Hpub |].
  apply broadcastObject_counts in Hpub as (_ & _ & HF & _).
  rewrite HF. cbn [history]. rewrite count_app. unfold count at 2. cbn. lia.
Qed.

(** X16: the goroutine is detached from its caller.  Of the caller's
    context [broadcastAttestation] uses the request key and nothing else:
    two contexts with the same key, whether done or not, give the same
    run. *)
Theorem broadcastAttestation_detached (fuel : nat) (ctx1 ctx2 : Context)
    (subnet : Z) (att : Attestation) (digest : bytes) (st : State) :
  ctx_Value ctx1 "x-request-key" = ctx_Value ctx2 "x-request-key" ->
  broadcastAttestation cfg s fuel ctx1 subnet att digest st
  = broadcastAttestation cfg s fuel ctx2 subnet att digest st.
Proof. intros Hkey. unfold broadcastAttestation. rewrite Hkey. reflexivity. Qed.
End Service.

Section Subscribe.
Variable s : Collaborators.
Variable awaitStateInitialized : Eff State unit.
Variable Topic_Subscribe : Topic -> Eff State Subscription.

(** X22: [SubscribeToTopic] subscribes on the handle of the registry.  Once
    the state is initialized, a topic that is already joined is subscribed
    to on its stored handle without a call of [pubsub.Join]; a topic that is
    not is joined first, and when that fails the error of [pubsub.Join] is
    returned and [Subscribe] is not reached. *)
Theorem SubscribeToTopic_uses_registry (topic : string) (st st1 : State) :
  awaitStateInitialized st = (Return tt, st1) ->
  (forall t, joinedTopics st1 !! topic = Some t ->
     SubscribeToTopic s awaitStateInitialized Topic_Subscribe topic st
       = Topic_Subscribe t st1) /\
  (forall t, joinedTopics st1 !! topic = None ->
     pubsub_Join s (history st1) topic = inl t ->
     SubscribeToTopic s awaitStateInitialized Topic_Subscribe topic st
       = Topic_Subscribe t
           {| history := history st1 ++ [EvJoin topic];
              joinedTopics := <[topic := t]> (joinedTopics st1);
              started := started st1 |}) /\
  (forall e, joinedTopics st1 !! topic = None ->
     pubsub_Join s (history st1) topic = inr e ->
     SubscribeToTopic s awaitStateInitialized Topic_Subscribe topic st
       = (Fail e, with_history st1 (history st1 ++ [EvJoin topic]))).
Proof.
  intros Hawait. unfold SubscribeToTopic. rewrite bind_eq, Hawait.
  split; [| split].
  - intros t Hl. rewrite bind_eq.
    assert (Hj : JoinTopic s topic st1 = (Return t, st1)).
    { unfold JoinTopic. eff_unfold. rewrite Hl. cbn. rewrite Hl. reflexivity. }
    rewrite Hj. reflexivity.
  - intros t Hl Hjoin. rewrite bind_eq.
    assert (Hj : JoinTopic s topic st1
                 = (Return t,
                    {| history := history st1 ++ [EvJoin topic];
                       joinedTopics := <[topic := t]> (joinedTopics st1);
                       started := started st1 |})).
    { unfold JoinTopic. eff_unfold. rewrite Hl. cbn. rewrite Hjoin. cbn.
      rewrite lookup_insert_eq. reflexivity. }
    rewrite Hj. reflexivity.
  - intros e Hl Hjoin. rewrite bind_eq.
    assert (Hj : JoinTopic s topic st1
                 = (Fail e, with_history st1 (history st1 ++ [EvJoin topic]))).
    { unfold JoinTopic. eff_unfold. rewrite Hl. cbn. rewrite Hjoin. reflexivity. }
    rewrite Hj. reflexivity.
Qed.
End Subscribe.

Section MessageID.
Variable snappy_Decode : bytes -> bytes + error.
Variable hashutil_Hash : bytes -> bytes.

(** X21: the identifier sees through the framing.  Two payloads that both
    decompress, and to the same bytes, get the same identifier, computed
    from the valid domain and the decompressed bytes only. *)
Theorem msgIDFunction_same_content (net : NetworkConfig) (d1 d2 x : bytes) :
  snappy_Decode d1 = inl x -> snappy_Decode d2 = inl x ->
  fst (msgIDFunction snappy_Decode hashutil_Hash net d1)
    = fst (msgIDFunction snappy_Decode hashutil_Hash net d2) /\
  fst (msgIDFunction snappy_Decode hashutil_Hash net d1)
    = take 20 (hashutil_Hash (MessageDomainValidSnappy net ++ x)).
Proof.
  intros H1 H2. unfold msgIDFunction. rewrite H1, H2.
  pose proof (go_append_full_slice (MessageDomainValidSnappy net) x) as [Ha _].
  destruct (go_append (full_slice (MessageDomainValidSnappy net)) x) as [combined arr].
  cbn in Ha. cbn. rewrite Ha. split; reflexivity.
Qed.
End MessageID.

Import p2p_samples.

Lemma network_clock (found_at peer_at : nat) : clock_advances (network found_at peer_at).
Proof.
  split.
  - intros h e. cbn. rewrite count_app. lia.
  - intros h. cbn. rewrite count_app. unfold count. cbn. lia.
Defined.

Lemma JoinTopic_failure_not_stored_witness :
  let s := with_Join (network 0 0) (fun _ _ => inr (external 2)) in
  let st1 := with_history fresh (history fresh ++ [EvJoin "t"]) in
  (joinedTopics fresh !! "t"%string = None /\
   pubsub_Join s (history fresh) "t" = inr (external 2)) /\
  JoinTopic s "t" fresh = (Fail (external 2), st1) /\
  joinedTopics st1 = joinedTopics fresh /\
  forall r st2, JoinTopic s "t" st1 = (r, st2) ->
    history st2 = history st1 ++ [EvJoin "t"].
Proof.
  intros s st1. split; [split; reflexivity |].
  apply (JoinTopic_failure_not_stored s "t" fresh (external 2)); reflexivity.
Defined.

Lemma JoinTopic_keeps_handles_witness :
  let run := JoinTopic (network 0 0) "b" joined_a in
  fst run = Return 7%nat /\
  (forall topic' t', joinedTopics joined_a !! topic' = Some t' ->
     joinedTopics (snd run) !! topic' = Some t') /\
  (forall topic', topic' <> "b"%string ->
     joinedTopics (snd run) !! topic' = joinedTopics joined_a !! topic') /\
  started (snd run) = started joined_a.
Proof.
  intros run. split; [reflexivity |].
  apply (JoinTopic_keeps_handles (network 0 0) "b" joined_a (snd run) (fst run)).
  reflexivity.
Defined.

Lemma LeaveTopic_removes_witness :
  (joinedTopics joined_a !! "a"%string = Some 5%nat /\
   Topic_Close (network 0 0) (history joined_a) 5%nat = None) /\
  exists st',
    LeaveTopic (network 0 0) "a" joined_a = (Return tt, st') /\
    history st' = history joined_a ++ [EvClose 5%nat] /\
    joinedTopics st' !! "a"%string = None /\
    (forall topic', topic' <> "a"%string ->
       joinedTopics st' !! topic' = joinedTopics joined_a !! topic').
Proof.
  split; [split; reflexivity |].
  apply (LeaveTopic_removes (network 0 0) "a" joined_a 5%nat); reflexivity.
Defined.

Lemma LeaveTopic_keeps_witness :
  let s := with_Close (network 0 0) (fun _ _ => Some (external 4)) in
  (LeaveTopic s "a" joined_a
     = (Fail (external 4), with_history joined_a (history joined_a ++ [EvClose 5%nat])) /\
   joinedTopics (snd (LeaveTopic s "a" joined_a)) !! "a"%string = Some 5%nat) /\
  LeaveTopic s "b" joined_a = (Return tt, joined_a).
Proof.
  intros s. split.
  - apply (proj1 (LeaveTopic_keeps s "a" joined_a) 5%nat (external 4)); reflexivity.
  - apply (proj2 (LeaveTopic_keeps s "b" joined_a)). reflexivity.
Defined.

Lemma JoinTopic_LeaveTopic_witness :
  let st1 := snd (JoinTopic (network 0 0) "t" fresh) in
  (joinedTopics fresh !! "t"%string = None /\
   JoinTopic (network 0 0) "t" fresh = (Return 7%nat, st1) /\
   Topic_Close (network 0 0) (history st1) 7%nat = None) /\
  exists st2,
    LeaveTopic (network 0 0) "t" st1 = (Return tt, st2) /\
    joinedTopics st2 = joinedTopics fresh /\
    history st2 = history fresh ++ [EvJoin "t"; EvClose 7%nat] /\
    forall r st3, JoinTopic (network 0 0) "t" st2 = (r, st3) ->
      history st3 = history st2 ++ [EvJoin "t"].
Proof.
  intros st1. split; [repeat split; reflexivity |].
  apply (JoinTopic_LeaveTopic (network 0 0) "t" fresh st1 7%nat); reflexivity.
Defined.

Lemma idle_two_rounds :
  forall k, (k < 2)%nat ->
    idle (network 0 2) context_Background 7%nat
      (history (snd (JoinTopic (network 0 2) "t" fresh)) ++ polls 7%nat k).
Proof.
  intros [| [| k]] Hk; [| | lia]; split; vm_compute; reflexivity.
Defined.

(** The first mesh peer appears after two sleeps: the third round
    publishes. *)
Lemma PublishToTopic_publishes_witness :
  PublishToTopic (network 0 2) 5 context_Background "t" [Byte.x2a] fresh =
    (Return tt,
     {| history := [EvJoin "t"; EvListPeers 7%nat; EvSleep 100; EvListPeers 7%nat;
                    EvSleep 100; EvListPeers 7%nat; EvPublish 7%nat [Byte.x2a]];
        joinedTopics := {[ "t"%string := 7%nat ]};
        started := [] |}).
Proof.
  rewrite (PublishToTopic_publishes (network 0 2) context_Background "t" [Byte.x2a]
             fresh (snd (JoinTopic (network 0 2) "t" fresh)) 7%nat 2 5
             eq_refl idle_two_rounds ltac:(vm_compute; discriminate) ltac:(lia)).
  reflexivity.
Defined.

(** No mesh peer within the first hundred sleeps: with slots of one second
    [Broadcast] is back within 21 rounds and the goroutine within 41. *)
Lemma Broadcast_returns_witness :
  (clock_advances (network 0 100) /\ (0 < 21)%nat /\
   twoSlots quick <= (Z.of_nat 21 - 1) * 100000000) /\
  exists r st',
    Broadcast quick (network 0 100) 21 context_Background block_msg fresh = (r, st') /\
    (r = Return tt \/ exists e, r = Fail e).
Proof.
  split; [split; [apply network_clock | split; [lia | vm_compute; congruence]] |].
  apply (Broadcast_returns quick (network 0 100) 21 context_Background block_msg
           fresh (network_clock 0 100));
    [lia | vm_compute; congruence].
Defined.

Lemma broadcastAttestation_finishes_witness :
  (clock_advances (network 9 100) /\ (0 < 41)%nat /\
   oneEpoch quick <= (Z.of_nat 41 - 1) * 100000000) /\
  fst (broadcastAttestation quick (network 9 100) 41 (cancelled_after 0) 3
         att digest fresh) = Return tt.
Proof.
  split; [split; [apply network_clock | split; [lia | vm_compute; congruence]] |].
  apply (broadcastAttestation_finishes quick (network 9 100) 41
           (cancelled_after 0) 3 att digest fresh (network_clock 9 100));
    [lia | vm_compute; congruence].
Defined.

Lemma broadcastAttestation_known_peer_witness :
  let s := with_hasPeer (network 9 0) (fun _ _ => true) in
  let run := broadcastAttestation mainnet s 5 context_Background 3 att digest fresh in
  hasPeerWithSubnet s (history fresh) 3 = true /\
  history (snd run) =
    [EvHasPeerWithSubnet 3; EvEncodeGossip (obj_attestation att);
     EvJoin "/eth2/01020304/beacon_attestation_3/ssz_snappy";
     EvListPeers 7%nat; EvPublish 7%nat (att_ssz att)] /\
  exists (ctx' : Context) (r1 : outcome unit),
    broadcastObject s 5 ctx' (obj_attestation att) (attestationToTopic s 3 digest)
      (with_history fresh (history fresh ++ [EvHasPeerWithSubnet 3]))
      = (r1, snd run) /\
    count is_FindPeersWithSubnet (history (snd run))
      = count is_FindPeersWithSubnet (history fresh).
Proof.
  intros s run. split; [reflexivity | split; [vm_compute; reflexivity |]].
  apply (broadcastAttestation_known_peer mainnet s 5 context_Background 3 att digest
           fresh (snd run) (fst run)); reflexivity.
Defined.

(** A caller whose context is cancelled from the start gets the same
    goroutine as one whose context never is. *)
Lemma broadcastAttestation_detached_witness :
  ctx_Value (cancelled_after 0) "x-request-key"
    = ctx_Value context_Background "x-request-key" /\
  ctx_Err (cancelled_after 0) [] = Some context_Canceled /\
  broadcastAttestation mainnet (network 1 0) 5 (cancelled_after 0) 3 att digest fresh
  = broadcastAttestation mainnet (network 1 0) 5 context_Background 3 att digest fresh.
Proof.
  split; [reflexivity | split; [reflexivity |]].
  apply (broadcastAttestation_detached mainnet (network 1 0) 5 (cancelled_after 0)
           context_Background 3 att digest fresh).
  reflexivity.
Defined.

Lemma quiet_first_search :
  forall k, (k < 1)%nat ->
    ctx_Err context_Background (history fresh ++ searches 3 k) = None /\
    FindPeersWithSubnet (network 1 0) (history fresh ++ searches 3 k) 3 = inl false.
Proof.
  intros [| k] Hk; [| lia]. split; reflexivity.
Defined.

(** The second of three searches finds a peer: the search stops there. *)
Lemma discoverSubnetPeer_stops_witness :
  (1 <= 3)%nat /\
  FindPeersWithSubnet (network 1 0) (history fresh ++ searches 3 1) 3 = inl true /\
  discoverSubnetPeer (network 1 0) 3 context_Background 3 fresh
    = (Return tt, with_history fresh (history fresh ++ searches 3 2)).
Proof.
  split; [lia | split; [reflexivity |]].
  destruct (discoverSubnetPeer_stops (network 1 0) context_Background 3 1 3 fresh
              ltac:(lia) quiet_first_search) as [_ Hmore].
  destruct (Hmore ltac:(lia)) as [_ Hlive].
  destruct (Hlive eq_refl) as [Hfound _].
  apply Hfound. reflexivity.
Defined.

Lemma Broadcast_errors_witness :
  let s := with_encoder (network 0 0) (fun _ => inr (external 6)) in
  let run := Broadcast mainnet s 5 context_Background block_msg fresh in
  run = (Fail (errors_Wrap (external 6) "could not encode message"), snd run) /\
  (errors_Wrap (external 6) "could not encode message" = ErrMessageNotMapped \/
   exists e wrapper,
     errors_Wrap (external 6) "could not encode message" = errors_Wrap e wrapper /\
     In wrapper Broadcast_wrappers).
Proof.
  intros s run.
  assert (Hrun : run = (Fail (errors_Wrap (external 6) "could not encode message"),
                        snd run)) by reflexivity.
  split; [exact Hrun |].
  apply (Broadcast_errors mainnet s 5 context_Background block_msg fresh (snd run)).
  exact Hrun.
Defined.

Lemma Broadcast_early_errors_witness :
  let s := with_encoder (network 0 0) (fun _ => inr (external 6)) in
  Broadcast mainnet no_digest 5 context_Background block_msg fresh
    = (Fail (errors_Wrap (external 1) "could not retrieve fork digest"), fresh) /\
  Broadcast mainnet s 5 context_Background block_msg fresh
    = (Fail (errors_Wrap (external 6) "could not encode message"),
       with_history fresh (history fresh ++ [EvEncodeGossip (obj_message block_msg)])).
Proof.
  intros s. split.
  - apply (proj1 (Broadcast_early_errors mainnet no_digest 5 context_Background
                    block_msg fresh)).
    reflexivity.
  - apply (proj2 (Broadcast_early_errors mainnet s 5 context_Background block_msg fresh)
             digest "/eth2/%x/beacon_block"%string (external 6));
      [reflexivity | vm_compute; reflexivity | reflexivity].
Defined.

Lemma Broadcast_publishes_witness :
  let st0 := with_history fresh (history fresh ++ [EvEncodeGossip (obj_message block_msg)]) in
  let st1 := snd (JoinTopic (network 0 0) "/eth2/%x/beacon_block/ssz_snappy" st0) in
  Broadcast mainnet (network 0 0) 5 context_Background block_msg fresh =
    (Return tt,
     with_history st1
       (history st1 ++ [EvListPeers 7%nat; EvPublish 7%nat (msg_ssz block_msg)])).
Proof.
  intros st0 st1.
  rewrite (Broadcast_publishes mainnet (network 0 0) 5 context_Background block_msg
             fresh st1 digest (msg_ssz block_msg) "/eth2/%x/beacon_block" 7%nat
             eq_refl ltac:(vm_compute; reflexivity) eq_refl eq_refl
             ltac:(vm_compute; discriminate) ltac:(lia)).
  reflexivity.
Defined.

Lemma SubscribeToTopic_uses_registry_witness :
  let await : Eff State unit := mret tt in
  let subscribe : Topic -> Eff State Subscription := fun t => mret (t + 100)%nat in
  SubscribeToTopic (network 0 0) await subscribe "a" joined_a
    = (Return 105%nat, joined_a) /\
  fst (SubscribeToTopic (network 0 0) await subscribe "b" joined_a) = Return 107%nat /\
  SubscribeToTopic (with_Join (network 0 0) (fun _ _ => inr (external 2)))
    await subscribe "b" joined_a
    = (Fail (external 2), with_history joined_a (history joined_a ++ [EvJoin "b"])).
Proof.
  intros await subscribe. split; [| split].
  - rewrite (proj1 (SubscribeToTopic_uses_registry (network 0 0) await subscribe "a"
                      joined_a joined_a eq_refl) 5%nat eq_refl).
    reflexivity.
  - rewrite (proj1 (proj2 (SubscribeToTopic_uses_registry (network 0 0) await subscribe
                             "b" joined_a joined_a eq_refl)) 7%nat eq_refl eq_refl).
    reflexivity.
  - apply (proj2 (proj2 (SubscribeToTopic_uses_registry
                           (with_Join (network 0 0) (fun _ _ => inr (external 2)))
                           await subscribe "b" joined_a joined_a eq_refl))
             (external 2)); reflexivity.
Defined.

(** Two framings of the byte 5 have one identifier. *)
Lemma msgIDFunction_same_content_witness :
  (two_framings [Byte.x01; Byte.x05] = inl [Byte.x05] /\
   two_framings [Byte.x02; Byte.x05] = inl [Byte.x05]) /\
  fst (msgIDFunction two_framings toy_Hash toy_net [Byte.x01; Byte.x05])
    = fst (msgIDFunction two_framings toy_Hash toy_net [Byte.x02; Byte.x05]) /\
  fst (msgIDFunction two_framings toy_Hash toy_net [Byte.x01; Byte.x05])
    = take 20 (toy_Hash (MessageDomainValidSnappy toy_net ++ [Byte.x05])).
Proof.
  split; [split; reflexivity |].
  apply (msgIDFunction_same_content two_framings toy_Hash toy_net
           [Byte.x01; Byte.x05] [Byte.x02; Byte.x05] [Byte.x05]); reflexivity.
Defined.
End p2p_extra.
